(** * Uptime monitoring backend: probe engine, check pipeline and management API

    A shallow embedding of [server.py].  The Mongo collections are lists of
    typed documents in the order the store returns them, [datetime] values are
    integers counting microseconds, Python floats are rationals, and every
    answer of the outside world (HTTP exchanges, TLS handshakes, DNS answers,
    sockets, the ping subprocess, clocks, fresh identifiers) is an explicit
    input of the function that consumes it. *)

From Stdlib Require Import ZArith QArith String Ascii List Bool Lia DecimalString.
From Stdlib Require Import Permutation.
Import ListNotations.

Set Warnings "-register-all".

Open Scope string_scope.
Open Scope Z_scope.

(** ** Python values and built-ins used by the server *)

Module Py.

(** [str(n)] for an [int]. *)
Definition str_int (z : Z) : string := NilZero.string_of_int (Z.to_int z).

(** Truthiness of the optional values the server tests with [if x] / [x or d]. *)
Definition truthy_str (s : option string) : bool :=
  match s with
  | Some s => negb (s =? "")%string
  | None => false
  end.

Definition truthy_int (z : option Z) : bool :=
  match z with
  | Some z => negb (z =? 0)
  | None => false
  end.

Definition truthy_float (q : option Q) : bool :=
  match q with
  | Some q => negb (Qeq_bool q 0)
  | None => false
  end.

(** [x or d]. *)
Definition or_int (z : option Z) (d : Z) : Z :=
  match z with
  | Some z => if z =? 0 then d else z
  | None => d
  end.

Definition or_str (s : option string) (d : string) : string :=
  match s with
  | Some s => if (s =? "")%string then d else s
  | None => d
  end.

(** [sub in s] on strings. *)
Fixpoint contains (sub s : string) : bool :=
  String.prefix sub s ||
  match s with
  | EmptyString => false
  | String _ rest => contains sub rest
  end.

(** [s.count(sub)]: occurrences counted left to right without overlap; [skip]
    is the number of characters still covered by the last occurrence. *)
Fixpoint count_from (sub s : string) (skip : nat) : nat :=
  match s with
  | EmptyString =>
      match skip with
      | O => if String.prefix sub s then 1%nat else 0%nat
      | S _ => 0%nat
      end
  | String _ rest =>
      match skip with
      | O =>
          if String.prefix sub s
          then S (count_from sub rest (Nat.pred (String.length sub)))
          else count_from sub rest 0
      | S k => count_from sub rest k
      end
  end.

Definition count (sub s : string) : nat := count_from sub s 0.

(** [s.replace(old, new)], scanning left to right as [count] does. *)
Fixpoint replace_from (old new s : string) (skip : nat) : string :=
  match s with
  | EmptyString =>
      match skip with
      | O => if String.prefix old s then new else EmptyString
      | S _ => EmptyString
      end
  | String c rest =>
      match skip with
      | O =>
          if String.prefix old s then
            match old with
            | EmptyString => new ++ String c (replace_from old new rest 0)
            | String _ old' =>
                new ++ replace_from old new rest (String.length old')
            end
          else String c (replace_from old new rest 0)
      | S k => replace_from old new rest k
      end
  end.

Definition replace (old new s : string) : string := replace_from old new s 0.

(** [s.split(sep)] for a one-character separator. *)
Fixpoint split (sep : ascii) (s : string) : list string :=
  match s with
  | EmptyString => [""]
  | String c rest =>
      if Ascii.eqb c sep then "" :: split sep rest
      else
        match split sep rest with
        | h :: t => String c h :: t
        | [] => [String c ""]
        end
  end.

(** [s.lower()] and [s.upper()] on ASCII letters. *)
Definition lower_ascii (c : ascii) : ascii :=
  let n := nat_of_ascii c in
  if ((65 <=? n) && (n <=? 90))%nat then ascii_of_nat (n + 32) else c.

Definition upper_ascii (c : ascii) : ascii :=
  let n := nat_of_ascii c in
  if ((97 <=? n) && (n <=? 122))%nat then ascii_of_nat (n - 32) else c.

Fixpoint lower (s : string) : string :=
  match s with
  | EmptyString => EmptyString
  | String c rest => String (lower_ascii c) (lower rest)
  end.

Fixpoint upper (s : string) : string :=
  match s with
  | EmptyString => EmptyString
  | String c rest => String (upper_ascii c) (upper rest)
  end.

(** What [json.loads] returns. A [JDict] lists the keys of a Python [dict]
    (each key once). *)
Inductive json : Type :=
| JNull
| JBool (b : bool)
| JInt (z : Z)
| JFloat (q : Q)
| JStr (s : string)
| JList (items : list json)
| JDict (entries : list (string * json)).

(** Exceptions, by the classes the handlers of [server.py] tell apart, with
    the text [str(e)] gives. Every class here derives from [Exception]. *)
Inductive exn_class : Type :=
| AsyncioTimeoutError
| SocketTimeout
| NXDOMAIN
| DnsTimeout
| JSONDecodeError
| KeyError
| TypeError
| OverflowError
| OtherException.

Record exn : Type := mkExn { cls : exn_class; msg : string }.

(** The outcome of running a block of Python: a value or a raised exception. *)
Inductive result (A : Type) : Type :=
| Return (v : A)
| Raise (e : exn).

Arguments Return {A} v.
Arguments Raise {A} e.

Definition bind {A B : Type} (r : result A) (k : A -> result B) : result B :=
  match r with
  | Return v => k v
  | Raise e => Raise e
  end.

(** [try: body except ...: handler]; a handler that matches no clause
    re-raises. *)
Definition try_except {A : Type} (body : result A) (handler : exn -> result A)
  : result A :=
  match body with
  | Return v => Return v
  | Raise e => handler e
  end.

(** Library functions kept abstract: [str] of a float, the [.2f] format,
    [repr] of a decoded JSON value (used for containers, floats and the
    string keys of a [KeyError]), [str.strip] and the number of matches
    [re.findall] returns (or the error it raises). *)
Class Runtime : Type := {
  str_float : Q -> string;
  format_2f : Q -> string;
  repr_json : json -> string;
  strip : string -> string;
  re_findall : string -> string -> result nat
}.

(** [str(v)] for a decoded JSON value. *)
Definition str_json `{Runtime} (v : json) : string :=
  match v with
  | JNull => "None"
  | JBool true => "True"
  | JBool false => "False"
  | JInt z => str_int z
  | JStr s => s
  | JFloat _ | JList _ | JDict _ => repr_json v
  end.

Fixpoint dict_get (key : string) (entries : list (string * json)) : option json :=
  match entries with
  | [] => None
  | (k, v) :: rest => if (k =? key)%string then Some v else dict_get key rest
  end.

(** [value[key]] with a string key: a lookup in a [dict], [KeyError] when the
    key is absent (its text is [repr(key)]), [TypeError] on every other kind
    of value (texts of CPython 3.11). *)
Definition getitem `{Runtime} (v : json) (key : string) : result json :=
  match v with
  | JDict entries =>
      match dict_get key entries with
      | Some v' => Return v'
      | None => Raise (mkExn KeyError (repr_json (JStr key)))
      end
  | JList _ =>
      Raise (mkExn TypeError "list indices must be integers or slices, not str")
  | JStr _ => Raise (mkExn TypeError "string indices must be integers, not 'str'")
  | JInt _ => Raise (mkExn TypeError "'int' object is not subscriptable")
  | JFloat _ => Raise (mkExn TypeError "'float' object is not subscriptable")
  | JBool _ => Raise (mkExn TypeError "'bool' object is not subscriptable")
  | JNull => Raise (mkExn TypeError "'NoneType' object is not subscriptable")
  end.

End Py.

Import Py.

Notation "x <- r ;; k" := (bind r (fun x => k))
  (at level 61, r at next level, right associativity).

(** ** Enumerations *)

Inductive MonitorStatus : Type := UP | DOWN | UNKNOWN | WARNING.

Inductive MonitorType : Type :=
  HTTP | HTTPS | SSL | DNS | PORT | PING | KEYWORD | API.

Inductive PortProtocol : Type := TCP | UDP.

Inductive DNSRecordType : Type :=
  REC_A | REC_AAAA | REC_CNAME | REC_MX | REC_NS | REC_TXT.

Definition status_eqb (a b : MonitorStatus) : bool :=
  match a, b with
  | UP, UP | DOWN, DOWN | UNKNOWN, UNKNOWN | WARNING, WARNING => true
  | _, _ => false
  end.

Definition PortProtocol_value (p : PortProtocol) : string :=
  match p with
  | TCP => "tcp"
  | UDP => "udp"
  end.

Definition DNSRecordType_value (r : DNSRecordType) : string :=
  match r with
  | REC_A => "A"
  | REC_AAAA => "AAAA"
  | REC_CNAME => "CNAME"
  | REC_MX => "MX"
  | REC_NS => "NS"
  | REC_TXT => "TXT"
  end.

(** ** Time *)

(** A [datetime] is its number of microseconds since 1970-01-01 00:00:00; a
    [timedelta] is a number of microseconds. *)
Definition datetime : Type := Z.

Definition timedelta_seconds (s : Z) : Z := s * 1000000.
Definition timedelta_hours (h : Z) : Z := h * 3600 * 1000000.

(** [td.days]: whole days, rounded towards minus infinity. *)
Definition timedelta_days (td : Z) : Z := td / 86400000000.

(** Building a [timedelta] fails with [OverflowError] when its number of
    days exceeds 999999999 in magnitude; CPython words the error differently
    when the days do not even fit a C int. *)
Definition timedelta_new (microseconds : Z) : result Z :=
  let days := timedelta_days microseconds in
  if (-999999999 <=? days) && (days <=? 999999999) then Return microseconds
  else
    Raise (mkExn OverflowError
             (if (-2147483648 <=? days) && (days <=? 2147483647)
              then "days=" ++ str_int days ++ "; must have magnitude <= 999999999"
              else "Python int too large to convert to C int")).

(** [datetime.min] and [datetime.max], in microseconds since 1970-01-01. *)
Definition datetime_min : datetime := -62135596800000000.
Definition datetime_max : datetime := 253402300799999999.

(** [d - td] for a datetime and a timedelta: [OverflowError] when the result
    is not a date of the years 1 to 9999. *)
Definition datetime_sub (d : datetime) (td : Z) : result datetime :=
  if (datetime_min <=? d - td) && (d - td <=? datetime_max) then Return (d - td)
  else Raise (mkExn OverflowError "date value out of range").

(** ** Documents *)

Module MonitorCreate.

Record t : Type := mk {
  name : string;
  url : option string;
  check_interval : Z;
  monitor_type : MonitorType;
  timeout : Z;
  ssl_domain : option string;
  ssl_expiry_threshold : option Z;
  dns_hostname : option string;
  dns_server : option string;
  dns_record_type : option DNSRecordType;
  expected_dns_result : option string;
  port_host : option string;
  port_number : option Z;
  port_protocol : option PortProtocol;
  ping_host : option string;
  ping_count : option Z;
  ping_packet_size : option Z;
  keyword_url : option string;
  keyword_text : option string;
  keyword_match_type : option string;
  api_url : option string;
  api_method : option string;
  api_headers : option (list (string * string));
  api_body : option string;
  expected_status_code : option Z;
  expected_response_time : option Q;
  json_path : option string;
  expected_json_value : option string
}.

End MonitorCreate.

Module Monitor.

Record t : Type := mk {
  id : string;
  name : string;
  url : option string;
  check_interval : Z;
  monitor_type : MonitorType;
  timeout : Z;
  status : MonitorStatus;
  last_checked : option datetime;
  response_time : option Q;
  created_at : datetime;
  uptime_percentage : Q;
  ssl_domain : option string;
  ssl_expiry_threshold : option Z;
  ssl_expires_at : option datetime;
  dns_hostname : option string;
  dns_server : option string;
  dns_record_type : option DNSRecordType;
  expected_dns_result : option string;
  port_host : option string;
  port_number : option Z;
  port_protocol : option PortProtocol;
  ping_host : option string;
  ping_count : option Z;
  ping_packet_size : option Z;
  ping_packet_loss : option Q;
  keyword_url : option string;
  keyword_text : option string;
  keyword_match_type : option string;
  keyword_found : option bool;
  api_url : option string;
  api_method : option string;
  api_headers : option (list (string * string));
  api_body : option string;
  expected_status_code : option Z;
  expected_response_time : option Q;
  json_path : option string;
  expected_json_value : option string;
  actual_status_code : option Z;
  json_validation_result : option bool
}.

(** The [Monitor] built from [monitor_data.dict()]: the fields of the request, a fresh
    identifier, the creation time, and the defaults of the model. *)
Definition of_create (d : MonitorCreate.t) (new_id : string) (now : datetime) : t :=
  {| id := new_id;
     name := MonitorCreate.name d;
     url := MonitorCreate.url d;
     check_interval := MonitorCreate.check_interval d;
     monitor_type := MonitorCreate.monitor_type d;
     timeout := MonitorCreate.timeout d;
     status := UNKNOWN;
     last_checked := None;
     response_time := None;
     created_at := now;
     uptime_percentage := 0%Q;
     ssl_domain := MonitorCreate.ssl_domain d;
     ssl_expiry_threshold := MonitorCreate.ssl_expiry_threshold d;
     ssl_expires_at := None;
     dns_hostname := MonitorCreate.dns_hostname d;
     dns_server := MonitorCreate.dns_server d;
     dns_record_type := MonitorCreate.dns_record_type d;
     expected_dns_result := MonitorCreate.expected_dns_result d;
     port_host := MonitorCreate.port_host d;
     port_number := MonitorCreate.port_number d;
     port_protocol := MonitorCreate.port_protocol d;
     ping_host := MonitorCreate.ping_host d;
     ping_count := MonitorCreate.ping_count d;
     ping_packet_size := MonitorCreate.ping_packet_size d;
     ping_packet_loss := None;
     keyword_url := MonitorCreate.keyword_url d;
     keyword_text := MonitorCreate.keyword_text d;
     keyword_match_type := MonitorCreate.keyword_match_type d;
     keyword_found := None;
     api_url := MonitorCreate.api_url d;
     api_method := MonitorCreate.api_method d;
     api_headers := MonitorCreate.api_headers d;
     api_body := MonitorCreate.api_body d;
     expected_status_code := MonitorCreate.expected_status_code d;
     expected_response_time := MonitorCreate.expected_response_time d;
     json_path := MonitorCreate.json_path d;
     expected_json_value := MonitorCreate.expected_json_value d;
     actual_status_code := None;
     json_validation_result := None |}.

(** The dictionary given to [$set]: a key that is absent is [None], a key
    that is present carries the value written. Only these keys are ever
    written by the server. *)
Record update : Type := mk_update {
  set_last_checked : option datetime;
  set_status : option MonitorStatus;
  set_response_time : option (option Q);
  set_uptime_percentage : option Q;
  set_ssl_expires_at : option datetime;
  set_ping_packet_loss : option Q;
  set_keyword_found : option bool;
  set_actual_status_code : option Z;
  set_json_validation_result : option bool
}.

Definition written {A : Type} (u : option A) (old : option A) : option A :=
  match u with
  | Some v => Some v
  | None => old
  end.

(** The document after [{"$set": u}]. *)
Definition apply_set (u : update) (m : t) : t :=
  {| id := id m;
     name := name m;
     url := url m;
     check_interval := check_interval m;
     monitor_type := monitor_type m;
     timeout := timeout m;
     status := match set_status u with Some s => s | None => status m end;
     last_checked := written (set_last_checked u) (last_checked m);
     response_time :=
       match set_response_time u with Some r => r | None => response_time m end;
     created_at := created_at m;
     uptime_percentage :=
       match set_uptime_percentage u with
       | Some p => p
       | None => uptime_percentage m
       end;
     ssl_domain := ssl_domain m;
     ssl_expiry_threshold := ssl_expiry_threshold m;
     ssl_expires_at := written (set_ssl_expires_at u) (ssl_expires_at m);
     dns_hostname := dns_hostname m;
     dns_server := dns_server m;
     dns_record_type := dns_record_type m;
     expected_dns_result := expected_dns_result m;
     port_host := port_host m;
     port_number := port_number m;
     port_protocol := port_protocol m;
     ping_host := ping_host m;
     ping_count := ping_count m;
     ping_packet_size := ping_packet_size m;
     ping_packet_loss := written (set_ping_packet_loss u) (ping_packet_loss m);
     keyword_url := keyword_url m;
     keyword_text := keyword_text m;
     keyword_match_type := keyword_match_type m;
     keyword_found := written (set_keyword_found u) (keyword_found m);
     api_url := api_url m;
     api_method := api_method m;
     api_headers := api_headers m;
     api_body := api_body m;
     expected_status_code := expected_status_code m;
     expected_response_time := expected_response_time m;
     json_path := json_path m;
     expected_json_value := expected_json_value m;
     actual_status_code := written (set_actual_status_code u) (actual_status_code m);
     json_validation_result :=
       written (set_json_validation_result u) (json_validation_result m) |}.

End Monitor.

Module UptimeLog.

(** The kind-specific entries a check adds to the log ([log_data]); an entry
    that is absent, or present with [None], is [None]. *)
Record data : Type := mk_data {
  d_ssl_expires_at : option datetime;
  d_ssl_days_until_expiry : option Z;
  d_dns_resolution_time : option Q;
  d_dns_result : option string;
  d_port_open : option bool;
  d_ping_packet_loss : option Q;
  d_ping_min_time : option Q;
  d_ping_max_time : option Q;
  d_ping_avg_time : option Q;
  d_keyword_found : option bool;
  d_keyword_match_count : option Z;
  d_api_status_code : option Z;
  d_api_response_size : option Z;
  d_json_validation_passed : option bool
}.

Definition no_data : data :=
  mk_data None None None None None None None None None None None None None None.

Record t : Type := mk {
  id : string;
  monitor_id : string;
  timestamp : datetime;
  status : MonitorStatus;
  response_time : option Q;
  error_message : option string;
  ssl_expires_at : option datetime;
  ssl_days_until_expiry : option Z;
  dns_resolution_time : option Q;
  dns_result : option string;
  port_open : option bool;
  ping_packet_loss : option Q;
  ping_min_time : option Q;
  ping_max_time : option Q;
  ping_avg_time : option Q;
  keyword_found : option bool;
  keyword_match_count : option Z;
  api_status_code : option Z;
  api_response_size : option Z;
  json_validation_passed : option bool;
  additional_data : option (list (string * string))
}.

(** The [UptimeLog] built from [log_dict], the four common entries updated
    with [log_data]; the identifier and the timestamp are the defaults drawn
    when the model is built. *)
Definition of_check (new_id : string) (now : datetime) (mid : string)
    (st : MonitorStatus) (rt : option Q) (err : option string) (d : data) : t :=
  {| id := new_id;
     monitor_id := mid;
     timestamp := now;
     status := st;
     response_time := rt;
     error_message := err;
     ssl_expires_at := d_ssl_expires_at d;
     ssl_days_until_expiry := d_ssl_days_until_expiry d;
     dns_resolution_time := d_dns_resolution_time d;
     dns_result := d_dns_result d;
     port_open := d_port_open d;
     ping_packet_loss := d_ping_packet_loss d;
     ping_min_time := d_ping_min_time d;
     ping_max_time := d_ping_max_time d;
     ping_avg_time := d_ping_avg_time d;
     keyword_found := d_keyword_found d;
     keyword_match_count := d_keyword_match_count d;
     api_status_code := d_api_status_code d;
     api_response_size := d_api_response_size d;
     json_validation_passed := d_json_validation_passed d;
     additional_data := None |}.

End UptimeLog.

Module AlertSettingsCreate.

Record t : Type := mk {
  monitor_id : string;
  email_address : string;
  alert_on_down : bool;
  alert_on_up : bool
}.

End AlertSettingsCreate.

Module AlertSettings.

Record t : Type := mk {
  id : string;
  monitor_id : string;
  email_enabled : bool;
  email_address : string;
  alert_on_down : bool;
  alert_on_up : bool;
  created_at : datetime
}.

(** The [AlertSettings] built from [alert_data.dict()]. *)
Definition of_create (d : AlertSettingsCreate.t) (new_id : string) (now : datetime) : t :=
  {| id := new_id;
     monitor_id := AlertSettingsCreate.monitor_id d;
     email_enabled := true;
     email_address := AlertSettingsCreate.email_address d;
     alert_on_down := AlertSettingsCreate.alert_on_down d;
     alert_on_up := AlertSettingsCreate.alert_on_up d;
     created_at := now |}.

End AlertSettings.

Module DashboardStats.

Record t : Type := mk {
  total_monitors : Z;
  monitors_up : Z;
  monitors_down : Z;
  overall_uptime : Q
}.

End DashboardStats.

(** ** What the outside world answers to a probe *)

(** The HTTP exchange of [check_url]: the final response status, or the
    exception the client raises. *)
Inductive http_outcome : Type :=
| HttpResponse (status_code : Z)
| HttpFails (e : exn).

(** Connection, handshake and reading of the peer certificate: the parsed
    [notAfter], or the exception raised on the way. *)
Inductive tls_outcome : Type :=
| TlsHandshake (notAfter : datetime)
| TlsFails (e : exn).

Inductive dns_outcome : Type :=
| DnsAnswers (answers : list string)
| DnsFails (e : exn).

Inductive socket_outcome : Type :=
| Connected
| SocketFails (e : exn).

(** The [ping] subprocess: its return code, what the two scans of its
    standard output find (the packet-loss percentage, and min/avg/max in
    milliseconds), and its standard error; or the exception raised while
    running it. *)
Inductive ping_outcome : Type :=
| PingExited (returncode : Z) (loss : option Q) (rtt : option (Q * Q * Q))
    (stderr : string)
| PingFails (e : exn).

Inductive keyword_outcome : Type :=
| KeywordResponse (status_code : Z) (content : string)
| KeywordFails (e : exn).

(** The API exchange, for the request [upper method] with
    [request_kwargs]: status, size of the body in bytes once encoded as
    UTF-8, and what [json.loads] makes of the body. *)
Inductive api_outcome : Type :=
| ApiResponse (status_code : Z) (response_size : Z) (decoded : result json)
| ApiFails (e : exn).

Definition Qlt_bool (a b : Q) : bool := negb (Qle_bool b a).

(** ** Probe primitives *)

Section Probes.

Context `{Runtime}.

Definition url_result : Type := MonitorStatus * option Q * option string.

Definition check_url_try (o : http_outcome) (elapsed : Q) : result url_result :=
  match o with
  | HttpFails e => Raise e
  | HttpResponse code =>
      if code =? 200 then Return (UP, Some elapsed, None)
      else Return (DOWN, Some elapsed, Some ("HTTP " ++ str_int code))
  end.

(** [check_url(url, timeout)]; [elapsed] is [time.time() - start_time] where
    the taken path reads it. *)
Definition check_url (url : option string) (timeout : Z)
    (o : http_outcome) (elapsed : Q) : result url_result :=
  try_except (check_url_try o elapsed)
    (fun e =>
       match cls e with
       | AsyncioTimeoutError => Return (DOWN, Some elapsed, Some "Timeout")
       | _ => Return (DOWN, Some elapsed, Some (msg e))
       end).

Definition ssl_result : Type :=
  MonitorStatus * option Q * option string * option datetime * option Z.

(** "Remove protocol if present": the host the connection is made to. *)
Definition tls_host (domain : string) : string :=
  hd "" (split ":" (hd "" (split "/"
    (replace "http://" "" (replace "https://" "" domain))))).

Definition none_has_no_replace : exn :=
  mkExn OtherException "'NoneType' object has no attribute 'replace'".

Definition check_ssl_certificate_try (domain : option string)
    (expiry_threshold : Z) (o : tls_outcome) (now : datetime) (elapsed : Q)
  : result ssl_result :=
  match domain, o with
  | None, _ => Raise none_has_no_replace
  | Some _, TlsFails e => Raise e
  | Some _, TlsHandshake expiry_date =>
      let days_until_expiry := timedelta_days (expiry_date - now) in
      if days_until_expiry <? 0 then
        Return (DOWN, Some elapsed,
                Some ("Certificate expired " ++ str_int (Z.abs days_until_expiry)
                      ++ " days ago"),
                Some expiry_date, Some days_until_expiry)
      else if days_until_expiry <=? expiry_threshold then
        Return (WARNING, Some elapsed,
                Some ("Certificate expires in " ++ str_int days_until_expiry
                      ++ " days"),
                Some expiry_date, Some days_until_expiry)
      else
        Return (UP, Some elapsed, None, Some expiry_date, Some days_until_expiry)
  end.

(** [check_ssl_certificate(domain, timeout, expiry_threshold)]; [o] is what
    connecting to [tls_host domain] on port 443 and reading the peer
    certificate gives, [now] is the [datetime.utcnow()] read after the
    handshake. *)
Definition check_ssl_certificate (domain : option string) (timeout : Z)
    (expiry_threshold : Z) (o : tls_outcome) (now : datetime) (elapsed : Q)
  : result ssl_result :=
  try_except (check_ssl_certificate_try domain expiry_threshold o now elapsed)
    (fun e =>
       match cls e with
       | SocketTimeout =>
           Return (DOWN, Some elapsed, Some "Connection timeout", None, None)
       | _ => Return (DOWN, Some elapsed, Some (msg e), None, None)
       end).

Definition dns_result : Type :=
  MonitorStatus * option Q * option string * option string.

Definition check_dns_resolution_try (expected_result : option string)
    (o : dns_outcome) (elapsed : Q) : result dns_result :=
  match o with
  | DnsFails e => Raise e
  | DnsAnswers answers =>
      let resolved_result := String.concat ", " answers in
      match expected_result with
      | Some expected =>
          if negb (expected =? "")%string then
            if contains expected resolved_result then
              Return (UP, Some elapsed, None, Some resolved_result)
            else
              Return (DOWN, Some elapsed,
                      Some ("Expected '" ++ expected ++ "' but got '"
                            ++ resolved_result ++ "'"),
                      Some resolved_result)
          else Return (UP, Some elapsed, None, Some resolved_result)
      | None => Return (UP, Some elapsed, None, Some resolved_result)
      end
  end.

Definition check_dns_resolution (hostname : option string) (dns_server : string)
    (record_type : string) (expected_result : option string) (timeout : Z)
    (o : dns_outcome) (elapsed : Q) : result dns_result :=
  try_except (check_dns_resolution_try expected_result o elapsed)
    (fun e =>
       match cls e with
       | NXDOMAIN => Return (DOWN, Some elapsed, Some "Domain does not exist", None)
       | DnsTimeout => Return (DOWN, Some elapsed, Some "DNS resolution timeout", None)
       | _ => Return (DOWN, Some elapsed, Some (msg e), None)
       end).

Definition port_result : Type := MonitorStatus * option Q * option string * bool.

(** The inner [try] of the TCP and of the UDP branch. *)
Definition connect_try (o : socket_outcome) (elapsed : Q) : result port_result :=
  try_except
    (match o with
     | Connected => Return (UP, Some elapsed, None, true)
     | SocketFails e => Raise e
     end)
    (fun e => Return (DOWN, Some elapsed, Some (msg e), false)).

Definition check_port_connectivity (host : option string) (port : option Z)
    (protocol : string) (timeout : Z) (o : socket_outcome) (elapsed : Q)
  : result port_result :=
  try_except
    (if (lower protocol =? "tcp")%string then connect_try o elapsed
     else if (lower protocol =? "udp")%string then connect_try o elapsed
     else Return (DOWN, Some elapsed,
                  Some ("Unsupported protocol: " ++ protocol), false))
    (fun e => Return (DOWN, Some elapsed, Some (msg e), false)).

Definition ping_result : Type :=
  MonitorStatus * option Q * option string
  * option Q * option Q * option Q * option Q.

(** [t/1000 if t else None]. *)
Definition ms_to_seconds (t : option Q) : option Q :=
  match t with
  | Some t => if Qeq_bool t 0 then None else Some (t / 1000)%Q
  | None => None
  end.

(** The command line of the subprocess. *)
Definition ping_command (host : string) (count packet_size timeout : Z)
  : list string :=
  ["ping"; "-c"; str_int count; "-s"; str_int packet_size;
   "-W"; str_int (timeout * 1000); host].

Definition check_ping_try (o : ping_outcome) : result ping_result :=
  match o with
  | PingFails e => Raise e
  | PingExited returncode loss rtt stderr =>
      if returncode =? 0 then
        let packet_loss := match loss with Some l => l | None => 0%Q end in
        let min_time := option_map (fun t => fst (fst t)) rtt in
        let avg_time := option_map (fun t => snd (fst t)) rtt in
        let max_time := option_map (fun t => snd t) rtt in
        if Qlt_bool packet_loss 100 then
          let status := if Qeq_bool packet_loss 0 then UP else WARNING in
          Return (status, ms_to_seconds avg_time, None, Some packet_loss,
                  ms_to_seconds min_time, ms_to_seconds max_time,
                  ms_to_seconds avg_time)
        else
          Return (DOWN, None, Some "100% packet loss", Some packet_loss,
                  None, None, None)
      else
        Return (DOWN, None, Some ("Ping failed: " ++ stderr),
                None, None, None, None)
  end.

Definition check_ping (host : option string) (count : Z) (packet_size : Z)
    (timeout : Z) (o : ping_outcome) : result ping_result :=
  try_except (check_ping_try o)
    (fun e => Return (DOWN, None, Some (msg e), None, None, None, None)).

Definition keyword_result : Type :=
  MonitorStatus * option Q * option string * bool * Z.

(** [None in content] and [re.findall(None, content)]. *)
Definition none_is_not_a_string : exn :=
  mkExn TypeError "'in <string>' requires string as left operand, not NoneType".

Definition none_is_not_a_pattern : exn :=
  mkExn TypeError "first argument must be string or compiled pattern".

(** The three match types: whether the keyword was found, and how often. *)
Definition keyword_match (keyword : option string) (match_type : string)
    (content : string) : result (bool * Z) :=
  if (match_type =? "contains")%string then
    match keyword with
    | Some k => Return (contains k content, Z.of_nat (count k content))
    | None => Raise none_is_not_a_string
    end
  else if (match_type =? "exact")%string then
    let found :=
      match keyword with
      | Some k => (k =? strip content)%string
      | None => false
      end in
    Return (found, if found then 1 else 0)
  else if (match_type =? "regex")%string then
    match keyword with
    | Some k =>
        n <- re_findall k content ;;
        Return ((0 <? n)%nat, Z.of_nat n)
    | None => Raise none_is_not_a_pattern
    end
  else Return (false, 0).

Definition check_keyword_try (keyword : option string) (match_type : string)
    (o : keyword_outcome) (elapsed : Q) : result keyword_result :=
  match o with
  | KeywordFails e => Raise e
  | KeywordResponse code content =>
      if code =? 200 then
        fm <- keyword_match keyword match_type content ;;
        let '(found, match_count) := fm in
        if found then Return (UP, Some elapsed, None, found, match_count)
        else
          Return (DOWN, Some elapsed,
                  Some ("Keyword '"
                        ++ match keyword with Some k => k | None => "None" end
                        ++ "' not found"),
                  found, match_count)
      else Return (DOWN, Some elapsed, Some ("HTTP " ++ str_int code), false, 0)
  end.

Definition check_keyword (url : option string) (keyword : option string)
    (match_type : string) (timeout : Z) (o : keyword_outcome) (elapsed : Q)
  : result keyword_result :=
  try_except (check_keyword_try keyword match_type o elapsed)
    (fun e =>
       match cls e with
       | AsyncioTimeoutError => Return (DOWN, Some elapsed, Some "Timeout", false, 0)
       | _ => Return (DOWN, Some elapsed, Some (msg e), false, 0)
       end).

Definition api_result : Type :=
  MonitorStatus * option Q * option string * Z * bool * option Z.

(** [for key in keys: value = value[key]]. *)
Fixpoint navigate (keys : list string) (value : json) : result json :=
  match keys with
  | [] => Return value
  | key :: rest =>
      v <- getitem value key ;;
      navigate rest v
  end.

(** The JSON validation block, entered when both [json_path] and
    [expected_json_value] are truthy. *)
Definition json_validation (json_path expected_json_value : string)
    (code size : Z) (decoded : result json) (elapsed : Q) : result api_result :=
  try_except
    (response_json <- decoded ;;
     value <- navigate (split "." json_path) response_json ;;
     if negb (str_json value =? expected_json_value)%string then
       Return (DOWN, Some elapsed,
               Some ("JSON validation failed: expected '" ++ expected_json_value
                     ++ "', got '" ++ str_json value ++ "'"),
               code, false, Some size)
     else Return (UP, Some elapsed, None, code, true, Some size))
    (fun e =>
       match cls e with
       | JSONDecodeError | KeyError | TypeError =>
           Return (DOWN, Some elapsed,
                   Some ("JSON validation error: " ++ msg e),
                   code, false, Some size)
       | _ => Raise e
       end).

(** The keyword arguments of [session.request]: the headers when there are
    some, the body for POST, PUT and PATCH. *)
Definition request_kwargs (method : string)
    (headers : option (list (string * string))) (body : option string)
  : option (list (string * string)) * option string :=
  (match headers with
   | Some (_ :: _) => headers
   | _ => None
   end,
   if truthy_str body
      && ((upper method =? "POST") || (upper method =? "PUT")
          || (upper method =? "PATCH"))%string
   then body else None).

Definition check_api_endpoint_try (expected_status_code : Z)
    (expected_response_time : option Q)
    (json_path expected_json_value : option string)
    (o : api_outcome) (elapsed : Q) : result api_result :=
  match o with
  | ApiFails e => Raise e
  | ApiResponse code size decoded =>
      if negb (code =? expected_status_code) then
        Return (DOWN, Some elapsed,
                Some ("Expected status " ++ str_int expected_status_code
                      ++ ", got " ++ str_int code),
                code, false, Some size)
      else if truthy_float expected_response_time
              && match expected_response_time with
                 | Some limit => Qlt_bool limit elapsed
                 | None => false
                 end then
        Return (WARNING, Some elapsed,
                Some ("Response time " ++ format_2f elapsed ++ "s exceeds limit "
                      ++ match expected_response_time with
                         | Some limit => str_float limit
                         | None => "None"
                         end ++ "s"),
                code, false, Some size)
      else
        match json_path, expected_json_value with
        | Some path, Some expected =>
            if negb (path =? "")%string && negb (expected =? "")%string then
              json_validation path expected code size decoded elapsed
            else Return (UP, Some elapsed, None, code, true, Some size)
        | _, _ => Return (UP, Some elapsed, None, code, true, Some size)
        end
  end.

Definition check_api_endpoint (url : option string) (method : string)
    (headers : option (list (string * string))) (body : option string)
    (expected_status_code : Z) (expected_response_time : option Q)
    (json_path expected_json_value : option string) (timeout : Z)
    (o : api_outcome) (elapsed : Q) : result api_result :=
  try_except
    (check_api_endpoint_try expected_status_code expected_response_time
       json_path expected_json_value o elapsed)
    (fun e =>
       match cls e with
       | AsyncioTimeoutError =>
           Return (DOWN, Some elapsed, Some "Timeout", 0, false, None)
       | _ => Return (DOWN, Some elapsed, Some (msg e), 0, false, None)
       end).

End Probes.

(** ** The store, the mail transport and the process state *)

Inductive EmailTemplate : Type :=
| DownAlert   (* subject "ALERT: <name> is DOWN" *)
| Recovery.   (* subject "RECOVERY: <name> is back UP" *)

Record Email : Type := mkEmail {
  template : EmailTemplate;
  to_address : string;
  about_name : string;
  about_url : string
}.

(** The three collections in the order the store returns their documents,
    the messages handed to the SMTP transport so far (oldest first), and the
    flag [monitoring_active]. *)
Record State : Type := mkState {
  monitors : list Monitor.t;
  uptime_logs : list UptimeLog.t;
  alert_settings : list AlertSettings.t;
  outbox : list Email;
  monitoring_active : bool
}.

Definition empty_state : State := mkState [] [] [] [] false.

Section Collection.

Context {A : Type}.

(** [find(filter).to_list(n)]. *)
Definition find_to_list (p : A -> bool) (n : nat) (docs : list A) : list A :=
  firstn n (filter p docs).

Definition find_one (p : A -> bool) (docs : list A) : option A := find p docs.

(** [update_one]: the first matching document is rewritten. *)
Fixpoint update_one (p : A -> bool) (f : A -> A) (docs : list A) : list A :=
  match docs with
  | [] => []
  | d :: rest => if p d then f d :: rest else d :: update_one p f rest
  end.

(** [delete_one]: the first matching document is removed; the second
    component is [deleted_count]. *)
Fixpoint delete_one (p : A -> bool) (docs : list A) : list A * Z :=
  match docs with
  | [] => ([], 0)
  | d :: rest =>
      if p d then (rest, 1)
      else let '(rest', n) := delete_one p rest in (d :: rest', n)
  end.

Definition delete_many (p : A -> bool) (docs : list A) : list A :=
  filter (fun d => negb (p d)) docs.

Definition insert_one (d : A) (docs : list A) : list A := docs ++ [d].

End Collection.

Definition has_id (monitor_id : string) (m : Monitor.t) : bool :=
  (Monitor.id m =? monitor_id)%string.

Definition log_of (monitor_id : string) (l : UptimeLog.t) : bool :=
  (UptimeLog.monitor_id l =? monitor_id)%string.

Definition alert_of (monitor_id : string) (a : AlertSettings.t) : bool :=
  (AlertSettings.monitor_id a =? monitor_id)%string.

(** ** Alert e-mails *)

(** The message [send_alert_email] builds and hands to the transport: the
    DOWN template when [status == MonitorStatus.DOWN], the recovery template
    in the [else] branch. *)
Definition send_alert_email (monitor_name monitor_url : string)
    (status : MonitorStatus) (email_address : string) : Email :=
  match status with
  | DOWN => mkEmail DownAlert email_address monitor_name monitor_url
  | _ => mkEmail Recovery email_address monitor_name monitor_url
  end.

Definition should_alert (status : MonitorStatus) (alert : AlertSettings.t) : bool :=
  (status_eqb status DOWN && AlertSettings.alert_on_down alert)
  || (status_eqb status UP && AlertSettings.alert_on_up alert)
  || (status_eqb status WARNING && AlertSettings.alert_on_down alert).

(** [a or b] on optional strings. *)
Definition or_else (a b : option string) : option string :=
  if truthy_str a then a else b.

Definition representative_url (m : Monitor.t) : string :=
  or_str
    (or_else (Monitor.url m)
       (or_else (Monitor.ssl_domain m)
          (or_else (Monitor.dns_hostname m)
             (or_else (Monitor.port_host m)
                (or_else (Monitor.ping_host m)
                   (or_else (Monitor.keyword_url m) (Monitor.api_url m)))))))
    "N/A".

(** The messages sent for one alert settings record once a status change has
    been detected. *)
Definition alert_one (m : Monitor.t) (status : MonitorStatus)
    (alert : AlertSettings.t) : list Email :=
  if should_alert status alert && AlertSettings.email_enabled alert then
    [send_alert_email (Monitor.name m) (representative_url m) status
       (AlertSettings.email_address alert)]
  else [].

(** "Check for status changes and send alerts". *)
Definition status_change_alerts (m : Monitor.t)
    (previous_status status : MonitorStatus) (st : State) : list Email :=
  if negb (status_eqb previous_status status)
     && negb (status_eqb previous_status UNKNOWN) then
    flat_map (alert_one m status)
      (find_to_list (alert_of (Monitor.id m)) 100 (alert_settings st))
  else [].

(** ** Uptime aggregation *)

Definition in_window (monitor_id : string) (since : datetime) (l : UptimeLog.t)
  : bool :=
  log_of monitor_id l && (since <=? UptimeLog.timestamp l).

Definition is_up (l : UptimeLog.t) : bool := status_eqb (UptimeLog.status l) UP.

Definition ratio_percent (up_count total_count : nat) : Q :=
  (inject_Z (Z.of_nat up_count) / inject_Z (Z.of_nat total_count) * 100)%Q.

Definition set_uptime (p : Q) : Monitor.update :=
  Monitor.mk_update None None None (Some p) None None None None None.

Definition update_uptime_percentage (monitor_id : string) (now : datetime)
    (st : State) : State :=
  let twenty_four_hours_ago := now - timedelta_hours 24 in
  let logs :=
    find_to_list (in_window monitor_id twenty_four_hours_ago) 1000
      (uptime_logs st) in
  match logs with
  | [] => st
  | _ :: _ =>
      let up_count := length (filter is_up logs) in
      let total_count := length logs in
      let uptime_percentage :=
        if (0 <? total_count)%nat then ratio_percent up_count total_count
        else 0%Q in
      mkState
        (update_one (has_id monitor_id)
           (Monitor.apply_set (set_uptime uptime_percentage)) (monitors st))
        (uptime_logs st) (alert_settings st) (outbox st) (monitoring_active st)
  end.

(** ** The check of one monitor *)

(** Everything one check reads from outside the store: the clock at the
    points where the code reads it, the answer to each kind of probe, the
    measured wall time, and the identifier drawn for the log record. *)
Record Environment : Type := mkEnv {
  utcnow_due : datetime;
  utcnow_check : datetime;
  http_exchange : http_outcome;
  tls_exchange : tls_outcome;
  utcnow_ssl : datetime;
  dns_exchange : dns_outcome;
  socket_exchange : socket_outcome;
  ping_run : ping_outcome;
  keyword_exchange : keyword_outcome;
  api_exchange : api_outcome;
  elapsed : Q;
  log_id : string;
  utcnow_log : datetime;
  utcnow_uptime : datetime
}.

(** The local variables a check leaves: [status], [response_time],
    [error_msg], [update_data] and [log_data]. *)
Record Checked : Type := mkChecked {
  c_status : MonitorStatus;
  c_response_time : option Q;
  c_error_msg : option string;
  c_update_data : Monitor.update;
  c_log_data : UptimeLog.data
}.

Definition only_last_checked (now : datetime) : Monitor.update :=
  Monitor.mk_update (Some now) None None None None None None None None.

Section Pipeline.

Context `{Runtime}.

(** The [try] block shared by the background cycle and the manual check:
    the probe selected by [monitor_type], and the kind-specific entries of
    [update_data] and [log_data]. *)
Definition dispatch (m : Monitor.t) (env : Environment) : result Checked :=
  let now := utcnow_check env in
  match Monitor.monitor_type m with
  | HTTP | HTTPS =>
      r <- check_url (Monitor.url m) (Monitor.timeout m)
             (http_exchange env) (elapsed env) ;;
      let '(status, response_time, error_msg) := r in
      Return (mkChecked status response_time error_msg
                (only_last_checked now) UptimeLog.no_data)
  | SSL =>
      r <- check_ssl_certificate (Monitor.ssl_domain m) (Monitor.timeout m)
             (or_int (Monitor.ssl_expiry_threshold m) 30)
             (tls_exchange env) (utcnow_ssl env) (elapsed env) ;;
      let '(status, response_time, error_msg, expiry_date, days_until_expiry) := r in
      match expiry_date with
      | Some _ =>
          Return (mkChecked status response_time error_msg
                    (Monitor.mk_update (Some now) None None None expiry_date
                       None None None None)
                    (UptimeLog.mk_data expiry_date days_until_expiry None None
                       None None None None None None None None None None))
      | None =>
          Return (mkChecked status response_time error_msg
                    (only_last_checked now) UptimeLog.no_data)
      end
  | DNS =>
      r <- check_dns_resolution (Monitor.dns_hostname m)
             (or_str (Monitor.dns_server m) "8.8.8.8")
             (match Monitor.dns_record_type m with
              | Some t => DNSRecordType_value t
              | None => "A"
              end)
             (Monitor.expected_dns_result m) (Monitor.timeout m)
             (dns_exchange env) (elapsed env) ;;
      let '(status, response_time, error_msg, resolved) := r in
      Return (mkChecked status response_time error_msg
                (only_last_checked now)
                (UptimeLog.mk_data None None response_time resolved None None
                   None None None None None None None None))
  | PORT =>
      r <- check_port_connectivity (Monitor.port_host m) (Monitor.port_number m)
             (match Monitor.port_protocol m with
              | Some p => PortProtocol_value p
              | None => "tcp"
              end)
             (Monitor.timeout m) (socket_exchange env) (elapsed env) ;;
      let '(status, response_time, error_msg, port_open) := r in
      Return (mkChecked status response_time error_msg
                (only_last_checked now)
                (UptimeLog.mk_data None None None None (Some port_open) None
                   None None None None None None None None))
  | PING =>
      r <- check_ping (Monitor.ping_host m) (or_int (Monitor.ping_count m) 4)
             (or_int (Monitor.ping_packet_size m) 32) (Monitor.timeout m)
             (ping_run env) ;;
      let '(status, avg_time, error_msg, packet_loss, min_time, max_time,
            avg_time_detailed) := r in
      match packet_loss with
      | Some _ =>
          Return (mkChecked status avg_time error_msg
                    (Monitor.mk_update (Some now) None None None None
                       packet_loss None None None)
                    (UptimeLog.mk_data None None None None None packet_loss
                       min_time max_time avg_time_detailed None None None None
                       None))
      | None =>
          Return (mkChecked status avg_time error_msg
                    (only_last_checked now) UptimeLog.no_data)
      end
  | KEYWORD =>
      r <- check_keyword (Monitor.keyword_url m) (Monitor.keyword_text m)
             (or_str (Monitor.keyword_match_type m) "contains")
             (Monitor.timeout m) (keyword_exchange env) (elapsed env) ;;
      let '(status, response_time, error_msg, found, match_count) := r in
      Return (mkChecked status response_time error_msg
                (Monitor.mk_update (Some now) None None None None None
                   (Some found) None None)
                (UptimeLog.mk_data None None None None None None None None None
                   (Some found) (Some match_count) None None None))
  | API =>
      r <- check_api_endpoint (Monitor.api_url m)
             (or_str (Monitor.api_method m) "GET") (Monitor.api_headers m)
             (Monitor.api_body m) (or_int (Monitor.expected_status_code m) 200)
             (Monitor.expected_response_time m) (Monitor.json_path m)
             (Monitor.expected_json_value m) (Monitor.timeout m)
             (api_exchange env) (elapsed env) ;;
      let '(status, response_time, error_msg, status_code, json_valid,
            response_size) := r in
      Return (mkChecked status response_time error_msg
                (Monitor.mk_update (Some now) None None None None None None
                   (Some status_code) (Some json_valid))
                (UptimeLog.mk_data None None None None None None None None None
                   None None (Some status_code) response_size (Some json_valid)))
  end.

(** The [try] block with its [except Exception] clause: a probe that raises
    leaves [status = DOWN], the message of the exception, and the initial
    [response_time], [update_data] and [log_data]. *)
Definition perform_check (m : Monitor.t) (env : Environment) : Checked :=
  match dispatch m env with
  | Return c => c
  | Raise e =>
      mkChecked DOWN None (Some (msg e))
        (only_last_checked (utcnow_check env)) UptimeLog.no_data
  end.

(** [update_data.update({"status": ..., "response_time": ...})]. *)
Definition with_common_fields (c : Checked) : Monitor.update :=
  let u := c_update_data c in
  Monitor.mk_update (Monitor.set_last_checked u) (Some (c_status c))
    (Some (c_response_time c)) (Monitor.set_uptime_percentage u)
    (Monitor.set_ssl_expires_at u) (Monitor.set_ping_packet_loss u)
    (Monitor.set_keyword_found u) (Monitor.set_actual_status_code u)
    (Monitor.set_json_validation_result u).

(** The monitor update and the log insertion, common to both callers. *)
Definition record_check (monitor_id : string) (c : Checked) (env : Environment)
    (st : State) : State :=
  mkState
    (update_one (has_id monitor_id) (Monitor.apply_set (with_common_fields c))
       (monitors st))
    (insert_one
       (UptimeLog.of_check (log_id env) (utcnow_log env) monitor_id
          (c_status c) (c_response_time c) (c_error_msg c) (c_log_data c))
       (uptime_logs st))
    (alert_settings st) (outbox st) (monitoring_active st).

Definition send_all (emails : list Email) (st : State) : State :=
  mkState (monitors st) (uptime_logs st) (alert_settings st)
    (outbox st ++ emails) (monitoring_active st).

(** The body of the [for] loop of [monitor_check_cycle] for a monitor that is
    due; [monitor] is the document read when the cycle started. *)
Definition check_due_monitor (monitor : Monitor.t) (env : Environment)
    (st : State) : State :=
  let previous_status := Monitor.status monitor in
  let c := perform_check monitor env in
  let st1 := record_check (Monitor.id monitor) c env st in
  let st2 := update_uptime_percentage (Monitor.id monitor) (utcnow_uptime env) st1 in
  send_all (status_change_alerts monitor previous_status (c_status c) st2) st2.

(** "Check if it's time to check this monitor": a monitor never checked is
    due; otherwise [timedelta(seconds=check_interval)] is built, which
    raises for an interval beyond the range of a [timedelta]. *)
Definition is_due (monitor : Monitor.t) (now : datetime) : result bool :=
  match Monitor.last_checked monitor with
  | None => Return true
  | Some last =>
      interval <- timedelta_new (timedelta_seconds (Monitor.check_interval monitor)) ;;
      Return (interval <=? now - last)
  end.

(** The body of the [for] loop for one monitor of the snapshot. The due
    test stands outside the inner [try]: what it raises leaves the loop. *)
Definition cycle_step (env : nat -> Environment) (st : State)
    (im : nat * Monitor.t) : result State :=
  let '(i, monitor) := im in
  due <- is_due monitor (utcnow_due (env i)) ;;
  Return (if due then check_due_monitor monitor (env i) st else st).

(** The [for] loop under the outer [try]: the monitors are visited in order
    until one raises; what was written before stays written. *)
Fixpoint visit_monitors (env : nat -> Environment)
    (ims : list (nat * Monitor.t)) (st : State) : State * option exn :=
  match ims with
  | [] => (st, None)
  | im :: rest =>
      match cycle_step env st im with
      | Return st' => visit_monitors env rest st'
      | Raise e => (st, Some e)
      end
  end.

(** One iteration of the [while monitoring_active] loop: the monitors are
    read once (at most 1000), then visited in order; [env i] is what the
    outside world answers while the [i]-th of them is visited. An exception
    that leaves the [for] loop is logged by the outer [except] and the pass
    is over. *)
Definition monitor_check_cycle (env : nat -> Environment) (st : State) : State :=
  if monitoring_active st then
    let snapshot := find_to_list (fun _ => true) 1000 (monitors st) in
    fst (visit_monitors env (combine (seq 0 (length snapshot)) snapshot) st)
  else st.

End Pipeline.

(** ** The management API *)

(** What a route hands back: its value, or the [HTTPException] it raises. *)
Inductive response (A : Type) : Type :=
| Ok (body : A)
| HTTPException (status_code : Z) (detail : string).

Arguments Ok {A} body.
Arguments HTTPException {A} status_code detail.

Record CheckReport : Type := mkReport {
  r_status : MonitorStatus;
  r_response_time : option Q;
  r_error : option string;
  r_additional_data : UptimeLog.data
}.

(** "Validate required fields based on monitor type": the detail of the 400
    response, if any. *)
Definition missing_field (d : MonitorCreate.t) : option string :=
  match MonitorCreate.monitor_type d with
  | HTTP | HTTPS =>
      if negb (truthy_str (MonitorCreate.url d))
      then Some "URL is required for HTTP/HTTPS monitors" else None
  | SSL =>
      if negb (truthy_str (MonitorCreate.ssl_domain d))
      then Some "SSL domain is required for SSL monitors" else None
  | DNS =>
      if negb (truthy_str (MonitorCreate.dns_hostname d))
      then Some "DNS hostname is required for DNS monitors" else None
  | PORT =>
      if negb (truthy_str (MonitorCreate.port_host d))
         || negb (truthy_int (MonitorCreate.port_number d))
      then Some "Port host and number are required for port monitors" else None
  | PING =>
      if negb (truthy_str (MonitorCreate.ping_host d))
      then Some "Ping host is required for ping monitors" else None
  | KEYWORD =>
      if negb (truthy_str (MonitorCreate.keyword_url d))
         || negb (truthy_str (MonitorCreate.keyword_text d))
      then Some "Keyword URL and text are required for keyword monitors" else None
  | API =>
      if negb (truthy_str (MonitorCreate.api_url d))
      then Some "API URL is required for API monitors" else None
  end.

Definition start_monitoring_service (st : State) : State :=
  mkState (monitors st) (uptime_logs st) (alert_settings st) (outbox st) true.

(** POST /api/monitors *)
Definition create_monitor (monitor_data : MonitorCreate.t) (new_id : string)
    (now : datetime) (st : State) : State * response Monitor.t :=
  match missing_field monitor_data with
  | Some detail => (st, HTTPException 400 detail)
  | None =>
      let monitor := Monitor.of_create monitor_data new_id now in
      (start_monitoring_service
         (mkState (insert_one monitor (monitors st)) (uptime_logs st)
            (alert_settings st) (outbox st) (monitoring_active st)),
       Ok monitor)
  end.

(** GET /api/monitors *)
Definition get_monitors (st : State) : list Monitor.t :=
  find_to_list (fun _ => true) 1000 (monitors st).

(** GET /api/monitors/{monitor_id} *)
Definition get_monitor (monitor_id : string) (st : State) : response Monitor.t :=
  match find_one (has_id monitor_id) (monitors st) with
  | Some monitor => Ok monitor
  | None => HTTPException 404 "Monitor not found"
  end.

(** DELETE /api/monitors/{monitor_id} *)
Definition delete_monitor (monitor_id : string) (st : State)
  : State * response string :=
  let '(remaining, deleted_count) := delete_one (has_id monitor_id) (monitors st) in
  if deleted_count =? 0 then (st, HTTPException 404 "Monitor not found")
  else
    (mkState remaining (delete_many (log_of monitor_id) (uptime_logs st))
       (alert_settings st) (outbox st) (monitoring_active st),
     Ok "Monitor deleted successfully").

Section Routes.

Context `{Runtime}.

(** POST /api/monitors/{monitor_id}/check *)
Definition manual_check_monitor (monitor_id : string) (env : Environment)
    (st : State) : State * response CheckReport :=
  match find_one (has_id monitor_id) (monitors st) with
  | None => (st, HTTPException 404 "Monitor not found")
  | Some monitor_obj =>
      let c := perform_check monitor_obj env in
      (record_check monitor_id c env st,
       Ok (mkReport (c_status c) (c_response_time c) (c_error_msg c)
             (c_log_data c)))
  end.

End Routes.

Definition count_status (s : MonitorStatus) (docs : list Monitor.t) : Z :=
  Z.of_nat (length (filter (fun m => status_eqb (Monitor.status m) s) docs)).

Definition sum_uptime (docs : list Monitor.t) : Q :=
  fold_left (fun acc m => (acc + Monitor.uptime_percentage m)%Q) docs 0%Q.

(** GET /api/dashboard/stats *)
Definition get_dashboard_stats (st : State) : DashboardStats.t :=
  let monitors := find_to_list (fun _ => true) 1000 (monitors st) in
  let total_monitors := Z.of_nat (length monitors) in
  let monitors_up := count_status UP monitors in
  let monitors_down := count_status DOWN monitors in
  let overall_uptime :=
    if 0 <? total_monitors
    then (sum_uptime monitors / inject_Z total_monitors)%Q
    else 0%Q in
  DashboardStats.mk total_monitors monitors_up monitors_down overall_uptime.

(** POST /api/alerts *)
Definition create_alert_settings (alert_data : AlertSettingsCreate.t)
    (new_id : string) (now : datetime) (st : State)
  : State * response AlertSettings.t :=
  match find_one (has_id (AlertSettingsCreate.monitor_id alert_data)) (monitors st) with
  | None => (st, HTTPException 404 "Monitor not found")
  | Some _ =>
      match find_one (alert_of (AlertSettingsCreate.monitor_id alert_data))
              (alert_settings st) with
      | Some _ =>
          (st, HTTPException 400 "Alert settings already exist for this monitor")
      | None =>
          let alert := AlertSettings.of_create alert_data new_id now in
          (mkState (monitors st) (uptime_logs st)
             (insert_one alert (alert_settings st)) (outbox st)
             (monitoring_active st),
           Ok alert)
      end
  end.

(** GET /api/alerts/{monitor_id} *)
Definition get_alert_settings (monitor_id : string) (st : State)
  : response AlertSettings.t :=
  match find_one (alert_of monitor_id) (alert_settings st) with
  | Some alert => Ok alert
  | None => HTTPException 404 "Alert settings not found"
  end.

(** DELETE /api/alerts/{monitor_id} *)
Definition delete_alert_settings (monitor_id : string) (st : State)
  : State * response string :=
  let '(remaining, deleted_count) :=
    delete_one (alert_of monitor_id) (alert_settings st) in
  if deleted_count =? 0 then (st, HTTPException 404 "Alert settings not found")
  else
    (mkState (monitors st) (uptime_logs st) remaining (outbox st)
       (monitoring_active st),
     Ok "Alert settings deleted successfully").

(** ** Sequences of requests *)

(** The requests that can change the state, each with what it reads from
    outside, and one pass of the background cycle. *)
Inductive request : Type :=
| PostMonitor (monitor_data : MonitorCreate.t) (new_id : string) (now : datetime)
| DeleteMonitor (monitor_id : string)
| PostCheck (monitor_id : string) (env : Environment)
| PostAlert (alert_data : AlertSettingsCreate.t) (new_id : string) (now : datetime)
| DeleteAlert (monitor_id : string)
| BackgroundCycle (env : nat -> Environment).

Section Serving.

Context `{Runtime}.

Definition serve (st : State) (r : request) : State :=
  match r with
  | PostMonitor d new_id now => fst (create_monitor d new_id now st)
  | DeleteMonitor monitor_id => fst (delete_monitor monitor_id st)
  | PostCheck monitor_id env => fst (manual_check_monitor monitor_id env st)
  | PostAlert d new_id now => fst (create_alert_settings d new_id now st)
  | DeleteAlert monitor_id => fst (delete_alert_settings monitor_id st)
  | BackgroundCycle env => monitor_check_cycle env st
  end.

Definition serve_all (st : State) (rs : list request) : State :=
  fold_left serve rs st.

End Serving.

(** ** Projections of probe results and statements used by the theorems *)

Definition api_status (r : result api_result) : option MonitorStatus :=
  match r with
  | Return (status, _, _, _, _, _) => Some status
  | Raise _ => None
  end.

(** A dot-separated path followed as successive object lookups: each key is
    looked up in a JSON object, and the value found is where the next key
    is looked up. *)
Inductive object_lookups : list string -> json -> json -> Prop :=
| lookups_done : forall v, object_lookups [] v v
| lookups_step : forall key rest entries v terminal,
    dict_get key entries = Some v ->
    object_lookups rest v terminal ->
    object_lookups (key :: rest) (JDict entries) terminal.

Definition whole_days (n : Z) : Z := timedelta_hours (24 * n).

(** An instance of the abstract library functions for evaluating the model
    on examples whose results do not go through them; [repr] is the one of
    a string without quotes or escapes. *)
Definition sample_runtime : Runtime :=
  {| str_float := fun _ => "<float>";
     format_2f := fun _ => "<float>";
     repr_json := fun v => match v with
                           | JStr s => "'" ++ s ++ "'"
                           | _ => "<repr>"
                           end;
     strip := fun s => s;
     re_findall := fun _ _ => Return 0%nat |}.

(** ** Sorted queries: history and raw logs *)

Section Sorting.

Context {A : Type} (key : A -> Z).

(** [sort(field, direction)] of the store, as an insertion sort on the key
    times the direction (1 ascending, -1 descending); documents with equal
    keys keep the order of the collection. *)
Fixpoint insert_sorted (direction : Z) (x : A) (sorted : list A) : list A :=
  match sorted with
  | [] => [x]
  | y :: rest =>
      if direction * key x <? direction * key y then x :: sorted
      else y :: insert_sorted direction x rest
  end.

Definition sort_by (direction : Z) (docs : list A) : list A :=
  fold_left (fun sorted x => insert_sorted direction x sorted) docs [].

End Sorting.

(** [timestamp.replace(minute=0, second=0, microsecond=0)]. *)
Definition hour_key (timestamp : datetime) : datetime :=
  timestamp - timestamp mod 3600000000.

(** One entry of [hourly_data] (its key is the hour). *)
Record HourBucket : Type := mkBucket {
  up_count : Z;
  down_count : Z;
  total_response_time : Q;
  response_count : Z
}.

Definition empty_bucket : HourBucket := mkBucket 0 0 0 0.

Record HistoryPoint : Type := mkPoint {
  h_timestamp : datetime;
  h_uptime_percentage : Q;
  h_avg_response_time : Q;
  h_total_checks : Z
}.

(** The body of the loop over the logs, on the bucket of the log's hour. *)
Definition count_log (log : UptimeLog.t) (b : HourBucket) : HourBucket :=
  if status_eqb (UptimeLog.status log) UP then
    if truthy_float (UptimeLog.response_time log) then
      mkBucket (up_count b + 1) (down_count b)
        (total_response_time b
         + match UptimeLog.response_time log with Some t => t | None => 0 end)
        (response_count b + 1)
    else
      mkBucket (up_count b + 1) (down_count b) (total_response_time b)
        (response_count b)
  else
    mkBucket (up_count b) (down_count b + 1) (total_response_time b)
      (response_count b).

(** [hourly_data] is a dictionary in insertion order: an hour that is new
    gets a fresh bucket at the end. *)
Fixpoint bucket_update (key : datetime) (f : HourBucket -> HourBucket)
    (data : list (datetime * HourBucket)) : list (datetime * HourBucket) :=
  match data with
  | [] => [(key, f empty_bucket)]
  | (k, b) :: rest =>
      if k =? key then (k, f b) :: rest
      else (k, b) :: bucket_update key f rest
  end.

Definition add_log (data : list (datetime * HourBucket)) (log : UptimeLog.t)
  : list (datetime * HourBucket) :=
  bucket_update (hour_key (UptimeLog.timestamp log)) (count_log log) data.

Definition history_point (entry : datetime * HourBucket) : HistoryPoint :=
  let '(hour, data) := entry in
  let total_checks := up_count data + down_count data in
  mkPoint hour
    (if 0 <? total_checks
     then (inject_Z (up_count data) / inject_Z total_checks * 100)%Q
     else 0%Q)
    ((if 0 <? response_count data
      then (total_response_time data / inject_Z (response_count data))%Q
      else 0%Q) * 1000)%Q
    total_checks.

(** [datetime.utcnow() - timedelta(hours=hours)]; [hours] is the query
    parameter, any integer. *)
Definition time_ago (hours : Z) (now : datetime) : result datetime :=
  td <- timedelta_new (timedelta_hours hours) ;;
  datetime_sub now td.

(** The logs GET /api/monitors/{monitor_id}/history reads: those of the
    monitor not older than [since], oldest first, at most 1000. *)
Definition history_logs (monitor_id : string) (since : datetime) (st : State)
  : list UptimeLog.t :=
  firstn 1000
    (sort_by UptimeLog.timestamp 1
       (filter (in_window monitor_id since) (uptime_logs st))).

(** "Group data by hour" and "Calculate averages and percentages": one
    point per hour, in the order of the hours. *)
Definition hourly_history (logs : list UptimeLog.t) : list HistoryPoint :=
  let hourly_data := fold_left add_log logs [] in
  map history_point (sort_by fst 1 hourly_data).

(** The body of the [try] block of the history route. *)
Definition get_monitor_history_try (monitor_id : string) (hours : Z)
    (now : datetime) (st : State) : result (list HistoryPoint) :=
  since <- time_ago hours now ;;
  Return (hourly_history (history_logs monitor_id since st)).

(** GET /api/monitors/{monitor_id}/history: any exception is turned into
    a 500 response. *)
Definition get_monitor_history (monitor_id : string) (hours : Z)
    (now : datetime) (st : State) : response (list HistoryPoint) :=
  match get_monitor_history_try monitor_id hours now st with
  | Return history => Ok history
  | Raise _ => HTTPException 500 "Failed to get monitor history"
  end.

(** GET /api/monitors/{monitor_id}/logs: the route has no handler, an
    exception leaves it. *)
Definition get_monitor_logs (monitor_id : string) (hours : Z)
    (now : datetime) (st : State) : result (list UptimeLog.t) :=
  since <- time_ago hours now ;;
  Return (firstn 1000
            (sort_by UptimeLog.timestamp (-1)
               (filter (in_window monitor_id since) (uptime_logs st)))).

(** [stop_monitoring_service]: the flag is cleared (the task is cancelled). *)
Definition stop_monitoring_service (st : State) : State :=
  mkState (monitors st) (uptime_logs st) (alert_settings st) (outbox st) false.

(** ** Example data and predicates used to state the properties *)

(** A request body for an HTTPS monitor, used in examples. *)
Definition https_monitor (name url : string) : MonitorCreate.t :=
  MonitorCreate.mk name (Some url) 60 HTTPS 5
    None (Some 30) None (Some "8.8.8.8") (Some REC_A) None
    None None (Some TCP) None (Some 4) (Some 32)
    None None (Some "contains")
    None (Some "GET") None None (Some 200) None None None.

Definition alert_for_m1 : AlertSettingsCreate.t :=
  AlertSettingsCreate.mk "m1" "a@b" true true.

(** A store built through the API: one monitor with alert settings. *)
Definition one_monitor_with_alerts : State :=
  @serve_all sample_runtime empty_state
    [PostMonitor (https_monitor "Home" "https://example.com") "m1" 0;
     PostAlert alert_for_m1 "a1" 1].

(** A store reached through the API in which the monitor "m1" is gone but
    its alert settings remain. *)
Definition orphaned_alerts : State :=
  @serve_all sample_runtime one_monitor_with_alerts [DeleteMonitor "m1"].

(** At most one alert settings record per monitor identifier. *)
Definition unique_alerts (st : State) : Prop :=
  forall monitor_id,
    (length (filter (alert_of monitor_id) (alert_settings st)) <= 1)%nat.

(** The keys a check puts in [update_data]: always [last_checked], never
    [status], [response_time] or [uptime_percentage] before the common
    fields are added. *)
Definition check_keys (now : datetime) (u : Monitor.update) : Prop :=
  Monitor.set_last_checked u = Some now
  /\ Monitor.set_status u = None
  /\ Monitor.set_response_time u = None
  /\ Monitor.set_uptime_percentage u = None.

(** What the outside world answers during one check, for examples: the HTTP
    status, the certificate expiry, the clock (in seconds) and the log
    identifier vary; nothing else answers. *)
Definition answers (code : Z) (notAfter : datetime) (seconds : Z)
    (log : string) : Environment :=
  let now := timedelta_seconds seconds in
  let down := mkExn OtherException "unreachable" in
  mkEnv now now (HttpResponse code) (TlsHandshake notAfter) now
    (DnsFails down) (SocketFails down) (PingFails down) (KeywordFails down)
    (ApiFails down) (12 # 100) log now now.

(** The monitor "m1" after a first manual check that found it up. *)
Definition checked_once : State :=
  @serve_all sample_runtime one_monitor_with_alerts
    [PostCheck "m1" (answers 200 0 100 "l1")].

(** One HTTPS monitor "m1" and a single log, up, ten seconds old. *)
Definition one_up_log : State :=
  mkState (monitors one_monitor_with_alerts)
    [UptimeLog.of_check "l1" (timedelta_seconds 90) "m1" UP (Some (12 # 100))
       None UptimeLog.no_data]
    [] [] true.

(** A day with 1001 checks of "m1": a thousand logs with status down,
    followed by one with status up, all within the last 24 hours. *)
Definition busy_day : State :=
  mkState (monitors one_monitor_with_alerts)
    (repeat (UptimeLog.of_check "l" (timedelta_seconds 90) "m1" DOWN None
               (Some "HTTP 500") UptimeLog.no_data) 1000
     ++ [UptimeLog.of_check "l" (timedelta_seconds 95) "m1" UP (Some (12 # 100))
           None UptimeLog.no_data])
    [] [] true.

Definition monitor_in (status : MonitorStatus) (uptime : Q) : Monitor.t :=
  Monitor.apply_set
    (Monitor.mk_update (Some 0) (Some status) (Some None) (Some uptime)
       None None None None None)
    (Monitor.of_create (https_monitor "Home" "https://example.com") "m" 0).

Definition small_fleet : State :=
  mkState [monitor_in UP 100; monitor_in WARNING 50] [] [] [] true.

(** 1001 monitors: a thousand that are down with 0 % uptime, then one that
    is up with 100 %. *)
Definition crowded : State :=
  mkState (repeat (monitor_in DOWN 0) 1000 ++ [monitor_in UP 100]) [] [] [] true.

(** A request body for a certificate monitor, and alert settings that ask
    for DOWN alerts only. *)
Definition cert_monitor : MonitorCreate.t :=
  MonitorCreate.mk "Cert" None 60 SSL 10
    (Some "example.com") (Some 30) None (Some "8.8.8.8") (Some REC_A) None
    None None (Some TCP) None (Some 4) (Some 32)
    None None (Some "contains")
    None (Some "GET") None None (Some 200) None None None.

Definition down_alerts_only : AlertSettingsCreate.t :=
  AlertSettingsCreate.mk "m1" "a@b" true false.

(** The monitor is created, alert settings are added, and a first background
    cycle finds a certificate that is valid for 199 more days. *)
Definition cert_up : State :=
  @serve_all sample_runtime empty_state
    [PostMonitor cert_monitor "m1" 0;
     PostAlert down_alerts_only "a1" 1;
     BackgroundCycle (fun _ => answers 200 (whole_days 200) 100 "l1")].

(** A second cycle, 100 seconds later, meets a certificate with 10 days
    left. *)
Definition cert_expiring : State :=
  @monitor_check_cycle sample_runtime
    (fun _ => answers 200 (timedelta_seconds 200 + whole_days 10) 200 "l2")
    cert_up.

(** A request body for an HTTPS monitor whose check interval, 10^15
    seconds, is more than a [timedelta] holds. *)
Definition unbounded_interval_monitor : MonitorCreate.t :=
  MonitorCreate.mk "Rare" (Some "https://example.org") 1000000000000000 HTTPS 5
    None (Some 30) None (Some "8.8.8.8") (Some REC_A) None
    None None (Some TCP) None (Some 4) (Some 32)
    None None (Some "contains")
    None (Some "GET") None None (Some 200) None None None.

(** Two monitors, the first with that interval, after a first pass that
    checked both. *)
Definition stuck_fleet : State :=
  @serve_all sample_runtime empty_state
    [PostMonitor unbounded_interval_monitor "m1" 0;
     PostMonitor (https_monitor "Home" "https://example.com") "m2" 1;
     BackgroundCycle (fun _ => answers 200 (whole_days 200) 100 "l")].

(** Request bodies for a ping, a keyword and an API monitor. *)
Definition ping_monitor : MonitorCreate.t :=
  MonitorCreate.mk "Ping" None 60 PING 5
    None (Some 30) None (Some "8.8.8.8") (Some REC_A) None
    None None (Some TCP) (Some "example.com") (Some 4) (Some 32)
    None None (Some "contains")
    None (Some "GET") None None (Some 200) None None None.

Definition keyword_monitor : MonitorCreate.t :=
  MonitorCreate.mk "Words" None 60 KEYWORD 5
    None (Some 30) None (Some "8.8.8.8") (Some REC_A) None
    None None (Some TCP) None (Some 4) (Some 32)
    (Some "https://example.com") (Some "hello") (Some "contains")
    None (Some "GET") None None (Some 200) None None None.

Definition api_monitor : MonitorCreate.t :=
  MonitorCreate.mk "Api" None 60 API 5
    None (Some 30) None (Some "8.8.8.8") (Some REC_A) None
    None None (Some TCP) None (Some 4) (Some 32)
    None None (Some "contains")
    (Some "https://example.com/api") (Some "GET") None None (Some 200) None
    (Some "status") (Some "error").

(** One monitor of each of these kinds and a certificate monitor, none
    checked yet. *)
Definition one_of_each : State :=
  @serve_all sample_runtime empty_state
    [PostMonitor cert_monitor "ssl" 0;
     PostMonitor ping_monitor "ping" 1;
     PostMonitor keyword_monitor "words" 2;
     PostMonitor api_monitor "api" 3].

(** An outside world in which every kind of probe gets an answer: a
    certificate valid until day 200, a ping with 25 % loss, a page that
    says hello twice, and an API whose status is "ok". *)
Definition replies (seconds : Z) (log : string) : Environment :=
  let now := timedelta_seconds seconds in
  mkEnv now now (HttpResponse 200) (TlsHandshake (whole_days 200)) now
    (DnsAnswers ["93.184.216.34"]) Connected
    (PingExited 0 (Some 25%Q) (Some (10%Q, 20%Q, 30%Q)) "")
    (KeywordResponse 200 "hello world, hello")
    (ApiResponse 200 15 (Return (JDict [("status", JStr "ok")])))
    (12 # 100) log now now.

(** The fields of a monitor that only checks of one kind write. *)
Definition kind_fields (m : Monitor.t)
  : option datetime * option Q * option bool * option Z * option bool :=
  (Monitor.ssl_expires_at m, Monitor.ping_packet_loss m,
   Monitor.keyword_found m, Monitor.actual_status_code m,
   Monitor.json_validation_result m).

(** [sub] occurs in [s]. *)
Definition is_substring (sub s : string) : Prop :=
  exists pre post, s = pre ++ sub ++ post.

(** An optional text that is given and not empty. *)
Definition given (s : option string) : Prop :=
  exists v, s = Some v /\ v <> "".

(** The fields a monitor of each type cannot be created without. *)
Definition required_fields_present (d : MonitorCreate.t) : Prop :=
  match MonitorCreate.monitor_type d with
  | HTTP | HTTPS => given (MonitorCreate.url d)
  | SSL => given (MonitorCreate.ssl_domain d)
  | DNS => given (MonitorCreate.dns_hostname d)
  | PORT =>
      given (MonitorCreate.port_host d)
      /\ exists n, MonitorCreate.port_number d = Some n /\ n <> 0
  | PING => given (MonitorCreate.ping_host d)
  | KEYWORD =>
      given (MonitorCreate.keyword_url d) /\ given (MonitorCreate.keyword_text d)
  | API => given (MonitorCreate.api_url d)
  end.

(** A request body for a port monitor on the given port. *)
Definition port_monitor (port : Z) : MonitorCreate.t :=
  MonitorCreate.mk "Port" None 60 PORT 5
    None (Some 30) None (Some "8.8.8.8") (Some REC_A) None
    (Some "example.com") (Some port) (Some TCP) None (Some 4) (Some 32)
    None None (Some "contains")
    None (Some "GET") None None (Some 200) None None None.

(** Adjacent elements in order. *)
Fixpoint nondecreasing (zs : list Z) : Prop :=
  match zs with
  | a :: (b :: _) as rest => a <= b /\ nondecreasing rest
  | _ => True
  end.

Fixpoint increasing (zs : list Z) : Prop :=
  match zs with
  | a :: (b :: _) as rest => a < b /\ increasing rest
  | _ => True
  end.

Fixpoint nonincreasing (zs : list Z) : Prop :=
  match zs with
  | a :: (b :: _) as rest => b <= a /\ nonincreasing rest
  | _ => True
  end.

(** The monitors one cycle visits, with their positions, and those among
    them that are due when they are visited. *)
Definition visits (st : State) : list (nat * Monitor.t) :=
  let snapshot := firstn 1000 (monitors st) in
  combine (seq 0 (length snapshot)) snapshot.

(** The due test of a visit, and the visits a pass reaches: those before
    the first one whose due test raises. *)
Definition due_test (env : nat -> Environment) (im : nat * Monitor.t)
  : result bool :=
  is_due (snd im) (utcnow_due (env (fst im))).

Fixpoint before_first_error (env : nat -> Environment)
    (ims : list (nat * Monitor.t)) : list (nat * Monitor.t) :=
  match ims with
  | [] => []
  | im :: rest =>
      match due_test env im with
      | Return _ => im :: before_first_error env rest
      | Raise _ => []
      end
  end.

Definition found_due (env : nat -> Environment) (im : nat * Monitor.t) : bool :=
  match due_test env im with
  | Return due => due
  | Raise _ => false
  end.

Definition due_visits (env : nat -> Environment) (st : State)
  : list (nat * Monitor.t) :=
  filter (found_due env) (before_first_error env (visits st)).

(** A number of seconds that [timedelta(seconds=...)] accepts. *)
Definition representable_interval (seconds : Z) : Prop :=
  -999999999 <= seconds / 86400 <= 999999999.

(** A window of [hours] before [now] that can be computed: the [timedelta]
    exists and the start of the window is a date of the years 1 to 9999. *)
Definition representable_window (hours : Z) (now : datetime) : Prop :=
  -999999999 <= hours / 24 <= 999999999
  /\ datetime_min <= now - hours * 3600 * 1000000 <= datetime_max.

(** A monitor whose due test cannot raise. *)
Definition safe_interval (m : Monitor.t) : Prop :=
  Monitor.last_checked m = None
  \/ representable_interval (Monitor.check_interval m).

Definition bucket_at (hour : datetime) (data : list (datetime * HourBucket))
  : option HourBucket :=
  match find (fun entry => fst entry =? hour) data with
  | Some (_, b) => Some b
  | None => None
  end.

(** What the loop makes of one bucket: the logs of its hour, counted in
    order. *)
Definition tally (hour : datetime) (logs : list UptimeLog.t) (b : HourBucket)
  : HourBucket :=
  fold_left
    (fun b l => if hour_key (UptimeLog.timestamp l) =? hour then count_log l b
                else b)
    logs b.

Definition in_hour (hour : datetime) (l : UptimeLog.t) : bool :=
  hour_key (UptimeLog.timestamp l) =? hour.

Definition sum_checks (points : list HistoryPoint) : Z :=
  fold_right (fun p total => h_total_checks p + total) 0 points.

Definition sum_buckets (data : list (datetime * HourBucket)) : Z :=
  fold_right (fun e total => up_count (snd e) + down_count (snd e) + total) 0 data.

(** Three logs of "m1" within one hour (up, warning, up) and one, down, in
    the next hour, stored out of order. *)
Definition two_hours : State :=
  mkState (monitors one_monitor_with_alerts)
    [UptimeLog.of_check "l3" (timedelta_seconds 3000) "m1" UP (Some (1 # 2))
       None UptimeLog.no_data;
     UptimeLog.of_check "l4" (timedelta_seconds 4000) "m1" DOWN None
       (Some "HTTP 500") UptimeLog.no_data;
     UptimeLog.of_check "l1" (timedelta_seconds 1000) "m1" UP (Some (1 # 4))
       None UptimeLog.no_data;
     UptimeLog.of_check "l2" (timedelta_seconds 2000) "m1" WARNING
       (Some (1 # 1)) None UptimeLog.no_data]
    [] [] true.

(** * Properties *)

(** ** HTTP probe *)

(** C6: when the HTTP/HTTPS probe receives a response, it returns UP exactly
    when the status code is 200, and otherwise DOWN with the message
    "HTTP <code>"; the response time is the measured one in both cases. *)
Theorem check_url_up_iff_200 :
  forall (url : option string) (timeout code : Z) (elapsed : Q),
  exists status message,
    check_url url timeout (HttpResponse code) elapsed
      = Return (status, Some elapsed, message)
    /\ (status = UP <-> code = 200)
    /\ (code <> 200 ->
        status = DOWN /\ message = Some ("HTTP " ++ str_int code)).
Proof.
  intros url timeout code elapsed.
  unfold check_url, check_url_try, try_except.
  destruct (Z.eqb_spec code 200) as [E | NE].
  - exists UP, None. split; [reflexivity | split].
    + split; auto.
    + intros NE. contradiction.
  - exists DOWN, (Some ("HTTP " ++ str_int code)). split; [reflexivity | split].
    + split; [discriminate | contradiction].
    + intros _. split; reflexivity.
Qed.

Lemma check_url_500_witness :
  check_url (Some "https://example.com") 5 (HttpResponse 500) (12 # 100)
    = Return (DOWN, Some (12 # 100), Some "HTTP 500").
Proof.
  destruct (check_url_up_iff_200 (Some "https://example.com") 5 500 (12 # 100))
    as (status & message & E & _ & Hdown).
  destruct (Hdown ltac:(lia)) as [Hs Hm].
  rewrite E, Hs, Hm. reflexivity.
Defined.

(** ** TLS certificate probe *)



(** ** Failures are absorbed by every probe *)

Lemma try_except_total :
  forall (A : Type) (body : result A) (handler : exn -> result A),
    (forall e, exists v, handler e = Return v) ->
    exists v, try_except body handler = Return v.
Proof.
  intros A body handler Hh. destruct body as [v | e]; simpl.
  - exists v. reflexivity.
  - apply Hh.
Qed.

Ltac by_class e := destruct (cls e); eexists; reflexivity.

(** C7 (amended): every probe returns a result tuple whatever the outside
    world answers (no exception leaves a probe), a failure of the exchange
    gives DOWN with a message, and on a timeout the tuple carries the
    measured elapsed time (none for ping) and the probe's own text:
    "Timeout" for HTTP, keyword and API, "Connection timeout" for TLS,
    "DNS resolution timeout" for DNS, the text of the exception for port,
    with the payload None / False / 0. The ping probe sets no deadline of
    its own: it waits for the ping command, and a command that exits with a
    code other than 0 gives DOWN "Ping failed: <stderr>", one that exits
    with 0 and a loss of 100 % gives DOWN "100% packet loss", both without
    a response time; an exception raised while running the command gives
    DOWN with its text. *)
Theorem probes_absorb_failures `{Runtime} :
  (forall url timeout o elapsed,
      exists r, check_url url timeout o elapsed = Return r)
  /\ (forall domain timeout threshold o now elapsed,
      exists r, check_ssl_certificate domain timeout threshold o now elapsed
                = Return r)
  /\ (forall host server rtype expected timeout o elapsed,
      exists r, check_dns_resolution host server rtype expected timeout o elapsed
                = Return r)
  /\ (forall host port protocol timeout o elapsed,
      exists r, check_port_connectivity host port protocol timeout o elapsed
                = Return r)
  /\ (forall host count size timeout o,
      exists r, check_ping host count size timeout o = Return r)
  /\ (forall url keyword match_type timeout o elapsed,
      exists r, check_keyword url keyword match_type timeout o elapsed = Return r)
  /\ (forall url method headers body expected limit path value timeout o elapsed,
      exists r, check_api_endpoint url method headers body expected limit path
                  value timeout o elapsed = Return r)
  /\ (forall url timeout e elapsed,
      exists m, check_url url timeout (HttpFails e) elapsed
                = Return (DOWN, Some elapsed, Some m))
  /\ (forall domain timeout threshold e now elapsed,
      exists m, check_ssl_certificate domain timeout threshold (TlsFails e) now
                  elapsed = Return (DOWN, Some elapsed, Some m, None, None))
  /\ (forall host server rtype expected timeout e elapsed,
      exists m, check_dns_resolution host server rtype expected timeout
                  (DnsFails e) elapsed = Return (DOWN, Some elapsed, Some m, None))
  /\ (forall host port protocol timeout e elapsed,
      exists m, check_port_connectivity host port protocol timeout
                  (SocketFails e) elapsed
                = Return (DOWN, Some elapsed, Some m, false))
  /\ (forall host count size timeout e,
      check_ping host count size timeout (PingFails e)
      = Return (DOWN, None, Some (msg e), None, None, None, None))
  /\ (forall url keyword match_type timeout e elapsed,
      exists m, check_keyword url keyword match_type timeout (KeywordFails e)
                  elapsed = Return (DOWN, Some elapsed, Some m, false, 0))
  /\ (forall url method headers body expected limit path value timeout e elapsed,
      exists m, check_api_endpoint url method headers body expected limit path
                  value timeout (ApiFails e) elapsed
                = Return (DOWN, Some elapsed, Some m, 0, false, None))
  /\ (forall url timeout text elapsed,
      check_url url timeout (HttpFails (mkExn AsyncioTimeoutError text)) elapsed
      = Return (DOWN, Some elapsed, Some "Timeout"))
  /\ (forall domain timeout threshold text now elapsed,
      check_ssl_certificate (Some domain) timeout threshold
        (TlsFails (mkExn SocketTimeout text)) now elapsed
      = Return (DOWN, Some elapsed, Some "Connection timeout", None, None))
  /\ (forall host server rtype expected timeout text elapsed,
      check_dns_resolution host server rtype expected timeout
        (DnsFails (mkExn DnsTimeout text)) elapsed
      = Return (DOWN, Some elapsed, Some "DNS resolution timeout", None))
  /\ (forall url keyword match_type timeout text elapsed,
      check_keyword url keyword match_type timeout
        (KeywordFails (mkExn AsyncioTimeoutError text)) elapsed
      = Return (DOWN, Some elapsed, Some "Timeout", false, 0))
  /\ (forall url method headers body expected limit path value timeout text
             elapsed,
      check_api_endpoint url method headers body expected limit path value
        timeout (ApiFails (mkExn AsyncioTimeoutError text)) elapsed
      = Return (DOWN, Some elapsed, Some "Timeout", 0, false, None))
  /\ (forall host port protocol timeout text elapsed,
      lower protocol = "tcp" ->
      check_port_connectivity host port protocol timeout
        (SocketFails (mkExn AsyncioTimeoutError text)) elapsed
      = Return (DOWN, Some elapsed, Some text, false))
  /\ (forall host count size timeout returncode loss rtt stderr,
      returncode <> 0 ->
      check_ping host count size timeout (PingExited returncode loss rtt stderr)
      = Return (DOWN, None, Some ("Ping failed: " ++ stderr),
                None, None, None, None))
  /\ (forall host count size timeout loss rtt stderr,
      (100 <= loss)%Q ->
      check_ping host count size timeout (PingExited 0 (Some loss) rtt stderr)
      = Return (DOWN, None, Some "100% packet loss", Some loss,
                None, None, None)).
Proof.
  repeat match goal with |- _ /\ _ => split end; intros;
    try reflexivity;
    try (apply try_except_total; intros e0; by_class e0);
    try (unfold check_url, check_dns_resolution, check_ping, check_keyword,
           check_api_endpoint; simpl; by_class e);
    try (unfold check_ssl_certificate; destruct domain; simpl;
         solve [ by_class e | eexists; reflexivity ]).
  - unfold check_port_connectivity, connect_try.
    destruct (lower protocol =? "tcp")%string;
      [ | destruct (lower protocol =? "udp")%string ];
      simpl; eexists; reflexivity.
  - unfold check_port_connectivity, connect_try.
    match goal with E : lower protocol = _ |- _ => rewrite E end.
    reflexivity.
  - unfold check_ping, check_ping_try, try_except.
    destruct (Z.eqb_spec returncode 0); [ contradiction | reflexivity ].
  - unfold check_ping, check_ping_try, try_except.
    change (0 =? 0) with true. cbv iota. unfold Qlt_bool.
    match goal with L : (100 <= loss)%Q |- _ =>
      rewrite (proj2 (Qle_bool_iff 100 loss) L) end.
    reflexivity.
Qed.

(** C7, as stated, fails: on a timeout [check_url] answers "Timeout" and
    [check_ssl_certificate] "Connection timeout", not "timeout", even when
    the measured time equals the deadline of 10 seconds, and a ping command
    that gave up without a reply leaves [check_ping] without a response
    time at all. *)
Lemma timeout_tuple_counterexample :
  check_url (Some "https://example.com") 10
    (HttpFails (mkExn AsyncioTimeoutError "")) (inject_Z 10)
  = Return (DOWN, Some (inject_Z 10), Some "Timeout")
  /\ check_url (Some "https://example.com") 10
       (HttpFails (mkExn AsyncioTimeoutError "")) (inject_Z 10)
     <> Return (DOWN, Some (inject_Z 10), Some "timeout")
  /\ check_ssl_certificate (Some "example.com") 10 30
       (TlsFails (mkExn SocketTimeout "timed out")) 0 (inject_Z 10)
     = Return (DOWN, Some (inject_Z 10), Some "Connection timeout", None, None)
  /\ check_ping (Some "example.com") 4 32 10
       (PingExited 1 (Some 100%Q) None "")
     = Return (DOWN, None, Some "Ping failed: ", None, None, None, None).
Proof.
  repeat split; try reflexivity. vm_compute. discriminate.
Qed.

(** ** API endpoint probe *)

Lemma navigate_object_lookups `{Runtime} :
  forall keys value terminal,
    navigate keys value = Return terminal <-> object_lookups keys value terminal.
Proof.
  induction keys as [| key rest IH]; intros value terminal; simpl.
  - split.
    + intros E. injection E as ->. constructor.
    + intros L. inversion L; subst. reflexivity.
  - split.
    + intros E. destruct value; simpl in E; try discriminate.
      destruct (dict_get key entries) as [v |] eqn:G; simpl in E;
        [ | discriminate ].
      apply lookups_step with (v := v); [ exact G | apply IH; exact E ].
    + intros L. inversion L as [| ? ? ? v ? G L' ]; subst. simpl.
      rewrite G. simpl. apply IH. exact L'.
Qed.

(** The validation block answers UP when the body decodes, the path leads to
    a value and that value prints as the expected text; DOWN otherwise,
    unless decoding raised an exception of another class than the three the
    block catches. *)
Lemma json_validation_status `{Runtime} :
  forall path expected code size decoded elapsed,
    let r := json_validation path expected code size decoded elapsed in
    ((exists j t, decoded = Return j
                  /\ object_lookups (split "." path) j t
                  /\ str_json t = expected) ->
     r = Return (UP, Some elapsed, None, code, true, Some size))
    /\ (~ (exists j t, decoded = Return j
                       /\ object_lookups (split "." path) j t
                       /\ str_json t = expected) ->
        (exists m, r = Return (DOWN, Some elapsed, Some m, code, false, Some size))
        \/ (exists e, r = Raise e)).
Proof.
  intros path expected code size decoded elapsed r. subst r.
  unfold json_validation. split.
  - intros (j & t & -> & L & E). simpl.
    apply navigate_object_lookups in L. rewrite L. simpl.
    rewrite E, String.eqb_refl. reflexivity.
  - intros N. destruct decoded as [j | e]; simpl.
    + destruct (navigate (split "." path) j) as [t | e] eqn:Nav; simpl.
      * destruct (String.eqb_spec (str_json t) expected) as [E | NE]; simpl.
        -- exfalso. apply N. exists j, t. repeat split; auto.
           apply navigate_object_lookups. exact Nav.
        -- left. eexists. reflexivity.
      * destruct (cls e); (left; eexists; reflexivity) || (right; eexists; reflexivity).
    + destruct (cls e); (left; eexists; reflexivity) || (right; eexists; reflexivity).
Qed.

Lemma Qlt_bool_iff : forall a b : Q, Qlt_bool a b = true <-> (a < b)%Q.
Proof.
  intros a b. unfold Qlt_bool. rewrite negb_true_iff.
  destruct (Qle_bool b a) eqn:E.
  - apply Qle_bool_iff in E. split; [ discriminate | ].
    intros L. exfalso. apply (Qlt_not_le _ _ L). exact E.
  - split; [ intros _ | reflexivity ].
    apply Qnot_le_lt. intros L. apply Qle_bool_iff in L. congruence.
Qed.

Lemma truthy_float_iff :
  forall limit : option Q,
    truthy_float limit = true <-> exists l, limit = Some l /\ ~ (l == 0)%Q.
Proof.
  intros [l |]; simpl.
  - rewrite negb_true_iff. split.
    + intros E. exists l. split; [ reflexivity | ].
      intros Z. apply Qeq_bool_iff in Z. congruence.
    + intros (l' & [= <-] & NZ). destruct (Qeq_bool l 0) eqn:E; auto.
      exfalso. apply NZ. apply Qeq_bool_iff. exact E.
  - split; [ discriminate | intros (l & E & _); discriminate ].
Qed.

(** C5 (amended): on a response, the API probe decides in this order:
    (1) a status code other than the expected one gives DOWN; (2) otherwise
    a response-time limit that is set and not zero, and exceeded, gives
    WARNING; (3) otherwise, when json_path and expected_json_value are both
    set and not empty, the result is UP if the body decodes as JSON, the
    dot-separated path can be followed as successive object lookups, and the
    value reached prints as expected_json_value, and DOWN if not; (4)
    otherwise UP. A limit of zero and an empty path or expected value count
    as not set. *)
Theorem check_api_endpoint_order `{Runtime} :
  forall url method headers body (expected : Z) (limit : option Q)
         (path value : option string) (timeout code size : Z)
         (decoded : result json) (elapsed : Q),
  let r := check_api_endpoint url method headers body expected limit path value
             timeout (ApiResponse code size decoded) elapsed in
  let too_slow :=
    exists l, limit = Some l /\ ~ (l == 0)%Q /\ (l < elapsed)%Q in
  let matches p v :=
    exists j t, decoded = Return j
                /\ object_lookups (split "." p) j t
                /\ str_json t = v in
  (code <> expected -> api_status r = Some DOWN)
  /\ (code = expected -> too_slow -> api_status r = Some WARNING)
  /\ (code = expected -> ~ too_slow ->
      forall p v, path = Some p -> value = Some v -> p <> "" -> v <> "" ->
        (matches p v -> api_status r = Some UP)
        /\ (~ matches p v -> api_status r = Some DOWN))
  /\ (code = expected -> ~ too_slow ->
      (path = None \/ path = Some "" \/ value = None \/ value = Some "") ->
      api_status r = Some UP).
Proof.
  intros url method headers body expected limit path value timeout code size
    decoded elapsed r too_slow matches.
  assert (Slow : (truthy_float limit
                  && match limit with
                     | Some l => Qlt_bool l elapsed
                     | None => false
                     end)%bool = true <-> too_slow).
  { unfold too_slow. rewrite andb_true_iff, truthy_float_iff. split.
    - intros [(l & -> & NZ) L]. exists l. rewrite <- Qlt_bool_iff. auto.
    - intros (l & -> & NZ & L). split; [ eauto | apply Qlt_bool_iff; exact L ]. }
  subst r. unfold check_api_endpoint, check_api_endpoint_try.
  destruct (Z.eqb_spec code expected) as [E | NE]; simpl negb; cbv iota.
  2: { repeat split; intros; try contradiction; reflexivity. }
  destruct (truthy_float limit
            && match limit with
               | Some l => Qlt_bool l elapsed
               | None => false
               end)%bool eqn:S.
  { assert (too_slow) by (apply Slow; reflexivity).
    repeat split; intros; try contradiction; reflexivity. }
  assert (NS : ~ too_slow) by (intros T; apply Slow in T; discriminate).
  split; [ intros; contradiction | ].
  split; [ intros; contradiction | ].
  split.
  - intros _ _ p v -> -> Hp Hv.
    destruct (String.eqb_spec p "") as [| _]; [ contradiction | ].
    destruct (String.eqb_spec v "") as [| _]; [ contradiction | ].
    simpl negb. cbv iota. simpl andb. cbv iota.
    destruct (json_validation_status p v code size decoded elapsed) as [Yes No].
    split.
    + intros M. rewrite (Yes M). reflexivity.
    + intros M. destruct (No M) as [(m & ->) | (e & R)]; [ reflexivity | ].
      rewrite R. simpl. destruct (cls e); reflexivity.
  - intros _ _ D. destruct path as [p |], value as [v |]; try reflexivity.
    destruct D as [D | [D | [D | D]]]; try discriminate; injection D as ->.
    + reflexivity.
    + rewrite andb_false_r. reflexivity.
Qed.

Lemma check_api_endpoint_order_witness :
  api_status
    (@check_api_endpoint sample_runtime (Some "https://x/y") "GET" None None 200
       None (Some "data.status") (Some "ok") 10
       (ApiResponse 200 24
          (Return (JDict [("data", JDict [("status", JStr "ok")])])))
       (1 # 10))
  = Some UP.
Proof.
  destruct (@check_api_endpoint_order sample_runtime (Some "https://x/y") "GET"
              None None 200 None (Some "data.status") (Some "ok") 10 200 24
              (Return (JDict [("data", JDict [("status", JStr "ok")])]))
              (1 # 10)) as (_ & _ & Hjson & _).
  apply (Hjson eq_refl) with (p := "data.status") (v := "ok");
    try reflexivity; try discriminate.
  - intros (l & E & _). discriminate.
  - exists (JDict [("data", JDict [("status", JStr "ok")])]), (JStr "ok").
    split; [ reflexivity | split; [ | reflexivity ] ].
    vm_compute. repeat (eapply lookups_step; [ reflexivity | ]). constructor.
Defined.

(** C5, as stated, fails when a setting is present but falsy. With
    json_path "status" and expected_json_value set to the empty string the
    body is never inspected and the probe answers UP although the value at
    the path prints as "ok"; with expected_response_time set to 0 a response
    after one second is UP, not WARNING. *)
Lemma check_api_endpoint_falsy_settings :
  @check_api_endpoint sample_runtime (Some "https://x/y") "GET" None None 200
    None (Some "status") (Some "") 10
    (ApiResponse 200 15 (Return (JDict [("status", JStr "ok")]))) 1
  = Return (UP, Some 1%Q, None, 200, true, Some 15)
  /\ object_lookups (split "." "status") (JDict [("status", JStr "ok")])
       (JStr "ok")
  /\ @str_json sample_runtime (JStr "ok") <> ""
  /\ @check_api_endpoint sample_runtime (Some "https://x/y") "GET" None None 200
       (Some 0%Q) None None 10
       (ApiResponse 200 15 (Return (JDict [("status", JStr "ok")]))) 1
     = Return (UP, Some 1%Q, None, 200, true, Some 15)
  /\ (0 < 1)%Q.
Proof.
  repeat split; try reflexivity; try discriminate.
  vm_compute. eapply lookups_step; [ reflexivity | constructor ].
Qed.

(** ** Collections *)

Section CollectionFacts.

Context {A : Type}.

Lemma find_one_some_iff :
  forall (p : A -> bool) (docs : list A),
    (exists d, find_one p docs = Some d) <-> (exists d, In d docs /\ p d = true).
Proof.
  intros p docs. unfold find_one. split.
  - intros (d & F). exists d. apply find_some. exact F.
  - intros (d & I & P). destruct (find p docs) as [d' |] eqn:F; eauto.
    exfalso. pose proof (find_none _ _ F d I). congruence.
Qed.

Lemma find_one_none_iff :
  forall (p : A -> bool) (docs : list A),
    find_one p docs = None <-> (forall d, In d docs -> p d = false).
Proof.
  intros p docs. unfold find_one. split.
  - intros F d I. exact (find_none _ _ F d I).
  - intros N. destruct (find p docs) as [d |] eqn:F; auto.
    apply find_some in F. destruct F as [I P]. rewrite (N d I) in P. discriminate.
Qed.

Lemma delete_one_count :
  forall (p : A -> bool) (docs : list A),
    snd (delete_one p docs) = match find_one p docs with Some _ => 1 | None => 0 end.
Proof.
  intros p. induction docs as [| d rest IH]; simpl; auto.
  destruct (p d); simpl; auto.
  destruct (delete_one p rest) as [rest' n]. simpl in *. exact IH.
Qed.

Lemma delete_one_filter_length :
  forall (p q : A -> bool) (docs : list A),
    (length (filter q (fst (delete_one p docs))) <= length (filter q docs))%nat.
Proof.
  intros p q. induction docs as [| d rest IH]; simpl; auto.
  destruct (p d); simpl.
  - destruct (q d); simpl; lia.
  - destruct (delete_one p rest) as [rest' n]. simpl in *.
    destruct (q d); simpl; lia.
Qed.

Lemma delete_many_spec :
  forall (p : A -> bool) (docs : list A) (d : A),
    In d (delete_many p docs) <-> In d docs /\ p d = false.
Proof.
  intros p docs d. unfold delete_many. rewrite filter_In, negb_true_iff. tauto.
Qed.

Lemma update_one_find :
  forall (p : A -> bool) (f : A -> A) (docs : list A),
    (forall d, p (f d) = p d) ->
    find_one p (update_one p f docs) = option_map f (find_one p docs).
Proof.
  intros p f docs Hp. unfold find_one.
  induction docs as [| d rest IH]; simpl; auto.
  destruct (p d) eqn:P; simpl.
  - rewrite Hp, P. reflexivity.
  - rewrite P. exact IH.
Qed.

Lemma update_one_map :
  forall (B : Type) (g : A -> B) (p : A -> bool) (f : A -> A) (docs : list A),
    (forall d, g (f d) = g d) ->
    map g (update_one p f docs) = map g docs.
Proof.
  intros B g p f docs Hg. induction docs as [| d rest IH]; simpl; auto.
  destruct (p d); simpl; [ rewrite Hg | rewrite IH ]; reflexivity.
Qed.

Lemma filter_everything :
  forall docs : list A, filter (fun _ => true) docs = docs.
Proof.
  induction docs as [| d rest IH]; simpl; [ | rewrite IH ]; reflexivity.
Qed.

Lemma find_to_list_all :
  forall (p : A -> bool) (n : nat) (docs : list A),
    (length (filter p docs) <= n)%nat -> find_to_list p n docs = filter p docs.
Proof.
  intros p n docs L. unfold find_to_list. apply firstn_all2. exact L.
Qed.

End CollectionFacts.

Lemma has_id_iff :
  forall monitor_id m, has_id monitor_id m = true <-> Monitor.id m = monitor_id.
Proof. intros. unfold has_id. apply String.eqb_eq. Qed.

Lemma log_of_iff :
  forall monitor_id l,
    log_of monitor_id l = true <-> UptimeLog.monitor_id l = monitor_id.
Proof. intros. unfold log_of. apply String.eqb_eq. Qed.

Lemma alert_of_iff :
  forall monitor_id a,
    alert_of monitor_id a = true <-> AlertSettings.monitor_id a = monitor_id.
Proof. intros. unfold alert_of. apply String.eqb_eq. Qed.

Lemma has_id_apply_set :
  forall monitor_id u m,
    has_id monitor_id (Monitor.apply_set u m) = has_id monitor_id m.
Proof. reflexivity. Qed.

(** ** Deleting a monitor *)

(** C1 (amended): deleting a monitor that exists succeeds, leaves no log
    with its identifier, keeps every other log, and leaves the alert
    settings collection as it was. *)
Theorem delete_monitor_cascade :
  forall (monitor_id : string) (st : State),
    (exists m, In m (monitors st) /\ Monitor.id m = monitor_id) ->
    exists st',
      delete_monitor monitor_id st = (st', Ok "Monitor deleted successfully")
      /\ (forall l, In l (uptime_logs st') -> UptimeLog.monitor_id l <> monitor_id)
      /\ (forall l, In l (uptime_logs st) ->
                    UptimeLog.monitor_id l <> monitor_id ->
                    In l (uptime_logs st'))
      /\ alert_settings st' = alert_settings st.
Proof.
  intros monitor_id st (m & I & E).
  unfold delete_monitor.
  pose proof (delete_one_count (has_id monitor_id) (monitors st)) as C.
  destruct (delete_one (has_id monitor_id) (monitors st)) as [remaining n].
  simpl in C.
  destruct (find_one (has_id monitor_id) (monitors st)) as [m' |] eqn:F.
  - subst n. simpl. eexists. split; [ reflexivity | ]. simpl.
    split; [ | split; [ | reflexivity ] ].
    + intros l Hl. apply delete_many_spec in Hl. destruct Hl as [_ N].
      intros Eq. apply log_of_iff in Eq. congruence.
    + intros l Hl N. apply delete_many_spec. split; auto.
      destruct (log_of monitor_id l) eqn:L; auto.
      apply log_of_iff in L. contradiction.
  - exfalso. rewrite find_one_none_iff in F. specialize (F m I).
    apply has_id_iff in E. congruence.
Qed.

Lemma delete_monitor_cascade_witness :
  exists st',
    delete_monitor "m1" one_monitor_with_alerts
      = (st', Ok "Monitor deleted successfully")
    /\ uptime_logs st' = []
    /\ alert_settings st' = alert_settings one_monitor_with_alerts.
Proof.
  destruct (delete_monitor_cascade "m1" one_monitor_with_alerts)
    as (st' & E & _ & _ & Ha).
  - eexists. split; [ left; reflexivity | reflexivity ].
  - exists st'. split; [ exact E | split; [ | exact Ha ] ].
    vm_compute in E. injection E as <-. reflexivity.
Defined.

(** C1, as stated, fails: after the monitor "m1" is deleted, the alert
    settings created for "m1" are still in the store. *)
Lemma delete_monitor_keeps_alert_settings :
  snd (delete_monitor "m1" one_monitor_with_alerts)
    = Ok "Monitor deleted successfully"
  /\ map Monitor.id (monitors (fst (delete_monitor "m1" one_monitor_with_alerts)))
     = []
  /\ map AlertSettings.monitor_id
       (alert_settings (fst (delete_monitor "m1" one_monitor_with_alerts)))
     = ["m1"].
Proof. repeat split. Qed.

(** ** Alert settings are unique per monitor *)

Lemma record_check_alert_settings `{Runtime} :
  forall monitor_id c env st,
    alert_settings (record_check monitor_id c env st) = alert_settings st.
Proof. reflexivity. Qed.

Lemma update_uptime_percentage_alert_settings :
  forall monitor_id now st,
    alert_settings (update_uptime_percentage monitor_id now st) = alert_settings st.
Proof.
  intros. unfold update_uptime_percentage.
  destruct (find_to_list _ _ _); reflexivity.
Qed.

Lemma check_due_monitor_alert_settings `{Runtime} :
  forall monitor env st,
    alert_settings (check_due_monitor monitor env st) = alert_settings st.
Proof.
  intros. unfold check_due_monitor, send_all. simpl.
  rewrite update_uptime_percentage_alert_settings. reflexivity.
Qed.

(** Whatever the check of a due monitor leaves alone, a whole pass leaves
    alone, wherever the pass ends. *)
Lemma visit_monitors_keeps `{Runtime} :
  forall (B : Type) (g : State -> B),
    (forall monitor e s, g (check_due_monitor monitor e s) = g s) ->
    forall env ims st, g (fst (visit_monitors env ims st)) = g st.
Proof.
  intros B g Hg env. induction ims as [| [i monitor] rest IH]; intros st.
  - reflexivity.
  - cbn [visit_monitors cycle_step].
    destruct (is_due monitor (utcnow_due (env i))) as [due | e]; simpl.
    + rewrite IH. destruct due; auto.
    + reflexivity.
Qed.

Lemma monitor_check_cycle_alert_settings `{Runtime} :
  forall env st,
    alert_settings (monitor_check_cycle env st) = alert_settings st.
Proof.
  intros env st. unfold monitor_check_cycle.
  destruct (monitoring_active st); [ | reflexivity ].
  apply (visit_monitors_keeps _ alert_settings).
  intros. apply check_due_monitor_alert_settings.
Qed.

Lemma create_alert_settings_preserves_unique :
  forall d new_id now st,
    unique_alerts st ->
    unique_alerts (fst (create_alert_settings d new_id now st)).
Proof.
  intros d new_id now st U. unfold create_alert_settings.
  destruct (find_one (has_id _) (monitors st)); [ | exact U ].
  destruct (find_one (alert_of _) (alert_settings st)) eqn:F; [ exact U | ].
  intros monitor_id. simpl. unfold insert_one. rewrite filter_app, length_app.
  simpl. destruct (alert_of monitor_id (AlertSettings.of_create d new_id now)) eqn:P.
  - apply alert_of_iff in P. simpl in P. subst monitor_id.
    rewrite find_one_none_iff in F.
    assert (E : filter (alert_of (AlertSettingsCreate.monitor_id d))
                  (alert_settings st) = []).
    { destruct (filter _ (alert_settings st)) as [| a rest] eqn:G; auto.
      assert (I : In a (filter (alert_of (AlertSettingsCreate.monitor_id d))
                          (alert_settings st))) by (rewrite G; left; reflexivity).
      apply filter_In in I. destruct I as [I P]. rewrite (F a I) in P.
      discriminate. }
    rewrite E. simpl. lia.
  - simpl. specialize (U monitor_id). lia.
Qed.

Lemma serve_preserves_unique `{Runtime} :
  forall st r, unique_alerts st -> unique_alerts (serve st r).
Proof.
  intros st r U. destruct r; simpl.
  - unfold create_monitor. destruct (missing_field monitor_data); exact U.
  - unfold delete_monitor.
    destruct (delete_one (has_id monitor_id) (monitors st)) as [remaining n].
    destruct (n =? 0); exact U.
  - unfold manual_check_monitor.
    destruct (find_one (has_id monitor_id) (monitors st)); exact U.
  - apply create_alert_settings_preserves_unique. exact U.
  - unfold delete_alert_settings.
    pose proof (fun q => delete_one_filter_length (alert_of monitor_id) q
                           (alert_settings st)) as L.
    destruct (delete_one (alert_of monitor_id) (alert_settings st))
      as [remaining n].
    destruct (n =? 0); [ exact U | ].
    intros mid. simpl in *. specialize (L (alert_of mid)). specialize (U mid). lia.
  - intros mid. rewrite monitor_check_cycle_alert_settings. apply U.
Qed.

(** C8 (amended): POST /api/alerts answers 404 when no monitor has the given
    identifier, and 400 when such a monitor exists and alert settings for
    the identifier already exist; the store is unchanged in both cases; and
    after any sequence of requests and background cycles, from the empty
    store or from any store with at most one alert settings record per
    monitor identifier, at most one such record exists per identifier. *)
Theorem create_alert_settings_conflict `{Runtime} :
  (forall d new_id now st,
      (forall m, In m (monitors st) ->
                 Monitor.id m <> AlertSettingsCreate.monitor_id d) ->
      create_alert_settings d new_id now st
      = (st, HTTPException 404 "Monitor not found"))
  /\ (forall d new_id now st,
      (exists m, In m (monitors st)
                 /\ Monitor.id m = AlertSettingsCreate.monitor_id d) ->
      (exists a, In a (alert_settings st)
                 /\ AlertSettings.monitor_id a = AlertSettingsCreate.monitor_id d) ->
      create_alert_settings d new_id now st
      = (st, HTTPException 400 "Alert settings already exist for this monitor"))
  /\ (forall st rs, unique_alerts st -> unique_alerts (serve_all st rs))
  /\ (forall rs, unique_alerts (serve_all empty_state rs)).
Proof.
  assert (Inv : forall st rs, unique_alerts st -> unique_alerts (serve_all st rs)).
  { intros st rs. revert st. unfold serve_all.
    induction rs as [| r rest IH]; intros st U; simpl; auto.
    apply IH. apply serve_preserves_unique. exact U. }
  split; [ | split; [ | split ] ].
  - intros d new_id now st N. unfold create_alert_settings.
    destruct (find_one (has_id _) (monitors st)) as [m |] eqn:F; auto.
    apply find_some in F. destruct F as [I P]. apply has_id_iff in P.
    exfalso. exact (N m I P).
  - intros d new_id now st (m & I & E) (a & Ia & Ea).
    unfold create_alert_settings.
    destruct (find_one (has_id _) (monitors st)) eqn:F.
    + destruct (find_one (alert_of _) (alert_settings st)) eqn:G; auto.
      rewrite find_one_none_iff in G. specialize (G a Ia).
      apply alert_of_iff in Ea. congruence.
    + rewrite find_one_none_iff in F. specialize (F m I).
      apply has_id_iff in E. congruence.
  - exact Inv.
  - intros rs. apply Inv. intros monitor_id. simpl. lia.
Qed.

Lemma create_alert_settings_conflict_witness :
  create_alert_settings alert_for_m1 "a2" 2 one_monitor_with_alerts
  = (one_monitor_with_alerts,
     HTTPException 400 "Alert settings already exist for this monitor")
  /\ create_alert_settings alert_for_m1 "a2" 2 empty_state
     = (empty_state, HTTPException 404 "Monitor not found")
  /\ unique_alerts one_monitor_with_alerts.
Proof.
  destruct (@create_alert_settings_conflict sample_runtime)
    as (Missing & Conflict & _ & Reach).
  split; [ | split ].
  - apply Conflict.
    + eexists. split; [ left; reflexivity | reflexivity ].
    + eexists. split; [ left; reflexivity | reflexivity ].
  - apply Missing. intros m [].
  - apply Reach.
Defined.

(** C8, as stated, fails: alert settings for "m1" already exist, yet the
    request is answered 404, not 400, because the monitor check comes
    first. *)
Lemma create_alert_settings_orphan_404 :
  map AlertSettings.monitor_id (alert_settings orphaned_alerts) = ["m1"]
  /\ snd (create_alert_settings alert_for_m1 "a2" 2 orphaned_alerts)
     = HTTPException 404 "Monitor not found"
  /\ snd (create_alert_settings alert_for_m1 "a2" 2 orphaned_alerts)
     <> HTTPException 400 "Alert settings already exist for this monitor".
Proof. repeat split. vm_compute. discriminate. Qed.

(** ** Manual checks *)

Lemma dispatch_keys `{Runtime} :
  forall m env c,
    dispatch m env = Return c -> check_keys (utcnow_check env) (c_update_data c).
Proof.
  intros m env c. unfold dispatch.
  destruct (Monitor.monitor_type m);
    match goal with
    | |- context [bind ?probe _] => destruct probe as [r | e]; simpl
    end;
    try discriminate;
    unfold url_result, ssl_result, dns_result, port_result, ping_result,
      keyword_result, api_result in *;
    repeat match goal with
           | r : (_ * _)%type |- _ => destruct r
           end;
    repeat match goal with
           | |- context [match ?o with Some _ => _ | None => _ end] =>
               destruct o
           end;
    simpl; intros E; injection E as E; subst c; repeat split.
Qed.

Lemma perform_check_keys `{Runtime} :
  forall m env,
    check_keys (utcnow_check env) (c_update_data (perform_check m env)).
Proof.
  intros m env. unfold perform_check.
  destruct (dispatch m env) as [c | e] eqn:D.
  - exact (dispatch_keys m env c D).
  - repeat split.
Qed.

Section ProbesReturn.

Context `{Runtime}.

(** No probe raises, whatever the outside world answers. *)
Lemma check_url_returns :
  forall url timeout o elapsed,
  exists r, check_url url timeout o elapsed = Return r.
Proof. intros. apply try_except_total. intros e. by_class e. Qed.

Lemma check_ssl_certificate_returns :
  forall domain timeout threshold o now elapsed,
  exists r, check_ssl_certificate domain timeout threshold o now elapsed = Return r.
Proof. intros. apply try_except_total. intros e. by_class e. Qed.

Lemma check_dns_resolution_returns :
  forall host server rtype expected timeout o elapsed,
  exists r, check_dns_resolution host server rtype expected timeout o elapsed
            = Return r.
Proof. intros. apply try_except_total. intros e. by_class e. Qed.

Lemma check_port_connectivity_returns :
  forall host port protocol timeout o elapsed,
  exists r, check_port_connectivity host port protocol timeout o elapsed
            = Return r.
Proof. intros. apply try_except_total. intros e. eexists. reflexivity. Qed.

Lemma check_ping_returns :
  forall host count size timeout o,
  exists r, check_ping host count size timeout o = Return r.
Proof. intros. apply try_except_total. intros e. eexists. reflexivity. Qed.

Lemma check_keyword_returns :
  forall url keyword match_type timeout o elapsed,
  exists r, check_keyword url keyword match_type timeout o elapsed = Return r.
Proof. intros. apply try_except_total. intros e. by_class e. Qed.

Lemma check_api_endpoint_returns :
  forall url method headers body expected limit path value timeout o elapsed,
  exists r, check_api_endpoint url method headers body expected limit path
              value timeout o elapsed = Return r.
Proof. intros. apply try_except_total. intros e. by_class e. Qed.

End ProbesReturn.

(** Replaces the probe call under a [bind] by the tuple it returns. *)
Ltac run_probe :=
  match goal with
  | |- context [bind ?probe _] =>
      let P := fresh "P" in
      let r := fresh "r" in
      assert (P : exists r, probe = Return r)
        by first [ apply check_url_returns
                 | apply check_ssl_certificate_returns
                 | apply check_dns_resolution_returns
                 | apply check_port_connectivity_returns
                 | apply check_ping_returns
                 | apply check_keyword_returns
                 | apply check_api_endpoint_returns ];
      destruct P as [r P]; rewrite !P; cbn [bind];
      unfold url_result, ssl_result, dns_result, port_result, ping_result,
        keyword_result, api_result in r;
      repeat match goal with
             | t : (_ * _)%type |- _ => destruct t
             end
  end.

(** C9: a manual check of an existing monitor answers with the probe's
    outcome; the first monitor with that identifier gets the new status,
    response time, last_checked and the kind-specific fields of the check
    (ssl_expires_at, ping_packet_loss, keyword_found, actual_status_code,
    json_validation_result, each when the check wrote it); exactly one log
    for the monitor is appended; no e-mail is handed to the transport; and
    no monitor's uptime_percentage changes. What is written is what the
    probe of the monitor's type returned for the monitor's settings: status,
    response time and message for every type; for a certificate monitor
    the expiry date when the probe read one; for a ping monitor the packet
    loss when the probe measured one; for a keyword monitor whether the
    keyword was found; for an API monitor the status code received and the
    outcome of the JSON validation; the kind-specific fields of the other
    kinds stay as they were. *)
Theorem manual_check_monitor_effects `{Runtime} :
  forall (monitor_id : string) (env : Environment) (st : State) (m : Monitor.t),
    find_one (has_id monitor_id) (monitors st) = Some m ->
    let c := perform_check m env in
    let u := c_update_data c in
    exists st' m' log,
      manual_check_monitor monitor_id env st
      = (st', Ok (mkReport (c_status c) (c_response_time c) (c_error_msg c)
                    (c_log_data c)))
      /\ find_one (has_id monitor_id) (monitors st') = Some m'
      /\ Monitor.status m' = c_status c
      /\ Monitor.response_time m' = c_response_time c
      /\ Monitor.last_checked m' = Some (utcnow_check env)
      /\ Monitor.ssl_expires_at m'
         = Monitor.written (Monitor.set_ssl_expires_at u) (Monitor.ssl_expires_at m)
      /\ Monitor.ping_packet_loss m'
         = Monitor.written (Monitor.set_ping_packet_loss u)
             (Monitor.ping_packet_loss m)
      /\ Monitor.keyword_found m'
         = Monitor.written (Monitor.set_keyword_found u) (Monitor.keyword_found m)
      /\ Monitor.actual_status_code m'
         = Monitor.written (Monitor.set_actual_status_code u)
             (Monitor.actual_status_code m)
      /\ Monitor.json_validation_result m'
         = Monitor.written (Monitor.set_json_validation_result u)
             (Monitor.json_validation_result m)
      /\ Monitor.uptime_percentage m' = Monitor.uptime_percentage m
      /\ map Monitor.uptime_percentage (monitors st')
         = map Monitor.uptime_percentage (monitors st)
      /\ map Monitor.id (monitors st') = map Monitor.id (monitors st)
      /\ uptime_logs st' = (uptime_logs st ++ [log])%list
      /\ UptimeLog.monitor_id log = monitor_id
      /\ UptimeLog.status log = c_status c
      /\ outbox st' = outbox st
      /\ alert_settings st' = alert_settings st
      /\ UptimeLog.status log = Monitor.status m'
      /\ UptimeLog.response_time log = Monitor.response_time m'
      /\ match Monitor.monitor_type m with
         | HTTP | HTTPS =>
             check_url (Monitor.url m) (Monitor.timeout m) (http_exchange env)
               (elapsed env)
             = Return (Monitor.status m', Monitor.response_time m',
                       UptimeLog.error_message log)
             /\ kind_fields m' = kind_fields m
         | SSL =>
             exists expiry days,
               check_ssl_certificate (Monitor.ssl_domain m) (Monitor.timeout m)
                 (or_int (Monitor.ssl_expiry_threshold m) 30)
                 (tls_exchange env) (utcnow_ssl env) (elapsed env)
               = Return (Monitor.status m', Monitor.response_time m',
                         UptimeLog.error_message log, expiry, days)
               /\ kind_fields m'
                  = (Monitor.written expiry (Monitor.ssl_expires_at m),
                     Monitor.ping_packet_loss m, Monitor.keyword_found m,
                     Monitor.actual_status_code m,
                     Monitor.json_validation_result m)
               /\ UptimeLog.ssl_expires_at log = expiry
               /\ (expiry <> None -> UptimeLog.ssl_days_until_expiry log = days)
         | DNS =>
             exists resolved,
               check_dns_resolution (Monitor.dns_hostname m)
                 (or_str (Monitor.dns_server m) "8.8.8.8")
                 (match Monitor.dns_record_type m with
                  | Some t => DNSRecordType_value t
                  | None => "A"
                  end)
                 (Monitor.expected_dns_result m) (Monitor.timeout m)
                 (dns_exchange env) (elapsed env)
               = Return (Monitor.status m', Monitor.response_time m',
                         UptimeLog.error_message log, resolved)
               /\ kind_fields m' = kind_fields m
               /\ UptimeLog.dns_resolution_time log = Monitor.response_time m'
               /\ UptimeLog.dns_result log = resolved
         | PORT =>
             exists port_open,
               check_port_connectivity (Monitor.port_host m)
                 (Monitor.port_number m)
                 (match Monitor.port_protocol m with
                  | Some p => PortProtocol_value p
                  | None => "tcp"
                  end)
                 (Monitor.timeout m) (socket_exchange env) (elapsed env)
               = Return (Monitor.status m', Monitor.response_time m',
                         UptimeLog.error_message log, port_open)
               /\ kind_fields m' = kind_fields m
               /\ UptimeLog.port_open log = Some port_open
         | PING =>
             exists loss min_time max_time avg_time,
               check_ping (Monitor.ping_host m) (or_int (Monitor.ping_count m) 4)
                 (or_int (Monitor.ping_packet_size m) 32) (Monitor.timeout m)
                 (ping_run env)
               = Return (Monitor.status m', Monitor.response_time m',
                         UptimeLog.error_message log, loss, min_time, max_time,
                         avg_time)
               /\ kind_fields m'
                  = (Monitor.ssl_expires_at m,
                     Monitor.written loss (Monitor.ping_packet_loss m),
                     Monitor.keyword_found m, Monitor.actual_status_code m,
                     Monitor.json_validation_result m)
               /\ UptimeLog.ping_packet_loss log = loss
               /\ (loss <> None ->
                   UptimeLog.ping_min_time log = min_time
                   /\ UptimeLog.ping_max_time log = max_time
                   /\ UptimeLog.ping_avg_time log = avg_time)
         | KEYWORD =>
             exists found match_count,
               check_keyword (Monitor.keyword_url m) (Monitor.keyword_text m)
                 (or_str (Monitor.keyword_match_type m) "contains")
                 (Monitor.timeout m) (keyword_exchange env) (elapsed env)
               = Return (Monitor.status m', Monitor.response_time m',
                         UptimeLog.error_message log, found, match_count)
               /\ kind_fields m'
                  = (Monitor.ssl_expires_at m, Monitor.ping_packet_loss m,
                     Some found, Monitor.actual_status_code m,
                     Monitor.json_validation_result m)
               /\ UptimeLog.keyword_found log = Some found
               /\ UptimeLog.keyword_match_count log = Some match_count
         | API =>
             exists status_code json_valid response_size,
               check_api_endpoint (Monitor.api_url m)
                 (or_str (Monitor.api_method m) "GET") (Monitor.api_headers m)
                 (Monitor.api_body m) (or_int (Monitor.expected_status_code m) 200)
                 (Monitor.expected_response_time m) (Monitor.json_path m)
                 (Monitor.expected_json_value m) (Monitor.timeout m)
                 (api_exchange env) (elapsed env)
               = Return (Monitor.status m', Monitor.response_time m',
                         UptimeLog.error_message log, status_code, json_valid,
                         response_size)
               /\ kind_fields m'
                  = (Monitor.ssl_expires_at m, Monitor.ping_packet_loss m,
                     Monitor.keyword_found m, Some status_code, Some json_valid)
               /\ UptimeLog.api_status_code log = Some status_code
               /\ UptimeLog.api_response_size log = response_size
               /\ UptimeLog.json_validation_passed log = Some json_valid
         end.
Proof.
  intros monitor_id env st m F c u.
  destruct (perform_check_keys m env) as (Klast & Kstatus & Krt & Kup).
  fold c in Klast, Kstatus, Krt, Kup. fold u in Klast, Kstatus, Krt, Kup.
  unfold manual_check_monitor. rewrite F. fold c.
  exists (record_check monitor_id c env st),
         (Monitor.apply_set (with_common_fields c) m),
         (UptimeLog.of_check (log_id env) (utcnow_log env) monitor_id
            (c_status c) (c_response_time c) (c_error_msg c) (c_log_data c)).
  split; [ reflexivity | ].
  split.
  { simpl. rewrite update_one_find by (intros; apply has_id_apply_set).
    rewrite F. reflexivity. }
  assert (Up : forall d,
             Monitor.uptime_percentage
               (Monitor.apply_set (with_common_fields c) d)
             = Monitor.uptime_percentage d).
  { intros d. simpl. fold u. rewrite Kup. reflexivity. }
  repeat match goal with |- _ /\ _ => split end;
    try reflexivity.
  - simpl. fold u. rewrite Klast. reflexivity.
  - apply Up.
  - simpl. apply update_one_map. exact Up.
  - simpl. apply update_one_map. reflexivity.
  - clear Klast Kstatus Krt Kup Up. subst u c.
    unfold kind_fields, perform_check, dispatch.
    destruct (Monitor.monitor_type m); run_probe;
      repeat match goal with
             | o : option _ |- context [match ?x with Some _ => _ | None => _ end] =>
                 match x with o => destruct o end
             end;
      repeat eexists; intros; try reflexivity; try discriminate;
      try congruence.
Qed.

Lemma manual_check_monitor_effects_witness :
  map Monitor.status (monitors checked_once) = [UP]
  /\ (exists st',
         @manual_check_monitor sample_runtime "m1" (answers 500 0 200 "l2")
           checked_once
         = (st', Ok (mkReport DOWN (Some (12 # 100)) (Some "HTTP 500")
                       UptimeLog.no_data))
         /\ map Monitor.status (monitors st') = [DOWN]
         /\ map Monitor.uptime_percentage (monitors st') = [0%Q]
         /\ map UptimeLog.id (uptime_logs st') = ["l1"; "l2"]
         /\ outbox st' = []
         /\ map AlertSettings.monitor_id (alert_settings st') = ["m1"])
  /\ map kind_fields (monitors one_of_each)
     = [(None, None, None, None, None); (None, None, None, None, None);
        (None, None, None, None, None); (None, None, None, None, None)]
  /\ (exists st' report,
         @manual_check_monitor sample_runtime "ssl" (replies 100 "l1") one_of_each
         = (st', Ok report)
         /\ map Monitor.status (monitors st') = [UP; UNKNOWN; UNKNOWN; UNKNOWN]
         /\ map Monitor.ssl_expires_at (monitors st')
            = [Some (whole_days 200); None; None; None])
  /\ (exists st' report,
         @manual_check_monitor sample_runtime "ping" (replies 100 "l1") one_of_each
         = (st', Ok report)
         /\ map Monitor.status (monitors st') = [UNKNOWN; WARNING; UNKNOWN; UNKNOWN]
         /\ map Monitor.ping_packet_loss (monitors st')
            = [None; Some 25%Q; None; None])
  /\ (exists st' report,
         @manual_check_monitor sample_runtime "words" (replies 100 "l1") one_of_each
         = (st', Ok report)
         /\ map Monitor.status (monitors st') = [UNKNOWN; UNKNOWN; UP; UNKNOWN]
         /\ map Monitor.keyword_found (monitors st')
            = [None; None; Some true; None])
  /\ (exists st' report,
         @manual_check_monitor sample_runtime "api" (replies 100 "l1") one_of_each
         = (st', Ok report)
         /\ map Monitor.status (monitors st') = [UNKNOWN; UNKNOWN; UNKNOWN; DOWN]
         /\ map Monitor.actual_status_code (monitors st')
            = [None; None; None; Some 200]
         /\ map Monitor.json_validation_result (monitors st')
            = [None; None; None; Some false]).
Proof.
  split; [ reflexivity | ].
  split.
  { destruct (@manual_check_monitor_effects sample_runtime "m1"
                (answers 500 0 200 "l2") checked_once _ eq_refl)
      as (st' & m' & log & E & _).
    exists st'. split; [ exact E | ].
    vm_compute in E. injection E as <-.
    repeat split. }
  split; [ reflexivity | ].
  split; [ | split; [ | split ] ].
  - destruct (@manual_check_monitor_effects sample_runtime "ssl"
                (replies 100 "l1") one_of_each _ eq_refl)
      as (st' & m' & log & E & _).
    exists st'. eexists. split; [ exact E | ].
    vm_compute in E. injection E as <-. repeat split.
  - destruct (@manual_check_monitor_effects sample_runtime "ping"
                (replies 100 "l1") one_of_each _ eq_refl)
      as (st' & m' & log & E & _).
    exists st'. eexists. split; [ exact E | ].
    vm_compute in E. injection E as <-. repeat split.
  - destruct (@manual_check_monitor_effects sample_runtime "words"
                (replies 100 "l1") one_of_each _ eq_refl)
      as (st' & m' & log & E & _).
    exists st'. eexists. split; [ exact E | ].
    vm_compute in E. injection E as <-. repeat split.
  - destruct (@manual_check_monitor_effects sample_runtime "api"
                (replies 100 "l1") one_of_each _ eq_refl)
      as (st' & m' & log & E & _).
    exists st'. eexists. split; [ exact E | ].
    vm_compute in E. injection E as <-. repeat split.
Defined.

(** ** Uptime percentage *)

Lemma in_window_iff :
  forall monitor_id since l,
    in_window monitor_id since l = true
    <-> UptimeLog.monitor_id l = monitor_id /\ since <= UptimeLog.timestamp l.
Proof.
  intros. unfold in_window. rewrite andb_true_iff, log_of_iff, Z.leb_le. tauto.
Qed.

Lemma is_up_iff : forall l, is_up l = true <-> UptimeLog.status l = UP.
Proof.
  intros l. unfold is_up. destruct (UptimeLog.status l); simpl;
    split; congruence.
Qed.

(** C3 (amended): with W the monitor's logs of the last 24 hours in store
    order and L the first 1000 of them (all of W when it has at most 1000
    logs), the aggregator leaves the state as it is when L is empty, and
    otherwise sets the monitor's uptime_percentage to
    (number of logs in L with status up) / |L| x 100, where a log counts as
    up only if its status is exactly up; logs, alert settings, outbox and
    every other field of the monitor are untouched. *)
Theorem update_uptime_percentage_first_1000 :
  forall (monitor_id : string) (now : datetime) (st : State),
  let W := filter (in_window monitor_id (now - timedelta_hours 24))
             (uptime_logs st) in
  let L := firstn 1000 W in
  let st' := update_uptime_percentage monitor_id now st in
  (forall l, In l W <-> In l (uptime_logs st)
                        /\ UptimeLog.monitor_id l = monitor_id
                        /\ now - 24 * 3600 * 1000000 <= UptimeLog.timestamp l)
  /\ ((length W <= 1000)%nat -> L = W)
  /\ (L = [] -> st' = st)
  /\ (L <> [] ->
      forall m, find_one (has_id monitor_id) (monitors st) = Some m ->
        exists m',
          find_one (has_id monitor_id) (monitors st') = Some m'
          /\ Monitor.uptime_percentage m'
             = (inject_Z (Z.of_nat (length (filter is_up L)))
                / inject_Z (Z.of_nat (length L)) * 100)%Q
          /\ Monitor.status m' = Monitor.status m
          /\ Monitor.last_checked m' = Monitor.last_checked m
          /\ Monitor.response_time m' = Monitor.response_time m)
  /\ (forall l, In l (filter is_up L) <-> In l L /\ UptimeLog.status l = UP)
  /\ uptime_logs st' = uptime_logs st
  /\ alert_settings st' = alert_settings st
  /\ outbox st' = outbox st.
Proof.
  intros monitor_id now st W L st'.
  assert (Same : L = find_to_list (in_window monitor_id (now - timedelta_hours 24))
                       1000 (uptime_logs st)) by reflexivity.
  split; [ | split; [ | split; [ | split; [ | split ] ] ] ].
  - intros l. unfold W. rewrite filter_In, in_window_iff.
    unfold timedelta_hours. tauto.
  - intros Len. apply firstn_all2. exact Len.
  - intros Empty. unfold st', update_uptime_percentage. rewrite <- Same, Empty.
    reflexivity.
  - intros NonEmpty m F. unfold st', update_uptime_percentage.
    rewrite <- Same. destruct L as [| l0 rest] eqn:EL; [ contradiction | ].
    cbv zeta. simpl monitors.
    rewrite update_one_find by (intros; apply has_id_apply_set).
    rewrite F. simpl option_map. eexists. split; [ reflexivity | ].
    repeat split.
  - intros l. rewrite filter_In, is_up_iff. tauto.
  - unfold st', update_uptime_percentage. rewrite <- Same.
    destruct L; repeat split.
Qed.

Lemma update_uptime_percentage_first_1000_witness :
  exists m',
    find_one (has_id "m1")
      (monitors (update_uptime_percentage "m1" (timedelta_seconds 100) one_up_log))
    = Some m'
    /\ (Monitor.uptime_percentage m' == 100)%Q.
Proof.
  destruct (update_uptime_percentage_first_1000 "m1" (timedelta_seconds 100)
              one_up_log) as (_ & _ & _ & Ratio & _).
  destruct (Ratio ltac:(discriminate) _ eq_refl) as (m' & F & P & _).
  exists m'. split; [ exact F | ]. rewrite P. reflexivity.
Defined.

(** C3, as stated, fails beyond 1000 logs: of the 1001 logs of the last 24
    hours one is up, but the aggregator reads only the first 1000 and
    stores 0/1000 x 100, which is not 1/1001 x 100. *)
Lemma update_uptime_percentage_ignores_log_1001 :
  length (filter (in_window "m1" (timedelta_seconds 100 - timedelta_hours 24))
            (uptime_logs busy_day)) = 1001%nat
  /\ length (filter is_up
               (filter (in_window "m1" (timedelta_seconds 100 - timedelta_hours 24))
                  (uptime_logs busy_day))) = 1%nat
  /\ map Monitor.uptime_percentage
       (monitors (update_uptime_percentage "m1" (timedelta_seconds 100) busy_day))
     = [ratio_percent 0 1000]
  /\ ~ (ratio_percent 0 1000 == ratio_percent 1 1001)%Q.
Proof.
  split; [ vm_compute; reflexivity | ].
  split; [ vm_compute; reflexivity | ].
  split; [ vm_compute; reflexivity | ].
  vm_compute. discriminate.
Qed.

(** ** Dashboard statistics *)

Lemma status_eqb_iff : forall a b, status_eqb a b = true <-> a = b.
Proof. intros [] []; simpl; split; congruence. Qed.

Lemma count_status_partition :
  forall docs : list Monitor.t,
    count_status UP docs + count_status DOWN docs
    + count_status WARNING docs + count_status UNKNOWN docs
    = Z.of_nat (length docs).
Proof.
  unfold count_status. induction docs as [| m rest IH]; [ reflexivity | ].
  simpl filter. destruct (Monitor.status m); cbn [status_eqb length];
    rewrite ?Nat2Z.inj_succ; lia.
Qed.

Lemma count_status_nonneg : forall s docs, 0 <= count_status s docs.
Proof. intros. unfold count_status. lia. Qed.

Lemma fold_left_uptime :
  forall (docs : list Monitor.t) (acc : Q),
    (fold_left (fun a m => a + Monitor.uptime_percentage m) docs acc
     == acc + fold_right Qplus 0 (map Monitor.uptime_percentage docs))%Q.
Proof.
  induction docs as [| m rest IH]; intros acc; simpl.
  - ring.
  - rewrite IH. ring.
Qed.

(** C10 (amended): the statistics are computed over M, the first 1000
    monitors the store returns (all of them when there are at most 1000):
    total_monitors is |M|, monitors_up and monitors_down count the monitors
    of M whose status is exactly up, respectively exactly down, so that
    those in warning or unknown are in neither count and
    monitors_up + monitors_down <= total_monitors; overall_uptime is the
    arithmetic mean of uptime_percentage over M, and 0 when M is empty. *)
Theorem get_dashboard_stats_first_1000 :
  forall st : State,
  let M := firstn 1000 (monitors st) in
  let s := get_dashboard_stats st in
  ((length (monitors st) <= 1000)%nat -> M = monitors st)
  /\ DashboardStats.total_monitors s = Z.of_nat (length M)
  /\ DashboardStats.monitors_up s
     = Z.of_nat (length (filter (fun m => status_eqb (Monitor.status m) UP) M))
  /\ DashboardStats.monitors_down s
     = Z.of_nat (length (filter (fun m => status_eqb (Monitor.status m) DOWN) M))
  /\ DashboardStats.monitors_up s + DashboardStats.monitors_down s
     + count_status WARNING M + count_status UNKNOWN M
     = DashboardStats.total_monitors s
  /\ DashboardStats.monitors_up s + DashboardStats.monitors_down s
     <= DashboardStats.total_monitors s
  /\ (M = [] -> DashboardStats.overall_uptime s = 0%Q)
  /\ (M <> [] ->
      (DashboardStats.overall_uptime s
       == fold_right Qplus 0 (map Monitor.uptime_percentage M)
          / inject_Z (Z.of_nat (length M)))%Q).
Proof.
  intros st M s.
  assert (EM : find_to_list (fun _ : Monitor.t => true) 1000 (monitors st) = M).
  { unfold find_to_list. rewrite filter_everything. reflexivity. }
  unfold s, get_dashboard_stats. rewrite EM. simpl.
  pose proof (count_status_partition M) as Part.
  pose proof (count_status_nonneg WARNING M) as W.
  pose proof (count_status_nonneg UNKNOWN M) as U.
  unfold count_status in *.
  repeat match goal with |- _ /\ _ => split end; try reflexivity.
  - intros Len. apply firstn_all2. exact Len.
  - exact Part.
  - lia.
  - intros ->. reflexivity.
  - intros NE. destruct M as [| m rest]; [ contradiction | ].
    replace (0 <? Z.of_nat (length (m :: rest))) with true
      by (symmetry; apply Z.ltb_lt; simpl length; lia).
    unfold sum_uptime. rewrite fold_left_uptime. 
    apply Qdiv_comp; [ ring | reflexivity ].
Qed.

Lemma get_dashboard_stats_first_1000_witness :
  DashboardStats.total_monitors (get_dashboard_stats small_fleet) = 2
  /\ DashboardStats.monitors_up (get_dashboard_stats small_fleet) = 1
  /\ DashboardStats.monitors_down (get_dashboard_stats small_fleet) = 0
  /\ (DashboardStats.overall_uptime (get_dashboard_stats small_fleet) == 75)%Q.
Proof.
  destruct (get_dashboard_stats_first_1000 small_fleet)
    as (_ & Total & Up & Down & _ & _ & _ & Mean).
  split; [ exact Total | split; [ exact Up | split; [ exact Down | ] ] ].
  rewrite (Mean ltac:(discriminate)). reflexivity.
Defined.

(** C10, as stated, fails beyond 1000 monitors: the store holds 1001
    monitors, one of them up, whose mean uptime is 100/1001, but the
    statistics report 1000 monitors, none up, and an overall uptime of 0. *)
Lemma get_dashboard_stats_ignores_monitor_1001 :
  length (monitors crowded) = 1001%nat
  /\ count_status UP (monitors crowded) = 1
  /\ DashboardStats.total_monitors (get_dashboard_stats crowded) = 1000
  /\ DashboardStats.monitors_up (get_dashboard_stats crowded) = 0
  /\ (DashboardStats.overall_uptime (get_dashboard_stats crowded) == 0)%Q
  /\ ~ (sum_uptime (monitors crowded) / inject_Z 1001 == 0)%Q.
Proof.
  split; [ vm_compute; reflexivity | ].
  split; [ vm_compute; reflexivity | ].
  split; [ vm_compute; reflexivity | ].
  split; [ vm_compute; reflexivity | ].
  split; [ vm_compute; reflexivity | ].
  vm_compute. discriminate.
Qed.

(** ** Alerts on status changes *)

Lemma status_change_alerts_unknown :
  forall m status st, status_change_alerts m UNKNOWN status st = [].
Proof.
  intros. unfold status_change_alerts. simpl. rewrite andb_false_r. reflexivity.
Qed.

Lemma status_change_alerts_unchanged :
  forall m status st, status_change_alerts m status status st = [].
Proof.
  intros. unfold status_change_alerts.
  replace (status_eqb status status) with true
    by (symmetry; apply status_eqb_iff; reflexivity).
  reflexivity.
Qed.

(** What one alert settings record yields once a change to [status] has been
    detected: nothing unless e-mail is enabled and the flag for the new
    status is set ([alert_on_up] for up, [alert_on_down] for down and
    warning); the DOWN template only for the status down, the recovery
    template for up and for warning. *)
Lemma alert_one_cases :
  forall m status a,
    alert_one m status a
    = if AlertSettings.email_enabled a then
        match status with
        | DOWN =>
            if AlertSettings.alert_on_down a
            then [mkEmail DownAlert (AlertSettings.email_address a)
                    (Monitor.name m) (representative_url m)]
            else []
        | UP =>
            if AlertSettings.alert_on_up a
            then [mkEmail Recovery (AlertSettings.email_address a)
                    (Monitor.name m) (representative_url m)]
            else []
        | WARNING =>
            if AlertSettings.alert_on_down a
            then [mkEmail Recovery (AlertSettings.email_address a)
                    (Monitor.name m) (representative_url m)]
            else []
        | UNKNOWN => []
        end
      else [].
Proof.
  intros m status a. unfold alert_one, should_alert, send_alert_email.
  destruct status, (AlertSettings.alert_on_down a),
    (AlertSettings.alert_on_up a), (AlertSettings.email_enabled a); reflexivity.
Qed.

(** C2 (the behaviour of the code on the failing input): the monitor goes
    from up to warning with alert_on_down set and alert_on_up cleared, and
    the one message handed to the transport uses the recovery template
    ("... is back UP"), not the DOWN template. *)
Theorem warning_alert_uses_recovery_template :
  map Monitor.status (monitors cert_up) = [UP]
  /\ outbox cert_up = []
  /\ map Monitor.status (monitors cert_expiring) = [WARNING]
  /\ map UptimeLog.error_message (uptime_logs cert_expiring)
     = [None; Some "Certificate expires in 10 days"]
  /\ outbox cert_expiring = [mkEmail Recovery "a@b" "Cert" "example.com"].
Proof. repeat split. Qed.

(** * Further properties of the server *)

(** ** Substring tests *)

Lemma prefix_iff :
  forall a s, String.prefix a s = true <-> exists post, s = a ++ post.
Proof.
  induction a as [| c a IH]; intros s.
  - split; [ intros _; exists s; reflexivity | intros _; destruct s; reflexivity ].
  - destruct s as [| c' s]; simpl;
      [ split; [ discriminate | intros (post & E); discriminate ] | ].
    destruct (ascii_dec c c') as [-> | NE].
    + rewrite IH. split; intros (post & E); exists post; congruence.
    + split; [ discriminate | intros (post & E); congruence ].
Qed.

Lemma contains_iff :
  forall sub s, contains sub s = true <-> is_substring sub s.
Proof.
  intros sub s. unfold is_substring. split.
  - induction s as [| c rest IH]; cbn [contains]; rewrite orb_true_iff.
    + intros [P | F]; [ | discriminate ].
      apply prefix_iff in P. destruct P as (post & E). exists "", post. exact E.
    + intros [P | C].
      * apply prefix_iff in P. destruct P as (post & E). exists "", post. exact E.
      * destruct (IH C) as (pre & post & E). exists (String c pre), post.
        simpl. rewrite E. reflexivity.
  - intros (pre & post & E). revert s E.
    induction pre as [| c pre IH]; intros s E.
    + simpl in E. assert (P : String.prefix sub s = true)
        by (apply prefix_iff; exists post; exact E).
      destruct s; cbn [contains]; rewrite P; reflexivity.
    + subst s. cbn [contains append]. rewrite (IH _ eq_refl). apply orb_true_r.
Qed.

Lemma count_positive_iff :
  forall sub s, (0 < count sub s)%nat <-> contains sub s = true.
Proof.
  intros sub s. unfold count.
  induction s as [| c rest IH]; cbn [count_from contains].
  - destruct (String.prefix sub ""); simpl; split; intros; try lia; congruence.
  - destruct (String.prefix sub (String c rest)); cbn [orb].
    + split; intros; [ reflexivity | lia ].
    + exact IH.
Qed.

(** ** DNS probe *)

(** X1: when the resolver answers, [check_dns_resolution] is UP if no
    expected result is given (absent or empty) or if the expected text occurs
    in the answers joined by ", ", and DOWN with the message
    "Expected '...' but got '...'" otherwise; the joined answers are returned
    in every case. *)
Theorem check_dns_resolution_expected_substring :
  forall (host : option string) (server rtype : string)
         (expected : option string) (timeout : Z) (answers : list string)
         (elapsed : Q),
  let resolved := String.concat ", " answers in
  let r := check_dns_resolution host server rtype expected timeout
             (DnsAnswers answers) elapsed in
  (expected = None \/ expected = Some "" ->
   r = Return (UP, Some elapsed, None, Some resolved))
  /\ (forall e, expected = Some e -> e <> "" -> is_substring e resolved ->
      r = Return (UP, Some elapsed, None, Some resolved))
  /\ (forall e, expected = Some e -> e <> "" -> ~ is_substring e resolved ->
      r = Return (DOWN, Some elapsed,
                  Some ("Expected '" ++ e ++ "' but got '" ++ resolved ++ "'"),
                  Some resolved)).
Proof.
  intros host server rtype expected timeout answers elapsed resolved r.
  subst r. unfold check_dns_resolution, check_dns_resolution_try. fold resolved.
  split; [ | split ].
  - intros [-> | ->]; reflexivity.
  - intros e -> NE S. apply contains_iff in S.
    destruct (String.eqb_spec e "") as [| _]; [ contradiction | ].
    simpl. rewrite S. reflexivity.
  - intros e -> NE S.
    destruct (String.eqb_spec e "") as [| _]; [ contradiction | ].
    destruct (contains e resolved) eqn:C.
    + exfalso. apply S. apply contains_iff. exact C.
    + reflexivity.
Qed.

Lemma check_dns_resolution_expected_substring_witness :
  check_dns_resolution (Some "example.com") "8.8.8.8" "A" (Some "1, 2") 10
    (DnsAnswers ["1.1.1.1"; "2.2.2.2"]) (1 # 10)
  = Return (UP, Some (1 # 10), None, Some "1.1.1.1, 2.2.2.2").
Proof.
  destruct (check_dns_resolution_expected_substring (Some "example.com")
              "8.8.8.8" "A" (Some "1, 2") 10 ["1.1.1.1"; "2.2.2.2"] (1 # 10))
    as (_ & Found & _).
  apply (Found "1, 2" eq_refl).
  - discriminate.
  - exists "1.1.1.", ".2.2.2". reflexivity.
Defined.

(** ** Keyword probe *)

(** X2: with match type "contains", [check_keyword] is UP exactly when the
    page is served with status 200 and the keyword occurs in it, and then
    reports a positive number of occurrences; a page without the keyword is
    DOWN "Keyword '...' not found" with no occurrence, and any other status
    is DOWN "HTTP <code>" with found = False and count 0. *)
Theorem check_keyword_contains `{Runtime} :
  forall (url : option string) (keyword : string) (timeout code : Z)
         (content : string) (elapsed : Q),
  let r := check_keyword url (Some keyword) "contains" timeout
             (KeywordResponse code content) elapsed in
  (code <> 200 ->
   r = Return (DOWN, Some elapsed, Some ("HTTP " ++ str_int code), false, 0))
  /\ (code = 200 -> is_substring keyword content ->
      r = Return (UP, Some elapsed, None, true, Z.of_nat (count keyword content))
      /\ 0 < Z.of_nat (count keyword content))
  /\ (code = 200 -> ~ is_substring keyword content ->
      r = Return (DOWN, Some elapsed,
                  Some ("Keyword '" ++ keyword ++ "' not found"), false, 0)).
Proof.
  intros url keyword timeout code content elapsed r. subst r.
  unfold check_keyword, check_keyword_try, keyword_match.
  split; [ | split ].
  - intros NE. destruct (Z.eqb_spec code 200); [ contradiction | reflexivity ].
  - intros -> S. apply contains_iff in S. simpl. rewrite S. simpl.
    split; [ reflexivity | ]. apply count_positive_iff in S. lia.
  - intros -> S. simpl.
    destruct (contains keyword content) eqn:C.
    + exfalso. apply S. apply contains_iff. exact C.
    + assert (Z0 : count keyword content = 0%nat).
      { destruct (count keyword content) eqn:N; auto.
        assert (P : (0 < count keyword content)%nat) by lia.
        apply count_positive_iff in P. congruence. }
      simpl. rewrite Z0. reflexivity.
Qed.

Lemma check_keyword_contains_witness :
  @check_keyword sample_runtime (Some "https://example.com") (Some "ab")
    "contains" 10 (KeywordResponse 200 "xxabyyab") (1 # 10)
  = Return (UP, Some (1 # 10), None, true, 2).
Proof.
  destruct (@check_keyword_contains sample_runtime (Some "https://example.com")
              "ab" 10 200 "xxabyyab" (1 # 10)) as (_ & Found & _).
  destruct (Found eq_refl) as [E _].
  - exists "xx", "yyab". reflexivity.
  - exact E.
Defined.

(** X3: the match type is compared literally with "contains", "exact" and
    "regex": for any other text (a different capitalisation included) a
    page served with status 200 is reported DOWN "Keyword '...' not found",
    with found = False and count 0, whatever the page contains. *)
Theorem check_keyword_unknown_match_type `{Runtime} :
  forall (url : option string) (keyword match_type : string) (timeout : Z)
         (content : string) (elapsed : Q),
    match_type <> "contains" -> match_type <> "exact" -> match_type <> "regex" ->
    check_keyword url (Some keyword) match_type timeout
      (KeywordResponse 200 content) elapsed
    = Return (DOWN, Some elapsed,
              Some ("Keyword '" ++ keyword ++ "' not found"), false, 0).
Proof.
  intros url keyword match_type timeout content elapsed N1 N2 N3.
  unfold check_keyword, check_keyword_try, keyword_match. simpl.
  destruct (String.eqb_spec match_type "contains"); [ contradiction | ].
  destruct (String.eqb_spec match_type "exact"); [ contradiction | ].
  destruct (String.eqb_spec match_type "regex"); [ contradiction | ].
  reflexivity.
Qed.

Lemma check_keyword_unknown_match_type_witness :
  is_substring "ab" "xxabyy"
  /\ @check_keyword sample_runtime (Some "https://example.com") (Some "ab")
       "Contains" 10 (KeywordResponse 200 "xxabyy") (1 # 10)
     = Return (DOWN, Some (1 # 10), Some "Keyword 'ab' not found", false, 0).
Proof.
  split; [ exists "xx", "yy"; reflexivity | ].
  apply (@check_keyword_unknown_match_type sample_runtime); discriminate.
Defined.

(** ** Port probe *)

(** X4: [check_port_connectivity] always answers UP or DOWN with the
    measured time; the port is reported open exactly when the status is UP,
    which happens exactly when the protocol, compared without regard to
    case, is tcp or udp and the connection succeeds; any other protocol is
    DOWN "Unsupported protocol: <protocol>" even if the host is reachable. *)
Theorem check_port_connectivity_open_iff_up :
  forall (host : option string) (port : option Z) (protocol : string)
         (timeout : Z) (o : socket_outcome) (elapsed : Q),
  exists status message port_open,
    check_port_connectivity host port protocol timeout o elapsed
    = Return (status, Some elapsed, message, port_open)
    /\ (status = UP \/ status = DOWN)
    /\ (port_open = true <-> status = UP)
    /\ (status = UP <->
        (lower protocol = "tcp" \/ lower protocol = "udp") /\ o = Connected)
    /\ (lower protocol <> "tcp" -> lower protocol <> "udp" ->
        message = Some ("Unsupported protocol: " ++ protocol)).
Proof.
  intros host port protocol timeout o elapsed.
  unfold check_port_connectivity, connect_try.
  destruct (String.eqb_spec (lower protocol) "tcp") as [T | NT];
    [ | destruct (String.eqb_spec (lower protocol) "udp") as [U | NU] ];
    try (destruct o as [| e]; simpl;
         do 3 eexists; (split; [ reflexivity | ]);
         repeat split; auto; try discriminate; try tauto;
         try (intros [_ D]; discriminate); intros; contradiction).
Qed.

Lemma check_port_connectivity_open_iff_up_witness :
  check_port_connectivity (Some "example.com") (Some 443) "TCP" 10 Connected 1
  = Return (UP, Some 1%Q, None, true)
  /\ check_port_connectivity (Some "example.com") (Some 443) "icmp" 10 Connected 1
     = Return (DOWN, Some 1%Q, Some "Unsupported protocol: icmp", false).
Proof.
  split.
  - destruct (check_port_connectivity_open_iff_up (Some "example.com")
                (Some 443) "TCP" 10 Connected 1)
      as (status & message & port_open & E & _ & Open & Up & _).
    assert (S : status = UP) by (apply Up; split; [ left | ]; reflexivity).
    rewrite E. vm_compute in E. injection E as <- <- <-. reflexivity.
  - destruct (check_port_connectivity_open_iff_up (Some "example.com")
                (Some 443) "icmp" 10 Connected 1)
      as (status & message & port_open & E & _ & _ & _ & Unsupported).
    rewrite E. vm_compute in E. injection E as <- <- <-. reflexivity.
Defined.

(** ** Ping probe *)

(** X5: for a ping that exits, [check_ping] reads the packet loss found in
    the output (0 when none is found): a non-zero return code is DOWN
    "Ping failed: <stderr>" without packet loss; with return code 0, a loss
    of 0 is UP, a loss strictly between 0 and 100 is WARNING, a loss of 100
    or more is DOWN "100% packet loss" without times; in particular an
    output in which neither the loss nor the round-trip times are found is
    UP with a loss of 0 and no response time. *)
Theorem check_ping_classification :
  forall (host : option string) (count size timeout returncode : Z)
         (loss : option Q) (rtt : option (Q * Q * Q)) (stderr : string),
  let r := check_ping host count size timeout
             (PingExited returncode loss rtt stderr) in
  let packet_loss := match loss with Some l => l | None => 0%Q end in
  (returncode <> 0 ->
   r = Return (DOWN, None, Some ("Ping failed: " ++ stderr),
               None, None, None, None))
  /\ (returncode = 0 -> (packet_loss == 0)%Q ->
      exists rt mn mx,
        r = Return (UP, rt, None, Some packet_loss, mn, mx, rt))
  /\ (returncode = 0 -> ~ (packet_loss == 0)%Q -> (packet_loss < 100)%Q ->
      exists rt mn mx,
        r = Return (WARNING, rt, None, Some packet_loss, mn, mx, rt))
  /\ (returncode = 0 -> (100 <= packet_loss)%Q ->
      r = Return (DOWN, None, Some "100% packet loss", Some packet_loss,
                  None, None, None))
  /\ (returncode = 0 -> loss = None -> rtt = None ->
      r = Return (UP, None, None, Some 0%Q, None, None, None)).
Proof.
  intros host count size timeout returncode loss rtt stderr r packet_loss.
  subst r. unfold check_ping, check_ping_try. fold packet_loss.
  split; [ | split; [ | split; [ | split ] ] ].
  - intros NE. destruct (Z.eqb_spec returncode 0); [ contradiction | reflexivity ].
  - intros -> Z0. simpl.
    assert (L : Qlt_bool packet_loss 100 = true).
    { apply Qlt_bool_iff. rewrite Z0. reflexivity. }
    rewrite L. apply Qeq_bool_iff in Z0. rewrite Z0.
    do 3 eexists. reflexivity.
  - intros -> NZ L. simpl. apply Qlt_bool_iff in L. rewrite L.
    destruct (Qeq_bool packet_loss 0) eqn:E.
    + exfalso. apply NZ. apply Qeq_bool_iff. exact E.
    + do 3 eexists. reflexivity.
  - intros -> G. simpl.
    destruct (Qlt_bool packet_loss 100) eqn:L; [ | reflexivity ].
    apply Qlt_bool_iff in L. exfalso. exact (Qlt_not_le _ _ L G).
  - intros -> -> ->. reflexivity.
Qed.

Lemma check_ping_classification_witness :
  check_ping (Some "example.com") 4 32 10
    (PingExited 0 (Some 25%Q) (Some (1%Q, 2%Q, 3%Q)) "")
  = Return (WARNING, Some (2 / 1000)%Q, None, Some 25%Q,
            Some (1 / 1000)%Q, Some (3 / 1000)%Q, Some (2 / 1000)%Q)
  /\ check_ping (Some "example.com") 4 32 10 (PingExited 0 None None "")
     = Return (UP, None, None, Some 0%Q, None, None, None).
Proof.
  destruct (check_ping_classification (Some "example.com") 4 32 10 0
              (Some 25%Q) (Some (1%Q, 2%Q, 3%Q)) "")
    as (_ & _ & Warn & _).
  destruct (Warn eq_refl) as (rt & mn & mx & E);
    [ discriminate | reflexivity | ].
  split.
  - rewrite E. vm_compute in E. injection E as <- <- <-. reflexivity.
  - destruct (check_ping_classification (Some "example.com") 4 32 10 0
                None None "") as (_ & _ & _ & _ & Silent).
    exact (Silent eq_refl eq_refl eq_refl).
Defined.

(** ** JSON paths *)

Lemma split_first_key :
  forall sep s, exists key rest, split sep s = key :: rest.
Proof.
  intros sep s. destruct s as [| c s]; simpl.
  - eexists. eexists. reflexivity.
  - destruct (Ascii.eqb c sep); [ eexists; eexists; reflexivity | ].
    destruct (split sep s); eexists; eexists; reflexivity.
Qed.

(** X6: a JSON path only walks through objects. When the status code is the
    expected one, no response-time limit is set and a path and an expected
    value are given, a body that decodes to anything but an object (an
    array, a string, a number, true, false, null) makes the probe DOWN with
    a message, the status code received, and the JSON validation flag
    False. *)
Theorem check_api_endpoint_body_must_be_object `{Runtime} :
  forall url method headers body (expected : Z) (path value : string)
         (timeout size : Z) (j : json) (elapsed : Q),
    path <> "" -> value <> "" ->
    (forall entries, j <> JDict entries) ->
    exists m,
      check_api_endpoint url method headers body expected None (Some path)
        (Some value) timeout (ApiResponse expected size (Return j)) elapsed
      = Return (DOWN, Some elapsed, Some m, expected, false, Some size).
Proof.
  intros url method headers body expected path value timeout size j elapsed
    Hp Hv NotObject.
  unfold check_api_endpoint, check_api_endpoint_try.
  rewrite Z.eqb_refl. simpl.
  destruct (String.eqb_spec path "") as [| _]; [ contradiction | ].
  destruct (String.eqb_spec value "") as [| _]; [ contradiction | ].
  simpl. unfold json_validation.
  destruct (split_first_key "." path) as (key & rest & ->).
  destruct j; simpl; try (eexists; reflexivity).
  exfalso. exact (NotObject _ eq_refl).
Qed.

Lemma check_api_endpoint_body_must_be_object_witness :
  exists m,
    @check_api_endpoint sample_runtime (Some "https://x/y") "GET" None None 200
      None (Some "0.status") (Some "ok") 10
      (ApiResponse 200 17 (Return (JList [JDict [("status", JStr "ok")]])))
      (1 # 10)
    = Return (DOWN, Some (1 # 10), Some m, 200, false, Some 17).
Proof.
  apply (@check_api_endpoint_body_must_be_object sample_runtime);
    discriminate.
Defined.

(** ** Statuses a check can produce *)

(** Case analysis on the innermost scrutinee first. *)
Ltac split_cases :=
  repeat match goal with
         | |- context [match ?x with _ => _ end] =>
             lazymatch x with
             | context [match _ with _ => _ end] => fail
             | _ => destruct x; simpl
             end
         end.

Lemma dispatch_status `{Runtime} :
  forall m env c,
    dispatch m env = Return c ->
    c_status c <> UNKNOWN
    /\ (In (Monitor.monitor_type m) [HTTP; HTTPS; DNS; PORT; KEYWORD] ->
        c_status c <> WARNING).
Proof.
  intros m env c. unfold dispatch.
  destruct (Monitor.monitor_type m); simpl;
    unfold check_url, check_url_try, check_ssl_certificate,
      check_ssl_certificate_try, check_dns_resolution,
      check_dns_resolution_try, check_port_connectivity, connect_try,
      check_ping, check_ping_try, check_keyword, check_keyword_try,
      keyword_match, check_api_endpoint, check_api_endpoint_try,
      json_validation, try_except, bind;
    split_cases; try discriminate;
    intros E; injection E as <-; simpl;
    (split; [ discriminate | ]);
    try discriminate;
    intros [D | [D | [D | [D | [D | []]]]]]; discriminate.
Qed.

(** X7: whatever the outside world answers, a check never leaves the status
    unknown, and a monitor of type http, https, dns, port or keyword is
    never put in warning: only certificate, ping and API checks can warn. *)
Theorem perform_check_status_range `{Runtime} :
  forall (m : Monitor.t) (env : Environment),
    c_status (perform_check m env) <> UNKNOWN
    /\ (In (Monitor.monitor_type m) [HTTP; HTTPS; DNS; PORT; KEYWORD] ->
        c_status (perform_check m env) <> WARNING).
Proof.
  intros m env. unfold perform_check.
  destruct (dispatch m env) as [c | e] eqn:D.
  - exact (dispatch_status m env c D).
  - simpl. split; intros; discriminate.
Qed.

Lemma perform_check_status_range_witness :
  c_status
    (@perform_check sample_runtime
       (Monitor.of_create (https_monitor "Home" "https://example.com") "m1" 0)
       (answers 503 0 100 "l1"))
  <> WARNING.
Proof.
  apply (@perform_check_status_range sample_runtime). simpl. tauto.
Defined.

(** ** Creating monitors *)

Lemma truthy_str_given : forall s, truthy_str s = true <-> given s.
Proof.
  intros [v |]; unfold given; simpl.
  - destruct (String.eqb_spec v "") as [-> | NE]; simpl.
    + split; [ discriminate | intros (v & [= <-] & N); contradiction ].
    + split; [ intros _; exists v; auto | reflexivity ].
  - split; [ discriminate | intros (v & E & _); discriminate ].
Qed.

Lemma truthy_int_nonzero :
  forall z, truthy_int z = true <-> exists n, z = Some n /\ n <> 0.
Proof.
  intros [n |]; simpl.
  - destruct (Z.eqb_spec n 0) as [-> | NE]; simpl.
    + split; [ discriminate | intros (n & [= <-] & N); contradiction ].
    + split; [ intros _; exists n; auto | reflexivity ].
  - split; [ discriminate | intros (n & E & _); discriminate ].
Qed.

Lemma missing_field_none_iff :
  forall d, missing_field d = None <-> required_fields_present d.
Proof.
  intros d. unfold missing_field, required_fields_present.
  destruct (MonitorCreate.monitor_type d);
    rewrite <- ?truthy_int_nonzero, <- ?truthy_str_given;
    repeat match goal with
           | |- context [truthy_str ?x] => destruct (truthy_str x)
           | |- context [truthy_int ?x] => destruct (truthy_int x)
           end;
    simpl; intuition congruence.
Qed.

Lemma find_one_app_last :
  forall (A : Type) (p : A -> bool) (docs : list A) (d : A),
    find_one p docs = None -> find_one p (docs ++ [d]) = find_one p [d].
Proof.
  intros A p docs d. unfold find_one.
  induction docs as [| x rest IH]; simpl; auto.
  destruct (p x); [ discriminate | exact IH ].
Qed.

Lemma find_one_app_first :
  forall (A : Type) (p : A -> bool) (docs : list A) (d : A),
    p d = false -> find_one p (docs ++ [d]) = find_one p docs.
Proof.
  intros A p docs d N. unfold find_one.
  induction docs as [| x rest IH]; simpl.
  - rewrite N. reflexivity.
  - destruct (p x); [ reflexivity | exact IH ].
Qed.

(** X8: POST /api/monitors accepts a request exactly when the fields its
    monitor type requires are given and not empty (for a port monitor the
    port number must also be non-zero). An accepted request appends one
    monitor with status unknown, no last check and 0 % uptime, switches the
    monitoring flag on and touches nothing else; the monitor can then be
    read back under its identifier if no earlier monitor has it, and the
    other identifiers read as before. A rejected request is answered 400 and
    leaves the state as it was. *)
Theorem create_monitor_accepts_iff_required :
  forall (d : MonitorCreate.t) (new_id : string) (now : datetime) (st : State),
  let m := Monitor.of_create d new_id now in
  (required_fields_present d ->
   exists st',
     create_monitor d new_id now st = (st', Ok m)
     /\ monitors st' = (monitors st ++ [m])%list
     /\ Monitor.status m = UNKNOWN
     /\ Monitor.last_checked m = None
     /\ Monitor.uptime_percentage m = 0%Q
     /\ monitoring_active st' = true
     /\ uptime_logs st' = uptime_logs st
     /\ alert_settings st' = alert_settings st
     /\ outbox st' = outbox st
     /\ ((forall m0, In m0 (monitors st) -> Monitor.id m0 <> new_id) ->
         get_monitor new_id st' = Ok m)
     /\ (forall other, other <> new_id ->
                       get_monitor other st' = get_monitor other st))
  /\ (~ required_fields_present d ->
      exists detail,
        create_monitor d new_id now st = (st, HTTPException 400 detail)).
Proof.
  intros d new_id now st m. split.
  - intros R. apply missing_field_none_iff in R.
    unfold create_monitor. rewrite R. fold m.
    eexists. split; [ reflexivity | ]. simpl.
    repeat match goal with |- _ /\ _ => split end; try reflexivity.
    + intros Fresh. unfold get_monitor, insert_one. simpl.
      rewrite find_one_app_last.
      * unfold find_one. simpl. unfold has_id at 1. simpl.
        rewrite String.eqb_refl. reflexivity.
      * apply find_one_none_iff. intros m0 I.
        destruct (has_id new_id m0) eqn:P; auto.
        apply has_id_iff in P. exfalso. exact (Fresh m0 I P).
    + intros other NE. unfold get_monitor, insert_one. simpl.
      rewrite find_one_app_first; [ reflexivity | ].
      unfold has_id. simpl. apply String.eqb_neq. congruence.
  - intros NR. unfold create_monitor.
    destruct (missing_field d) as [detail |] eqn:M.
    + exists detail. reflexivity.
    + exfalso. apply NR. apply missing_field_none_iff. exact M.
Qed.

Lemma create_monitor_accepts_iff_required_witness :
  get_monitor "p1" (fst (create_monitor (port_monitor 443) "p1" 7 empty_state))
  = Ok (Monitor.of_create (port_monitor 443) "p1" 7)
  /\ exists detail,
       create_monitor (port_monitor 0) "p2" 8 empty_state
       = (empty_state, HTTPException 400 detail).
Proof.
  destruct (create_monitor_accepts_iff_required (port_monitor 443) "p1" 7
              empty_state) as [Accept _].
  destruct (create_monitor_accepts_iff_required (port_monitor 0) "p2" 8
              empty_state) as [_ Reject].
  split.
  - destruct Accept as (st' & E & _ & _ & _ & _ & _ & _ & _ & _ & Read & _).
    + split; [ eexists; split; [ reflexivity | discriminate ] | ].
      exists 443. split; [ reflexivity | discriminate ].
    + rewrite E. apply Read. intros m0 [].
  - apply Reject. intros [_ (n & E & NZ)]. injection E as <-. apply NZ. reflexivity.
Defined.

(** ** Alert settings: create, read, delete *)

Section DeleteOneFacts.

Context {A : Type}.

Lemma delete_one_keeps_others :
  forall (p q : A -> bool) (docs : list A),
    (forall d, q d = true -> p d = false) ->
    filter q (fst (delete_one p docs)) = filter q docs.
Proof.
  intros p q docs Disjoint. induction docs as [| d rest IH]; simpl; auto.
  destruct (p d) eqn:P; simpl.
  - destruct (q d) eqn:Q; auto. rewrite (Disjoint d Q) in P. discriminate.
  - destruct (delete_one p rest) as [rest' n]. simpl in *.
    rewrite IH. reflexivity.
Qed.

Lemma find_one_filter :
  forall (p : A -> bool) (docs : list A),
    find_one p docs = hd_error (filter p docs).
Proof.
  intros p docs. unfold find_one.
  induction docs as [| d rest IH]; simpl; auto.
  destruct (p d); auto.
Qed.

Lemma delete_one_removes_first :
  forall (p : A -> bool) (docs : list A),
    filter p (fst (delete_one p docs)) = tl (filter p docs).
Proof.
  intros p. induction docs as [| d rest IH]; simpl; auto.
  destruct (p d) eqn:P; simpl; auto.
  destruct (delete_one p rest) as [rest' n]. simpl in *.
  rewrite P. exact IH.
Qed.

Lemma delete_one_length :
  forall (p : A -> bool) (docs : list A),
    Z.of_nat (length (fst (delete_one p docs))) + snd (delete_one p docs)
    = Z.of_nat (length docs).
Proof.
  intros p. induction docs as [| d rest IH]; [ reflexivity | ].
  cbn [delete_one]. destruct (p d).
  - cbn [fst snd length]. lia.
  - destruct (delete_one p rest) as [rest' n]. cbn [fst snd length] in *. lia.
Qed.

End DeleteOneFacts.

(** X9: when a monitor with the given identifier exists and has no alert
    settings yet, POST /api/alerts appends one record with e-mail enabled
    and the address and flags of the request, changes nothing else, and
    GET /api/alerts/{monitor_id} then returns that record, while the
    settings of every other monitor read as before. *)
Theorem create_alert_settings_then_get :
  forall (d : AlertSettingsCreate.t) (new_id : string) (now : datetime)
         (st : State),
  let monitor_id := AlertSettingsCreate.monitor_id d in
  let a := AlertSettings.of_create d new_id now in
  (exists m, In m (monitors st) /\ Monitor.id m = monitor_id) ->
  (forall a0, In a0 (alert_settings st) ->
              AlertSettings.monitor_id a0 <> monitor_id) ->
  exists st',
    create_alert_settings d new_id now st = (st', Ok a)
    /\ alert_settings st' = (alert_settings st ++ [a])%list
    /\ AlertSettings.email_enabled a = true
    /\ AlertSettings.email_address a = AlertSettingsCreate.email_address d
    /\ AlertSettings.alert_on_down a = AlertSettingsCreate.alert_on_down d
    /\ AlertSettings.alert_on_up a = AlertSettingsCreate.alert_on_up d
    /\ get_alert_settings monitor_id st' = Ok a
    /\ (forall other, other <> monitor_id ->
                      get_alert_settings other st' = get_alert_settings other st)
    /\ monitors st' = monitors st
    /\ uptime_logs st' = uptime_logs st
    /\ outbox st' = outbox st.
Proof.
  intros d new_id now st monitor_id a (m & I & E) Fresh.
  assert (FM : exists m', find_one (has_id monitor_id) (monitors st) = Some m').
  { apply find_one_some_iff. exists m. split; auto. apply has_id_iff. exact E. }
  destruct FM as (m' & FM).
  assert (FA : find_one (alert_of monitor_id) (alert_settings st) = None).
  { apply find_one_none_iff. intros a0 Ia.
    destruct (alert_of monitor_id a0) eqn:P; auto.
    apply alert_of_iff in P. exfalso. exact (Fresh a0 Ia P). }
  unfold create_alert_settings. fold monitor_id. rewrite FM, FA. fold a.
  eexists. split; [ reflexivity | ]. simpl.
  repeat match goal with |- _ /\ _ => split end; try reflexivity.
  - unfold get_alert_settings, insert_one. simpl.
    rewrite find_one_app_last by exact FA.
    unfold find_one. simpl. unfold alert_of at 1. simpl. fold monitor_id.
    rewrite String.eqb_refl. reflexivity.
  - intros other NE. unfold get_alert_settings, insert_one. simpl.
    rewrite find_one_app_first; [ reflexivity | ].
    unfold alert_of. simpl. fold monitor_id. apply String.eqb_neq. congruence.
Qed.

Lemma create_alert_settings_then_get_witness :
  get_alert_settings "m1" one_monitor_with_alerts
  = Ok (AlertSettings.mk "a1" "m1" true "a@b" true true 1).
Proof.
  destruct (create_alert_settings_then_get alert_for_m1 "a1" 1
              (fst (create_monitor (https_monitor "Home" "https://example.com")
                      "m1" 0 empty_state)))
    as (st' & E & _ & _ & _ & _ & _ & Read & _).
  - eexists. split; [ left; reflexivity | reflexivity ].
  - intros a0 [].
  - vm_compute in E. injection E as <-. exact Read.
Defined.

(** X10: DELETE /api/alerts/{monitor_id} answers 404 and changes nothing
    when the monitor has no alert settings; otherwise it removes the first
    record of that monitor and no other, so that with at most one record per
    monitor a following GET for the monitor answers 404, while the settings
    of every other monitor, the monitors, the logs and the outbox are as
    before. *)
Theorem delete_alert_settings_then_get :
  forall (monitor_id : string) (st : State),
  let st' := fst (delete_alert_settings monitor_id st) in
  ((forall a, In a (alert_settings st) ->
              AlertSettings.monitor_id a <> monitor_id) ->
   delete_alert_settings monitor_id st
   = (st, HTTPException 404 "Alert settings not found"))
  /\ ((exists a, In a (alert_settings st)
                 /\ AlertSettings.monitor_id a = monitor_id) ->
      snd (delete_alert_settings monitor_id st)
      = Ok "Alert settings deleted successfully"
      /\ filter (alert_of monitor_id) (alert_settings st')
         = tl (filter (alert_of monitor_id) (alert_settings st))
      /\ (unique_alerts st ->
          get_alert_settings monitor_id st'
          = HTTPException 404 "Alert settings not found"))
  /\ (forall other, other <> monitor_id ->
                    get_alert_settings other st' = get_alert_settings other st)
  /\ monitors st' = monitors st
  /\ uptime_logs st' = uptime_logs st
  /\ outbox st' = outbox st.
Proof.
  intros monitor_id st st'. subst st'. unfold delete_alert_settings.
  pose proof (delete_one_count (alert_of monitor_id) (alert_settings st)) as C.
  pose proof (delete_one_removes_first (alert_of monitor_id) (alert_settings st))
    as First.
  pose proof (fun other =>
                delete_one_keeps_others (alert_of monitor_id) (alert_of other)
                  (alert_settings st)) as Others.
  destruct (delete_one (alert_of monitor_id) (alert_settings st))
    as [remaining n].
  simpl in C, First, Others.
  split; [ | split; [ | split ] ].
  - intros None_. 
    assert (F : find_one (alert_of monitor_id) (alert_settings st) = None).
    { apply find_one_none_iff. intros a I.
      destruct (alert_of monitor_id a) eqn:P; auto.
      apply alert_of_iff in P. exfalso. exact (None_ a I P). }
    rewrite F in C. subst n. reflexivity.
  - intros (a & I & E).
    assert (F : exists a', find_one (alert_of monitor_id) (alert_settings st)
                           = Some a').
    { apply find_one_some_iff. exists a. split; auto. apply alert_of_iff. exact E. }
    destruct F as (a' & F). rewrite F in C. subst n. simpl.
    split; [ reflexivity | split; [ exact First | ] ].
    intros U. unfold get_alert_settings. simpl. rewrite find_one_filter, First.
    specialize (U monitor_id).
    destruct (filter (alert_of monitor_id) (alert_settings st)) as [| x [| y rest]];
      simpl in *; try reflexivity; lia.
  - intros other NE.
    assert (Same : filter (alert_of other) remaining
                   = filter (alert_of other) (alert_settings st)).
    { apply Others. intros a Q. apply alert_of_iff in Q.
      destruct (alert_of monitor_id a) eqn:P; auto.
      apply alert_of_iff in P. congruence. }
    unfold get_alert_settings.
    destruct (n =? 0); simpl; rewrite !find_one_filter; [ reflexivity | ].
    rewrite Same. reflexivity.
  - destruct (n =? 0); repeat split.
Qed.

Lemma delete_alert_settings_then_get_witness :
  get_alert_settings "m1" (fst (delete_alert_settings "m1" one_monitor_with_alerts))
  = HTTPException 404 "Alert settings not found".
Proof.
  destruct (delete_alert_settings_then_get "m1" one_monitor_with_alerts)
    as (_ & Present & _).
  destruct Present as (_ & _ & Gone).
  - eexists. split; [ left; reflexivity | reflexivity ].
  - apply Gone. intros monitor_id.
    replace (alert_settings one_monitor_with_alerts)
      with [AlertSettings.mk "a1" "m1" true "a@b" true true 1] by reflexivity.
    simpl. destruct (alert_of monitor_id _); simpl; lia.
Defined.

(** ** Deleting a monitor leaves the others alone *)

Lemma delete_many_keeps_others :
  forall (A : Type) (p q : A -> bool) (docs : list A),
    (forall d, q d = true -> p d = false) ->
    filter q (delete_many p docs) = filter q docs.
Proof.
  intros A p q docs Disjoint. unfold delete_many.
  induction docs as [| d rest IH]; simpl; auto.
  destruct (q d) eqn:Q.
  - rewrite (Disjoint d Q). simpl. rewrite Q, IH. reflexivity.
  - destruct (p d); simpl; rewrite ?Q; exact IH.
Qed.

(** X11: DELETE /api/monitors/{monitor_id} answers 404 and changes nothing
    when no monitor has the identifier; otherwise exactly one monitor
    document goes, the first with that identifier, so that when the
    identifier is not shared a following GET answers 404. In both cases every
    other identifier reads as before and keeps all its logs, and the alert
    settings and the outbox are untouched. *)
Theorem delete_monitor_frame :
  forall (monitor_id : string) (st : State),
  let st' := fst (delete_monitor monitor_id st) in
  ((forall m, In m (monitors st) -> Monitor.id m <> monitor_id) ->
   delete_monitor monitor_id st = (st, HTTPException 404 "Monitor not found"))
  /\ ((exists m, In m (monitors st) /\ Monitor.id m = monitor_id) ->
      Z.of_nat (length (monitors st')) + 1 = Z.of_nat (length (monitors st))
      /\ filter (has_id monitor_id) (monitors st')
         = tl (filter (has_id monitor_id) (monitors st))
      /\ ((length (filter (has_id monitor_id) (monitors st)) <= 1)%nat ->
          get_monitor monitor_id st' = HTTPException 404 "Monitor not found"))
  /\ (forall other, other <> monitor_id ->
        get_monitor other st' = get_monitor other st
        /\ filter (log_of other) (uptime_logs st')
           = filter (log_of other) (uptime_logs st))
  /\ alert_settings st' = alert_settings st
  /\ outbox st' = outbox st.
Proof.
  intros monitor_id st st'. subst st'. unfold delete_monitor.
  pose proof (delete_one_count (has_id monitor_id) (monitors st)) as C.
  pose proof (delete_one_removes_first (has_id monitor_id) (monitors st)) as First.
  pose proof (delete_one_length (has_id monitor_id) (monitors st)) as Len.
  pose proof (fun other =>
                delete_one_keeps_others (has_id monitor_id) (has_id other)
                  (monitors st)) as Others.
  destruct (delete_one (has_id monitor_id) (monitors st)) as [remaining n].
  simpl in C, First, Len, Others.
  split; [ | split; [ | split ] ].
  - intros Absent.
    assert (F : find_one (has_id monitor_id) (monitors st) = None).
    { apply find_one_none_iff. intros m I.
      destruct (has_id monitor_id m) eqn:P; auto.
      apply has_id_iff in P. exfalso. exact (Absent m I P). }
    rewrite F in C. subst n. reflexivity.
  - intros (m & I & E).
    assert (F : exists m', find_one (has_id monitor_id) (monitors st) = Some m').
    { apply find_one_some_iff. exists m. split; auto. apply has_id_iff. exact E. }
    destruct F as (m' & F). rewrite F in C. subst n. simpl.
    split; [ lia | split; [ exact First | ] ].
    intros U. unfold get_monitor. simpl. rewrite find_one_filter, First.
    destruct (filter (has_id monitor_id) (monitors st)) as [| x [| y rest]];
      simpl in *; try reflexivity; lia.
  - intros other NE.
    assert (Disjoint : forall m, has_id other m = true ->
                                 has_id monitor_id m = false).
    { intros m Q. apply has_id_iff in Q.
      destruct (has_id monitor_id m) eqn:P; auto.
      apply has_id_iff in P. congruence. }
    assert (DisjointLogs : forall l, log_of other l = true ->
                                     log_of monitor_id l = false).
    { intros l Q. apply log_of_iff in Q.
      destruct (log_of monitor_id l) eqn:P; auto.
      apply log_of_iff in P. congruence. }
    unfold get_monitor.
    destruct (n =? 0); simpl; rewrite ?find_one_filter;
      [ split; reflexivity | ].
    rewrite (Others other Disjoint).
    split; [ reflexivity | ].
    apply delete_many_keeps_others. exact DisjointLogs.
  - destruct (n =? 0); split; reflexivity.
Qed.

Lemma delete_monitor_frame_witness :
  get_monitor "m1" (fst (delete_monitor "m1" one_monitor_with_alerts))
  = HTTPException 404 "Monitor not found".
Proof.
  destruct (delete_monitor_frame "m1" one_monitor_with_alerts)
    as (_ & Present & _).
  destruct Present as (_ & _ & Gone).
  - eexists. split; [ left; reflexivity | reflexivity ].
  - apply Gone. vm_compute. lia.
Defined.

(** ** What a background cycle does to the store *)

Lemma update_uptime_percentage_logs :
  forall monitor_id now st,
    uptime_logs (update_uptime_percentage monitor_id now st) = uptime_logs st.
Proof.
  intros. unfold update_uptime_percentage.
  destruct (find_to_list _ _ _); reflexivity.
Qed.

Lemma update_uptime_percentage_outbox :
  forall monitor_id now st,
    outbox (update_uptime_percentage monitor_id now st) = outbox st.
Proof.
  intros. unfold update_uptime_percentage.
  destruct (find_to_list _ _ _); reflexivity.
Qed.

Lemma update_uptime_percentage_map :
  forall (B : Type) (g : Monitor.t -> B) monitor_id now st,
    (forall u m, g (Monitor.apply_set u m) = g m) ->
    map g (monitors (update_uptime_percentage monitor_id now st))
    = map g (monitors st).
Proof.
  intros B g monitor_id now st Hg. unfold update_uptime_percentage.
  destruct (find_to_list _ _ _); [ reflexivity | ].
  simpl. apply update_one_map. intros. apply Hg.
Qed.

Lemma check_due_monitor_logs `{Runtime} :
  forall monitor env st,
  exists log,
    uptime_logs (check_due_monitor monitor env st)
    = (uptime_logs st ++ [log])%list
    /\ UptimeLog.monitor_id log = Monitor.id monitor
    /\ UptimeLog.status log = c_status (perform_check monitor env)
    /\ UptimeLog.timestamp log = utcnow_log env.
Proof.
  intros monitor env st. unfold check_due_monitor, send_all. simpl.
  rewrite update_uptime_percentage_logs. simpl.
  eexists. split; [ reflexivity | repeat split ].
Qed.

Lemma check_due_monitor_map `{Runtime} :
  forall (B : Type) (g : Monitor.t -> B) monitor env st,
    (forall u m, g (Monitor.apply_set u m) = g m) ->
    map g (monitors (check_due_monitor monitor env st)) = map g (monitors st).
Proof.
  intros B g monitor env st Hg. unfold check_due_monitor, send_all. simpl.
  rewrite update_uptime_percentage_map by exact Hg.
  simpl. apply update_one_map. intros. apply Hg.
Qed.

Lemma timedelta_days_seconds :
  forall s, timedelta_days (timedelta_seconds s) = s / 86400.
Proof.
  intros s. unfold timedelta_days, timedelta_seconds.
  change 86400000000 with (86400 * 1000000).
  apply Z.div_mul_cancel_r; lia.
Qed.

Lemma timedelta_new_seconds :
  forall s,
    (representable_interval s ->
     timedelta_new (timedelta_seconds s) = Return (s * 1000000))
    /\ (~ representable_interval s ->
        exists e, timedelta_new (timedelta_seconds s) = Raise e
                  /\ cls e = OverflowError).
Proof.
  intros s. unfold timedelta_new, representable_interval.
  rewrite timedelta_days_seconds.
  destruct (Z.leb_spec (-999999999) (s / 86400));
    destruct (Z.leb_spec (s / 86400) 999999999); cbn [andb];
    split; intros R; try lia; try reflexivity;
    eexists; split; reflexivity.
Qed.

Lemma is_due_safe :
  forall m now, safe_interval m -> exists due, is_due m now = Return due.
Proof.
  intros m now [N | R]; unfold is_due.
  - rewrite N. eexists. reflexivity.
  - destruct (Monitor.last_checked m); [ | eexists; reflexivity ].
    rewrite (proj1 (timedelta_new_seconds _) R). eexists. reflexivity.
Qed.

Lemma is_due_overflow :
  forall m now,
    ~ safe_interval m ->
    exists e, is_due m now = Raise e /\ cls e = OverflowError.
Proof.
  intros m now U. unfold safe_interval in U. unfold is_due.
  destruct (Monitor.last_checked m) as [last |]; [ | tauto ].
  destruct (proj2 (timedelta_new_seconds (Monitor.check_interval m)))
    as (e & E & C); [ tauto | ].
  rewrite E. exists e. split; [ reflexivity | exact C ].
Qed.

Lemma visit_monitors_logs `{Runtime} :
  forall env (vs : list (nat * Monitor.t)) st,
  exists new_logs,
    uptime_logs (fst (visit_monitors env vs st))
    = (uptime_logs st ++ new_logs)%list
    /\ map UptimeLog.monitor_id new_logs
       = map (fun im => Monitor.id (snd im))
           (filter (found_due env) (before_first_error env vs)).
Proof.
  intros env. induction vs as [| [i monitor] rest IH]; intros st.
  - exists []. rewrite app_nil_r. split; reflexivity.
  - cbn [visit_monitors before_first_error].
    unfold cycle_step, due_test. cbn [fst snd].
    destruct (is_due monitor (utcnow_due (env i))) as [due | e] eqn:D;
      cbn [bind].
    + cbn [filter].
      change (found_due env (i, monitor))
        with (match is_due monitor (utcnow_due (env i)) with
              | Return due => due
              | Raise _ => false
              end).
      rewrite D. destruct due.
      * destruct (check_due_monitor_logs monitor (env i) st)
          as (log & E & Id & _).
        destruct (IH (check_due_monitor monitor (env i) st))
          as (new_logs & E' & M).
        exists (log :: new_logs). rewrite E', E, <- app_assoc.
        split; [ reflexivity | ]. cbn [map snd]. rewrite Id, M. reflexivity.
      * exact (IH st).
    + exists []. rewrite app_nil_r. split; reflexivity.
Qed.

Lemma before_first_error_safe :
  forall env vs,
    (forall im, In im vs -> safe_interval (snd im)) ->
    before_first_error env vs = vs.
Proof.
  intros env. induction vs as [| im rest IH]; intros S; [ reflexivity | ].
  cbn [before_first_error]. unfold due_test.
  destruct (is_due_safe (snd im) (utcnow_due (env (fst im))))
    as (due & ->); [ apply S; left; reflexivity | ].
  rewrite IH; [ reflexivity | ]. intros im' I. apply S. right. exact I.
Qed.

Lemma before_first_error_stops :
  forall env before im after,
    ~ safe_interval (snd im) ->
    forall v, In v (before_first_error env (before ++ im :: after)) ->
              In v before.
Proof.
  intros env. induction before as [| b rest IH]; intros im after U v.
  - cbn [app before_first_error]. unfold due_test.
    destruct (is_due_overflow (snd im) (utcnow_due (env (fst im))) U)
      as (e & -> & _). intros [].
  - cbn [app before_first_error].
    destruct (due_test env b); [ | intros [] ].
    intros [<- | I]; [ left; reflexivity | right ].
    exact (IH im after U v I).
Qed.

Lemma in_combine_snd :
  forall (A B : Type) (xs : list A) (ys : list B) (p : A * B),
    In p (combine xs ys) -> In (snd p) ys.
Proof.
  intros A B xs ys [x y] I. exact (in_combine_r xs ys x y I).
Qed.

(** X12: one pass of the background cycle over a running service visits
    the first 1000 monitors in order, up to the first one whose due test
    raises, and appends exactly one log for every monitor it reaches that is
    due when visited, in visiting order, and none for any other; the logs
    already in the store are kept. The due test raises exactly for a monitor
    that was checked before and whose check_interval is beyond what a
    timedelta holds: when there is none among the first 1000 every visit is
    reached, and when there is one, no monitor behind it gets a log. A
    stopped service changes nothing. *)
Theorem monitor_check_cycle_one_log_per_due_monitor `{Runtime} :
  forall (env : nat -> Environment) (st : State),
    (monitoring_active st = false -> monitor_check_cycle env st = st)
    /\ (monitoring_active st = true ->
        exists new_logs,
          uptime_logs (monitor_check_cycle env st)
          = (uptime_logs st ++ new_logs)%list
          /\ map UptimeLog.monitor_id new_logs
             = map (fun im => Monitor.id (snd im)) (due_visits env st))
    /\ ((forall m, In m (firstn 1000 (monitors st)) -> safe_interval m) ->
        due_visits env st = filter (found_due env) (visits st))
    /\ (forall before i m after,
          visits st = (before ++ (i, m) :: after)%list ->
          ~ safe_interval m ->
          forall v, In v (due_visits env st) -> In v before).
Proof.
  intros env st. split; [ | split; [ | split ] ].
  - unfold monitor_check_cycle. intros ->. reflexivity.
  - unfold monitor_check_cycle. intros ->.
    unfold find_to_list. rewrite filter_everything.
    exact (visit_monitors_logs env (visits st) st).
  - intros S. unfold due_visits. rewrite before_first_error_safe; [ reflexivity | ].
    intros im I. apply S. unfold visits in I.
    exact (in_combine_snd _ _ _ _ im I).
  - intros before i m after V U v I. unfold due_visits in I.
    apply filter_In in I. destruct I as [I _]. rewrite V in I.
    exact (before_first_error_stops env before (i, m) after U v I).
Qed.

Lemma monitor_check_cycle_one_log_per_due_monitor_witness :
  map UptimeLog.monitor_id (uptime_logs cert_up) = ["m1"]
  /\ map UptimeLog.monitor_id
       (uptime_logs
          (@monitor_check_cycle sample_runtime
             (fun _ => answers 200 (whole_days 200) 130 "l2") cert_up))
     = ["m1"]
  /\ map UptimeLog.monitor_id (uptime_logs stuck_fleet) = ["m1"; "m2"]
  /\ uptime_logs
       (@monitor_check_cycle sample_runtime
          (fun _ => answers 200 (whole_days 200) 5000 "l3") stuck_fleet)
     = uptime_logs stuck_fleet.
Proof.
  split; [ reflexivity | split; [ | split; [ reflexivity | ] ] ].
  - destruct (@monitor_check_cycle_one_log_per_due_monitor sample_runtime
                (fun _ => answers 200 (whole_days 200) 130 "l2") cert_up)
      as (_ & Running & _).
    destruct (Running eq_refl) as (new_logs & E & M).
    rewrite E, map_app, M. reflexivity.
  - destruct (@monitor_check_cycle_one_log_per_due_monitor sample_runtime
                (fun _ => answers 200 (whole_days 200) 5000 "l3") stuck_fleet)
      as (_ & Running & _).
    destruct (Running eq_refl) as (new_logs & E & M).
    rewrite E. destruct new_logs; [ apply app_nil_r | discriminate M ].
Defined.

(** X13: the background cycle never adds, removes, reorders or reconfigures
    monitors: after a pass the store holds the same monitors in the same
    order with the same identifier, name, type, interval, timeout and
    creation time; the alert settings and the monitoring flag are
    unchanged. *)
Theorem monitor_check_cycle_keeps_configuration `{Runtime} :
  forall (env : nat -> Environment) (st : State),
  let st' := monitor_check_cycle env st in
  map Monitor.id (monitors st') = map Monitor.id (monitors st)
  /\ map Monitor.name (monitors st') = map Monitor.name (monitors st)
  /\ map Monitor.monitor_type (monitors st') = map Monitor.monitor_type (monitors st)
  /\ map Monitor.check_interval (monitors st')
     = map Monitor.check_interval (monitors st)
  /\ map Monitor.timeout (monitors st') = map Monitor.timeout (monitors st)
  /\ map Monitor.created_at (monitors st') = map Monitor.created_at (monitors st)
  /\ alert_settings st' = alert_settings st
  /\ monitoring_active st' = monitoring_active st.
Proof.
  intros env st st'.
  assert (Keep : forall (B : Type) (g : State -> B),
             (forall monitor e s, g (check_due_monitor monitor e s) = g s) ->
             g st' = g st).
  { intros B g Hg. subst st'. unfold monitor_check_cycle.
    destruct (monitoring_active st); [ | reflexivity ].
    apply visit_monitors_keeps. exact Hg. }
  repeat match goal with |- _ /\ _ => split end.
  1-6: match goal with
       | |- map ?f _ = _ =>
           apply (Keep _ (fun s => map f (monitors s))); intros;
           apply check_due_monitor_map; reflexivity
       end.
  - apply (Keep _ alert_settings). intros.
    apply check_due_monitor_alert_settings.
  - apply (Keep _ monitoring_active). intros.
    unfold check_due_monitor, send_all, update_uptime_percentage. simpl.
    destruct (find_to_list _ _ _); reflexivity.
Qed.

(** ** Who gets mail *)

Lemma in_firstn :
  forall (A : Type) (n : nat) (l : list A) (x : A),
    In x (firstn n l) -> In x l.
Proof.
  intros A n l x I. rewrite <- (firstn_skipn n l). apply in_or_app. left. exact I.
Qed.

Lemma alert_one_recipient :
  forall m status a e,
    In e (alert_one m status a) ->
    to_address e = AlertSettings.email_address a
    /\ about_name e = Monitor.name m
    /\ about_url e = representative_url m
    /\ AlertSettings.email_enabled a = true.
Proof.
  intros m status a e. unfold alert_one, send_alert_email.
  destruct (should_alert status a); simpl; [ | tauto ].
  destruct (AlertSettings.email_enabled a); simpl; [ | tauto ].
  destruct status; intros [<- | []]; repeat split.
Qed.

Lemma alert_one_length :
  forall m status a, (length (alert_one m status a) <= 1)%nat.
Proof.
  intros. unfold alert_one. destruct (_ && _); simpl; lia.
Qed.

(** X14: the check of a due monitor only ever adds to the outbox, and what
    it adds is addressed to subscribers of that very monitor whose e-mail is
    enabled, under the monitor's name. Nothing is added when the monitor had
    never been checked (status unknown) or when the status did not change,
    and with at most one alert settings record per monitor a check sends at
    most one message. *)
Theorem check_due_monitor_mail `{Runtime} :
  forall (monitor : Monitor.t) (env : Environment) (st : State),
  exists new_mail,
    outbox (check_due_monitor monitor env st) = (outbox st ++ new_mail)%list
    /\ (Monitor.status monitor = UNKNOWN -> new_mail = [])
    /\ (c_status (perform_check monitor env) = Monitor.status monitor ->
        new_mail = [])
    /\ (forall e, In e new_mail ->
          about_name e = Monitor.name monitor
          /\ exists a, In a (alert_settings st)
                       /\ AlertSettings.monitor_id a = Monitor.id monitor
                       /\ AlertSettings.email_enabled a = true
                       /\ AlertSettings.email_address a = to_address e)
    /\ (unique_alerts st -> (length new_mail <= 1)%nat).
Proof.
  intros monitor env st. unfold check_due_monitor, send_all. simpl.
  rewrite update_uptime_percentage_outbox. simpl.
  eexists. split; [ reflexivity | ].
  unfold status_change_alerts.
  rewrite update_uptime_percentage_alert_settings. simpl.
  split; [ | split; [ | split ] ].
  - intros ->. simpl. rewrite andb_false_r. reflexivity.
  - intros ->.
    replace (status_eqb (Monitor.status monitor) (Monitor.status monitor))
      with true by (symmetry; apply status_eqb_iff; reflexivity).
    reflexivity.
  - intros e I. destruct (_ && _); [ | destruct I ].
    apply in_flat_map in I. destruct I as (a & Ia & Ie).
    unfold find_to_list in Ia. apply in_firstn in Ia.
    apply filter_In in Ia. destruct Ia as [Ia P]. apply alert_of_iff in P.
    destruct (alert_one_recipient _ _ _ _ Ie) as (To & Name & _ & Enabled).
    split; [ exact Name | ]. exists a. auto.
  - intros U. destruct (_ && _); [ | simpl; lia ].
    specialize (U (Monitor.id monitor)). unfold find_to_list.
    destruct (filter (alert_of (Monitor.id monitor)) (alert_settings st))
      as [| a [| b rest]]; simpl in *; try lia.
    rewrite app_nil_r. apply alert_one_length.
Qed.

Lemma check_due_monitor_mail_witness :
  outbox
    (@check_due_monitor sample_runtime
       (Monitor.of_create cert_monitor "m1" 0)
       (answers 200 (whole_days 1) 100 "l1")
       (@serve_all sample_runtime empty_state
          [PostMonitor cert_monitor "m1" 0; PostAlert down_alerts_only "a1" 1]))
  = [].
Proof.
  destruct (@check_due_monitor_mail sample_runtime
              (Monitor.of_create cert_monitor "m1" 0)
              (answers 200 (whole_days 1) 100 "l1")
              (@serve_all sample_runtime empty_state
                 [PostMonitor cert_monitor "m1" 0;
                  PostAlert down_alerts_only "a1" 1]))
    as (new_mail & E & First & _).
  rewrite E, (First eq_refl). reflexivity.
Defined.

(** ** The address shown in a message *)

Lemma or_else_given :
  forall a b, truthy_str a = false -> or_else a b = b.
Proof. intros a b N. unfold or_else. rewrite N. reflexivity. Qed.

Lemma or_str_cases :
  forall s d,
    (truthy_str s = true /\ Some (or_str s d) = s)
    \/ (truthy_str s = false /\ or_str s d = d).
Proof.
  intros [v |] d; simpl; [ | right; auto ].
  destruct (v =? "")%string; simpl; [ right | left ]; auto.
Qed.

(** X15: the address put in an alert is never empty: it is the first of
    url, ssl_domain, dns_hostname, port_host, ping_host, keyword_url and
    api_url that is set and not empty, and "N/A" when none is. *)
Theorem representative_url_first_given :
  forall m : Monitor.t,
  let fields :=
    [Monitor.url m; Monitor.ssl_domain m; Monitor.dns_hostname m;
     Monitor.port_host m; Monitor.ping_host m; Monitor.keyword_url m;
     Monitor.api_url m] in
  representative_url m <> ""
  /\ ((forall f, In f fields -> ~ given f) -> representative_url m = "N/A")
  /\ (forall before f after,
        fields = (before ++ f :: after)%list ->
        (forall g, In g before -> ~ given g) ->
        given f ->
        Some (representative_url m) = f).
Proof.
  intros m fields. subst fields. unfold representative_url.
  set (u := Monitor.url m). set (s := Monitor.ssl_domain m).
  set (d := Monitor.dns_hostname m). set (p := Monitor.port_host m).
  set (g := Monitor.ping_host m). set (k := Monitor.keyword_url m).
  set (a := Monitor.api_url m).
  assert (NotGiven : forall f, ~ given f -> truthy_str f = false).
  { intros f N. destruct (truthy_str f) eqn:T; auto.
    apply truthy_str_given in T. contradiction. }
  split; [ | split ].
  - destruct (or_str_cases
                (or_else u (or_else s (or_else d (or_else p (or_else g
                   (or_else k a)))))) "N/A") as [[T E] | [_ ->]];
      [ | discriminate ].
    intros Z. rewrite Z in E. rewrite <- E in T. discriminate.
  - intros None_.
    assert (forall f, In f [u; s; d; p; g; k; a] -> truthy_str f = false)
      as F by (intros f I; apply NotGiven, None_, I).
    unfold or_else.
    rewrite (F u), (F s), (F d), (F p), (F g), (F k) by (simpl; tauto).
    destruct (or_str_cases a "N/A") as [[T _] | [_ E]]; [ | exact E ].
    rewrite (F a) in T by (simpl; tauto). discriminate.
  - intros before f after E Before Given.
    apply truthy_str_given in Given.
    assert (Skip : forall x, In x before -> truthy_str x = false)
      by (intros x I; apply NotGiven, Before, I).
    assert (Pick : forall rest, Some (or_str (or_else f rest) "N/A") = f).
    { intros rest. unfold or_else. rewrite Given.
      destruct (or_str_cases f "N/A") as [[_ R] | [T _]]; [ exact R | congruence ]. }
    assert (Last : Some (or_str f "N/A") = f).
    { destruct (or_str_cases f "N/A") as [[_ R] | [T _]]; [ exact R | congruence ]. }
    destruct before as [| b1 [| b2 [| b3 [| b4 [| b5 [| b6 [| b7 more]]]]]]];
      simpl in E; injection E as; subst;
      repeat (rewrite or_else_given by (apply Skip; simpl; tauto));
      try apply Pick; try exact Last.
    destruct more; discriminate.
Qed.

Lemma representative_url_first_given_witness :
  representative_url (Monitor.of_create cert_monitor "m1" 0) = "example.com".
Proof.
  destruct (representative_url_first_given
              (Monitor.of_create cert_monitor "m1" 0)) as (_ & _ & First).
  specialize (First [None] (Some "example.com")
                [None; None; None; None; None]).
  assert (E : Some (representative_url (Monitor.of_create cert_monitor "m1" 0))
              = Some "example.com").
  { apply First.
    - reflexivity.
    - intros g [<- | []] (v & D & _). discriminate.
    - exists "example.com". split; [ reflexivity | discriminate ]. }
  exact (f_equal (fun o => match o with Some v => v | None => "" end) E).
Defined.

(** ** Range of the uptime percentage *)

Lemma filter_length_bound :
  forall (A : Type) (p : A -> bool) (l : list A),
    (length (filter p l) <= length l)%nat
    /\ (length (filter p l) = length l <-> forall x, In x l -> p x = true)
    /\ (length (filter p l) = 0%nat <-> forall x, In x l -> p x = false).
Proof.
  intros A p. induction l as [| a rest (Le & All & None_)]; simpl.
  - repeat split; auto; intros _ x [].
  - destruct (p a) eqn:P; simpl.
    + split; [ lia | split; split ].
      * intros E x [<- | I]; auto. apply All; [ lia | exact I ].
      * intros Hall. f_equal. apply All. intros x I. apply Hall. auto.
      * discriminate.
      * intros Hnone. specialize (Hnone a (or_introl eq_refl)). congruence.
    + split; [ lia | split; split ].
      * intros E. lia.
      * intros Hall. specialize (Hall a (or_introl eq_refl)). congruence.
      * intros E x [<- | I]; auto. apply None_; auto.
      * intros Hnone. apply None_. intros x I. apply Hnone. auto.
Qed.

Lemma ratio_percent_range :
  forall up total : nat,
    (up <= total)%nat -> (0 < total)%nat ->
    (0 <= ratio_percent up total)%Q
    /\ (ratio_percent up total <= 100)%Q
    /\ ((ratio_percent up total == 100)%Q <-> up = total)
    /\ ((ratio_percent up total == 0)%Q <-> up = 0%nat).
Proof.
  intros up total Le Pos. unfold ratio_percent, Qdiv, Qinv, Qmult, Qle, Qeq.
  simpl Qnum. simpl Qden.
  destruct (Z.of_nat total) as [| t | t] eqn:T; try lia.
  simpl Qnum. simpl Qden.
  assert (B : Z.of_nat up <= Z.pos t) by lia.
  assert (N : 0 <= Z.of_nat up) by lia.
  rewrite ?Pos2Z.inj_mul, ?Z.mul_1_r, ?Z.mul_1_l.
  repeat split; intros; try nia.
Qed.

(** X16: whenever the aggregator writes an uptime percentage it lies between
    0 and 100; it is 100 exactly when every log it read is up, and 0 exactly
    when none is (warnings and downs alike). *)
Theorem update_uptime_percentage_range :
  forall (monitor_id : string) (now : datetime) (st : State) (m' : Monitor.t),
  let L := find_to_list (in_window monitor_id (now - timedelta_hours 24)) 1000
             (uptime_logs st) in
  L <> [] ->
  find_one (has_id monitor_id)
    (monitors (update_uptime_percentage monitor_id now st)) = Some m' ->
  (0 <= Monitor.uptime_percentage m' <= 100)%Q
  /\ ((Monitor.uptime_percentage m' == 100)%Q
      <-> forall l, In l L -> UptimeLog.status l = UP)
  /\ ((Monitor.uptime_percentage m' == 0)%Q
      <-> forall l, In l L -> UptimeLog.status l <> UP).
Proof.
  intros monitor_id now st m' L NonEmpty.
  unfold update_uptime_percentage. fold L.
  destruct L as [| l0 rest] eqn:EL; [ contradiction | ]. rewrite <- EL.
  cbv zeta. simpl monitors.
  rewrite update_one_find by (intros; apply has_id_apply_set).
  destruct (find_one (has_id monitor_id) (monitors st)) as [m |];
    [ | discriminate ].
  simpl. intros [= <-]. simpl.
  assert (Pos : (0 < length L)%nat) by (rewrite EL; simpl; lia).
  destruct (filter_length_bound _ is_up L) as (Le & All & None_).
  replace (0 <? length L)%nat with true by (symmetry; apply Nat.ltb_lt; exact Pos).
  destruct (ratio_percent_range _ _ Le Pos) as (Lo & Hi & Full & Zero).
  split; [ split; assumption | split ].
  - rewrite Full, All. split; intros Hall l I.
    + apply is_up_iff. apply Hall. exact I.
    + apply is_up_iff. apply Hall. exact I.
  - rewrite Zero, None_. split; intros Hnone l I.
    + intros U. apply is_up_iff in U. rewrite (Hnone l I) in U. discriminate.
    + destruct (is_up l) eqn:U; auto. apply is_up_iff in U.
      exfalso. exact (Hnone l I U).
Qed.

Lemma update_uptime_percentage_range_witness :
  exists m',
    find_one (has_id "m1")
      (monitors (update_uptime_percentage "m1" (timedelta_seconds 100) one_up_log))
    = Some m'
    /\ (0 <= Monitor.uptime_percentage m' <= 100)%Q.
Proof.
  destruct (update_uptime_percentage_range "m1" (timedelta_seconds 100)
              one_up_log _ ltac:(discriminate) eq_refl) as (Range & _).
  eexists. split; [ reflexivity | exact Range ].
Defined.

(** ** After a check *)

Lemma update_uptime_percentage_find :
  forall monitor_id now st m,
    find_one (has_id monitor_id) (monitors st) = Some m ->
    exists m',
      find_one (has_id monitor_id)
        (monitors (update_uptime_percentage monitor_id now st)) = Some m'
      /\ Monitor.last_checked m' = Monitor.last_checked m
      /\ Monitor.status m' = Monitor.status m
      /\ Monitor.response_time m' = Monitor.response_time m
      /\ Monitor.check_interval m' = Monitor.check_interval m.
Proof.
  intros monitor_id now st m F. unfold update_uptime_percentage.
  destruct (find_to_list _ _ _).
  - exists m. auto.
  - simpl. rewrite update_one_find by (intros; apply has_id_apply_set).
    rewrite F. simpl. eexists. split; [ reflexivity | repeat split ].
Qed.

(** X17: after the check of a due monitor that is in the store, the stored
    monitor carries the status and response time of that check, its newest
    log carries the same status and response time, and last_checked is the
    time of the check, which a store that keeps times to the millisecond
    may cut by less than one millisecond. When check_interval is a number
    of seconds a timedelta can hold, the monitor is due again from
    check_interval seconds after the check on, and not due until one
    millisecond before that. When it is not, the due test raises
    OverflowError at every time: the monitor is never checked by the cycle
    again. *)
Theorem check_due_monitor_next_due `{Runtime} :
  forall (monitor : Monitor.t) (env : Environment) (st : State)
         (m0 : Monitor.t),
  let st' := check_due_monitor monitor env st in
  let c := perform_check monitor env in
  let next := utcnow_check env + Monitor.check_interval m0 * 1000000 in
  find_one (has_id (Monitor.id monitor)) (monitors st) = Some m0 ->
  exists m' log last,
    find_one (has_id (Monitor.id monitor)) (monitors st') = Some m'
    /\ uptime_logs st' = (uptime_logs st ++ [log])%list
    /\ Monitor.last_checked m' = Some last
    /\ utcnow_check env - 1000 < last <= utcnow_check env
    /\ Monitor.status m' = c_status c
    /\ UptimeLog.status log = c_status c
    /\ Monitor.response_time m' = c_response_time c
    /\ UptimeLog.response_time log = c_response_time c
    /\ Monitor.check_interval m' = Monitor.check_interval m0
    /\ (representable_interval (Monitor.check_interval m0) ->
        forall now,
          (next <= now -> is_due m' now = Return true)
          /\ (now <= next - 1000 -> is_due m' now = Return false))
    /\ (~ representable_interval (Monitor.check_interval m0) ->
        forall now, exists e, is_due m' now = Raise e /\ cls e = OverflowError).
Proof.
  intros monitor env st m0 st' c next F.
  destruct (perform_check_keys monitor env) as (Klast & _).
  fold c in Klast.
  assert (F1 : find_one (has_id (Monitor.id monitor))
                 (monitors (record_check (Monitor.id monitor) c env st))
               = Some (Monitor.apply_set (with_common_fields c) m0)).
  { simpl. rewrite update_one_find by (intros; apply has_id_apply_set).
    rewrite F. reflexivity. }
  destruct (update_uptime_percentage_find (Monitor.id monitor) (utcnow_uptime env)
              _ _ F1) as (m' & F2 & Last & Status & Rt & Interval).
  exists m'. eexists. exists (utcnow_check env).
  split; [ exact F2 | ].
  split.
  { subst st'. unfold check_due_monitor, send_all. simpl.
    rewrite update_uptime_percentage_logs. reflexivity. }
  simpl in Last, Status, Rt, Interval. rewrite Klast in Last.
  unfold Monitor.written in Last.
  repeat match goal with |- _ /\ _ => split end; auto; try lia.
  - intros R now. unfold is_due. rewrite Last, Interval.
    rewrite (proj1 (timedelta_new_seconds _) R). cbn [bind]. subst next.
    split; intros D; f_equal; [ apply Z.leb_le | apply Z.leb_gt ]; lia.
  - intros U now. apply is_due_overflow. unfold safe_interval.
    rewrite Last, Interval. intros [N | R]; [ discriminate | contradiction ].
Qed.

Lemma check_due_monitor_next_due_witness :
  map Monitor.last_checked (monitors cert_up) = [Some (timedelta_seconds 100)]
  /\ (forall m', In m' (monitors cert_up) ->
        is_due m' (timedelta_seconds 159) = Return false
        /\ is_due m' (timedelta_seconds 160) = Return true)
  /\ map (fun m => is_due m (timedelta_seconds 1000000)) (monitors stuck_fleet)
     = [Raise (mkExn OverflowError "Python int too large to convert to C int");
        Return true].
Proof.
  split; [ reflexivity | split; [ | reflexivity ] ].
  destruct (@check_due_monitor_next_due sample_runtime
              (Monitor.of_create cert_monitor "m1" 0)
              (answers 200 (whole_days 200) 100 "l1")
              (@serve_all sample_runtime empty_state
                 [PostMonitor cert_monitor "m1" 0;
                  PostAlert down_alerts_only "a1" 1])
              _ eq_refl)
    as (m' & log & last & F & _ & _ & _ & _ & _ & _ & _ & _ & Due & _).
  vm_compute in F. injection F as <-.
  intros m [<- | []].
  assert (R : representable_interval 60) by (vm_compute; split; discriminate).
  split.
  - apply (Due R). vm_compute. discriminate.
  - apply (Due R). vm_compute. discriminate.
Defined.

(** ** Facts about the sorted queries *)

Section SortingFacts.

Context {A : Type} (key : A -> Z).

Lemma insert_sorted_permutation :
  forall direction x sorted,
    Permutation (insert_sorted key direction x sorted) (x :: sorted).
Proof.
  intros direction x. induction sorted as [| y rest IH]; simpl.
  - apply Permutation_refl.
  - destruct (direction * key x <? direction * key y).
    + apply Permutation_refl.
    + apply perm_trans with (y :: x :: rest);
        [ apply perm_skip; exact IH | apply perm_swap ].
Qed.

Lemma sort_by_permutation :
  forall direction docs, Permutation (sort_by key direction docs) docs.
Proof.
  intros direction docs. unfold sort_by.
  assert (G : forall acc,
             Permutation
               (fold_left (fun sorted x => insert_sorted key direction x sorted)
                  docs acc)
               (docs ++ acc)).
  { induction docs as [| x rest IH]; intros acc; simpl.
    - apply Permutation_refl.
    - eapply perm_trans; [ apply IH | ].
      eapply perm_trans;
        [ apply Permutation_app_head; apply insert_sorted_permutation | ].
      apply Permutation_sym. apply Permutation_middle. }
  specialize (G []). rewrite app_nil_r in G. exact G.
Qed.

Lemma insert_sorted_nondecreasing :
  forall direction x sorted,
    nondecreasing (map (fun d => direction * key d) sorted) ->
    nondecreasing
      (map (fun d => direction * key d) (insert_sorted key direction x sorted)).
Proof.
  intros direction x. induction sorted as [| y rest IH]; simpl; auto.
  intros S. destruct (Z.ltb_spec (direction * key x) (direction * key y)).
  - simpl. split; [ lia | exact S ].
  - destruct rest as [| z rest'].
    + simpl. split; [ lia | exact I ].
    + destruct S as [Le S']. specialize (IH S'). simpl in IH |- *.
      destruct (direction * key x <? direction * key z); simpl in *;
        split; auto; lia.
Qed.

Lemma sort_by_nondecreasing :
  forall direction docs,
    nondecreasing (map (fun d => direction * key d) (sort_by key direction docs)).
Proof.
  intros direction docs. unfold sort_by.
  assert (G : forall acc,
             nondecreasing (map (fun d => direction * key d) acc) ->
             nondecreasing
               (map (fun d => direction * key d)
                  (fold_left (fun sorted x => insert_sorted key direction x sorted)
                     docs acc))).
  { induction docs as [| x rest IH]; intros acc S; simpl; auto.
    apply IH. apply insert_sorted_nondecreasing. exact S. }
  apply G. exact I.
Qed.

End SortingFacts.

Lemma nondecreasing_firstn :
  forall n zs, nondecreasing zs -> nondecreasing (firstn n zs).
Proof.
  induction n as [| n IH]; intros zs S; [ exact I | ].
  destruct zs as [| a [| b rest]];
    [ exact I | cbn [firstn]; rewrite firstn_nil; exact I | ].
  change (a <= b /\ nondecreasing (b :: rest)) in S. destruct S as [Le S'].
  specialize (IH _ S'). cbn [firstn]. destruct n as [| n']; [ exact I | ].
  change (a <= b /\ nondecreasing (firstn (Datatypes.S n') (b :: rest))).
  split; [ exact Le | exact IH ].
Qed.

Lemma nondecreasing_nodup_increasing :
  forall zs, nondecreasing zs -> NoDup zs -> increasing zs.
Proof.
  induction zs as [| a [| b rest] IH]; simpl; auto.
  intros [Le S] N. inversion N as [| ? ? NotIn N']; subst.
  split; [ | apply IH; assumption ].
  assert (a <> b) by (intros ->; apply NotIn; left; reflexivity). lia.
Qed.

Lemma nondecreasing_negated :
  forall zs, nondecreasing (map (fun z => -1 * z) zs) -> nonincreasing zs.
Proof.
  induction zs as [| a rest IH]; [ intros; exact I | ].
  destruct rest as [| b rest']; [ intros; exact I | ].
  intros S.
  change (-1 * a <= -1 * b
          /\ nondecreasing (map (fun z => -1 * z) (b :: rest'))) in S.
  destruct S as [Le S].
  change (b <= a /\ nonincreasing (b :: rest')).
  split; [ lia | apply IH; exact S ].
Qed.

Lemma filter_none :
  forall (A : Type) (p : A -> bool) (l : list A),
    (forall x, In x l -> p x = false) -> filter p l = [].
Proof.
  intros A p. induction l as [| a rest IH]; simpl; auto.
  intros N. rewrite (N a (or_introl eq_refl)). apply IH.
  intros x I. apply N. right. exact I.
Qed.

Lemma timedelta_days_hours :
  forall h, timedelta_days (timedelta_hours h) = h / 24.
Proof.
  intros h. unfold timedelta_days, timedelta_hours.
  replace (h * 3600 * 1000000) with (h * 3600000000) by lia.
  change 86400000000 with (24 * 3600000000).
  apply Z.div_mul_cancel_r; lia.
Qed.

(** The start of the window is [now - hours] when it can be computed;
    otherwise [OverflowError] is raised. *)
Lemma time_ago_cases :
  forall hours now,
    (representable_window hours now ->
     time_ago hours now = Return (now - timedelta_hours hours))
    /\ (~ representable_window hours now ->
        exists e, time_ago hours now = Raise e /\ cls e = OverflowError).
Proof.
  intros hours now. unfold time_ago, timedelta_new, datetime_sub,
    representable_window.
  rewrite timedelta_days_hours.
  change (timedelta_hours hours) with (hours * 3600 * 1000000).
  destruct (Z.leb_spec (-999999999) (hours / 24));
    destruct (Z.leb_spec (hours / 24) 999999999); cbn [andb bind];
    try (split; intros R; [ lia | eexists; split; reflexivity ]).
  destruct (Z.leb_spec datetime_min (now - hours * 3600 * 1000000));
    destruct (Z.leb_spec (now - hours * 3600 * 1000000) datetime_max);
    cbn [andb];
    split; intros R; try lia; try reflexivity;
    eexists; split; reflexivity.
Qed.

Lemma time_ago_value :
  forall hours now since,
    time_ago hours now = Return since ->
    representable_window hours now /\ since = now - timedelta_hours hours.
Proof.
  intros hours now since E.
  destruct (time_ago_cases hours now) as [Yes No].
  assert (R : representable_window hours now).
  { unfold representable_window.
    destruct (Z.le_gt_cases (-999999999) (hours / 24));
      destruct (Z.le_gt_cases (hours / 24) 999999999);
      destruct (Z.le_gt_cases datetime_min (now - hours * 3600 * 1000000));
      destruct (Z.le_gt_cases (now - hours * 3600 * 1000000) datetime_max);
      try (split; split; assumption);
      destruct No as (e & E' & _);
      try (unfold representable_window; lia);
      rewrite E' in E; discriminate. }
  split; [ exact R | ]. rewrite (Yes R) in E. injection E as <-. reflexivity.
Qed.

(** X18: when the window can be computed, GET /api/monitors/{monitor_id}/logs
    returns at most 1000 logs, newest first, each of them a stored log of
    that monitor with a timestamp in the requested window; when the window
    holds at most 1000 logs of the monitor none is left out; and for a
    monitor without logs in the window - an unknown identifier included -
    the answer is the empty list. When the window cannot be computed - the
    number of hours is beyond what a timedelta holds, or the window would
    start outside the years 1 to 9999 - the route raises OverflowError,
    which nothing in the route handles. *)
Theorem get_monitor_logs_newest_first_window :
  forall (monitor_id : string) (hours : Z) (now : datetime) (st : State),
  let window :=
    filter (in_window monitor_id (now - timedelta_hours hours)) (uptime_logs st) in
  (representable_window hours now ->
   exists logs,
     get_monitor_logs monitor_id hours now st = Return logs
     /\ (length logs <= 1000)%nat
     /\ nonincreasing (map UptimeLog.timestamp logs)
     /\ (forall l, In l logs ->
           In l (uptime_logs st)
           /\ UptimeLog.monitor_id l = monitor_id
           /\ now - hours * 3600 * 1000000 <= UptimeLog.timestamp l)
     /\ ((length window <= 1000)%nat -> Permutation logs window)
     /\ ((forall l, In l (uptime_logs st) ->
                    UptimeLog.monitor_id l = monitor_id ->
                    UptimeLog.timestamp l < now - hours * 3600 * 1000000) ->
         logs = []))
  /\ (~ representable_window hours now ->
      exists e, get_monitor_logs monitor_id hours now st = Raise e
                /\ cls e = OverflowError).
Proof.
  intros monitor_id hours now st window.
  destruct (time_ago_cases hours now) as [Yes No].
  split.
  2: { intros U. destruct (No U) as (e & E & C). exists e.
       unfold get_monitor_logs. rewrite E. split; [ reflexivity | exact C ]. }
  intros R. unfold get_monitor_logs. rewrite (Yes R). cbn [bind]. fold window.
  eexists. split; [ reflexivity | ].
  pose proof (sort_by_permutation UptimeLog.timestamp (-1) window) as P.
  split; [ apply firstn_le_length | ].
  split.
  { apply nondecreasing_negated. rewrite map_map, <- firstn_map.
    apply nondecreasing_firstn.
    apply (sort_by_nondecreasing UptimeLog.timestamp (-1)). }
  split.
  { intros l I. apply in_firstn in I.
    apply (Permutation_in _ P) in I. unfold window in I.
    apply filter_In in I. destruct I as [I W].
    apply in_window_iff in W. unfold timedelta_hours in W. tauto. }
  split.
  { intros Len. rewrite firstn_all2; [ exact P | ].
    rewrite (Permutation_length P). exact Len. }
  intros Old.
  assert (E : window = []).
  { unfold window. apply filter_none. intros l I.
    destruct (in_window monitor_id (now - timedelta_hours hours) l) eqn:W; auto.
    apply in_window_iff in W. destruct W as [Id T].
    specialize (Old l I Id). unfold timedelta_hours in T. lia. }
  rewrite E. reflexivity.
Qed.

Lemma get_monitor_logs_newest_first_window_witness :
  (exists logs,
      get_monitor_logs "m1" 24 (timedelta_seconds 5000) two_hours = Return logs
      /\ map UptimeLog.id logs = ["l4"; "l3"; "l2"; "l1"])
  /\ get_monitor_logs "nobody" 24 (timedelta_seconds 5000) two_hours = Return []
  /\ get_monitor_logs "m1" 1000000000 (timedelta_seconds 5000) two_hours
     = Raise (mkExn OverflowError "date value out of range").
Proof.
  assert (R : representable_window 24 (timedelta_seconds 5000))
    by (vm_compute; repeat split; discriminate).
  split; [ eexists; split; reflexivity | split; [ | reflexivity ] ].
  destruct (get_monitor_logs_newest_first_window "nobody" 24
              (timedelta_seconds 5000) two_hours) as [Window _].
  destruct (Window R) as (logs & E & _ & _ & _ & _ & Empty).
  rewrite E. f_equal. apply Empty. intros l I Id. exfalso.
  repeat (destruct I as [<- | I]; [ discriminate | ]). destruct I.
Defined.

(** *** Hourly history *)

Lemma bucket_at_update :
  forall hour f data hour',
    bucket_at hour' (bucket_update hour f data)
    = if hour' =? hour
      then Some (f match bucket_at hour data with
                   | Some b => b
                   | None => empty_bucket
                   end)
      else bucket_at hour' data.
Proof.
  intros hour f data hour'. unfold bucket_at.
  induction data as [| [k b] rest IH]; simpl.
  - rewrite (Z.eqb_sym hour hour'). destruct (hour' =? hour); reflexivity.
  - destruct (Z.eqb_spec k hour) as [-> | NE]; simpl.
    + rewrite (Z.eqb_sym hour hour'). destruct (hour' =? hour); reflexivity.
    + destruct (Z.eqb_spec k hour') as [-> | NE'].
      * destruct (Z.eqb_spec hour' hour); [ congruence | reflexivity ].
      * exact IH.
Qed.

Lemma bucket_at_fold :
  forall logs data hour,
    bucket_at hour (fold_left add_log logs data)
    = match bucket_at hour data with
      | Some b => Some (tally hour logs b)
      | None =>
          if existsb (in_hour hour) logs
          then Some (tally hour logs empty_bucket)
          else None
      end.
Proof.
  induction logs as [| l rest IH]; intros data hour; simpl.
  - destruct (bucket_at hour data); reflexivity.
  - rewrite IH. unfold add_log at 1. rewrite bucket_at_update.
    unfold in_hour, tally. cbn [fold_left existsb].
    rewrite (Z.eqb_sym hour (hour_key (UptimeLog.timestamp l))).
    destruct (hour_key (UptimeLog.timestamp l) =? hour) eqn:E; cbn [orb].
    + apply Z.eqb_eq in E. rewrite E.
      destruct (bucket_at hour data); reflexivity.
    + destruct (bucket_at hour data); reflexivity.
Qed.

Lemma bucket_update_keys :
  forall hour f data hour',
    In hour' (map fst (bucket_update hour f data))
    <-> hour' = hour \/ In hour' (map fst data).
Proof.
  intros hour f data hour'. induction data as [| [k b] rest IH]; simpl.
  - intuition.
  - destruct (Z.eqb_spec k hour) as [-> | NE]; simpl.
    + intuition.
    + rewrite IH. intuition.
Qed.

Lemma bucket_update_nodup :
  forall hour f data,
    NoDup (map fst data) -> NoDup (map fst (bucket_update hour f data)).
Proof.
  intros hour f data. induction data as [| [k b] rest IH]; simpl; intros N.
  - constructor; [ intros [] | constructor ].
  - inversion N as [| ? ? NotIn N']; subst.
    destruct (Z.eqb_spec k hour) as [-> | NE]; simpl.
    + constructor; assumption.
    + constructor; [ | apply IH; exact N' ].
      rewrite bucket_update_keys. intros [E | I]; [ congruence | contradiction ].
Qed.

Lemma add_logs_nodup :
  forall logs data,
    NoDup (map fst data) -> NoDup (map fst (fold_left add_log logs data)).
Proof.
  induction logs as [| l rest IH]; intros data N; simpl; auto.
  apply IH. apply bucket_update_nodup. exact N.
Qed.

Lemma in_bucket_at :
  forall data hour b,
    NoDup (map fst data) -> In (hour, b) data -> bucket_at hour data = Some b.
Proof.
  unfold bucket_at. induction data as [| [k b0] rest IH]; simpl;
    intros hour b N I; [ destruct I | ].
  inversion N as [| ? ? NotIn N']; subst.
  destruct I as [[= -> ->] | I].
  - rewrite Z.eqb_refl. reflexivity.
  - destruct (Z.eqb_spec k hour) as [-> | NE].
    + exfalso. apply NotIn. apply (in_map fst) in I. exact I.
    + apply IH; assumption.
Qed.

Lemma count_log_checks :
  forall l b,
    up_count (count_log l b)
    = up_count b + (if is_up l then 1 else 0)
    /\ down_count (count_log l b)
       = down_count b + (if is_up l then 0 else 1).
Proof.
  intros l b. unfold count_log, is_up.
  destruct (status_eqb (UptimeLog.status l) UP);
    [ destruct (truthy_float _) | ]; simpl; lia.
Qed.

Lemma tally_counts :
  forall hour logs b,
    up_count (tally hour logs b)
    = up_count b
      + Z.of_nat (length (filter (fun l => in_hour hour l && is_up l) logs))
    /\ down_count (tally hour logs b)
       = down_count b
         + Z.of_nat (length (filter (fun l => in_hour hour l && negb (is_up l))
                               logs)).
Proof.
  intros hour. unfold tally.
  induction logs as [| l rest IH]; intros b; [ simpl; lia | ].
  cbn [fold_left filter].
  assert (Here : in_hour hour l = (hour_key (UptimeLog.timestamp l) =? hour))
    by reflexivity.
  rewrite !Here.
  destruct (hour_key (UptimeLog.timestamp l) =? hour); cbn [andb].
  - destruct (IH (count_log l b)) as [U D].
    destruct (count_log_checks l b) as [U0 D0].
    rewrite U, D, U0, D0.
    destruct (is_up l); cbn [negb length]; lia.
  - apply IH.
Qed.

Lemma filter_in_hour_split :
  forall hour logs,
    (length (filter (fun l => in_hour hour l && is_up l) logs)
     + length (filter (fun l => in_hour hour l && negb (is_up l)) logs)
     = length (filter (in_hour hour) logs))%nat.
Proof.
  intros hour. induction logs as [| l rest IH]; [ reflexivity | ].
  cbn [filter]. destruct (in_hour hour l), (is_up l); cbn [andb negb length]; lia.
Qed.

Lemma existsb_filter_positive :
  forall (A : Type) (p : A -> bool) (l : list A),
    existsb p l = true -> (1 <= length (filter p l))%nat.
Proof.
  intros A p. induction l as [| a rest IH]; simpl; [ discriminate | ].
  destruct (p a); simpl; [ lia | exact IH ].
Qed.

Lemma hour_key_aligned : forall t, hour_key t mod 3600000000 = 0.
Proof.
  intros t. unfold hour_key.
  rewrite Zminus_mod, Z.mod_mod, Z.sub_diag by lia. reflexivity.
Qed.

Lemma sum_buckets_update :
  forall l data,
    sum_buckets (add_log data l) = sum_buckets data + 1.
Proof.
  intros l. unfold add_log.
  induction data as [| [k b] rest IH]; cbn [bucket_update].
  - destruct (count_log_checks l empty_bucket) as [U D].
    unfold sum_buckets. cbn [fold_right snd]. rewrite U, D. simpl.
    destruct (is_up l); lia.
  - destruct (k =? hour_key (UptimeLog.timestamp l)).
    + destruct (count_log_checks l b) as [U D].
      unfold sum_buckets. cbn [fold_right snd]. rewrite U, D.
      destruct (is_up l); lia.
    + unfold sum_buckets in *. cbn [fold_right snd]. rewrite IH. lia.
Qed.

Lemma sum_buckets_fold :
  forall logs data,
    sum_buckets (fold_left add_log logs data)
    = sum_buckets data + Z.of_nat (length logs).
Proof.
  induction logs as [| l rest IH]; intros data; cbn [fold_left length].
  - lia.
  - rewrite IH, sum_buckets_update. lia.
Qed.

Lemma sum_buckets_permutation :
  forall a b, Permutation a b -> sum_buckets a = sum_buckets b.
Proof.
  intros a b P. unfold sum_buckets.
  induction P; cbn [fold_right]; lia.
Qed.

Lemma sum_checks_history :
  forall data, sum_checks (map history_point data) = sum_buckets data.
Proof.
  unfold sum_checks, sum_buckets.
  induction data as [| [k b] rest IH]; cbn [map fold_right history_point];
    [ reflexivity | ].
  cbn [h_total_checks snd]. rewrite IH. reflexivity.
Qed.

(** Every point of the history is the bucket of an hour in which a log was
    read. *)
Lemma history_point_origin :
  forall logs p,
    In p (hourly_history logs) ->
    existsb (in_hour (h_timestamp p)) logs = true
    /\ p = history_point (h_timestamp p, tally (h_timestamp p) logs empty_bucket).
Proof.
  intros logs p I.
  unfold hourly_history in I.
  apply in_map_iff in I. destruct I as ([k b] & <- & I).
  apply (Permutation_in _ (sort_by_permutation fst 1 _)) in I.
  assert (N : NoDup (map fst (fold_left add_log logs [])))
    by (apply add_logs_nodup; constructor).
  pose proof (in_bucket_at _ _ _ N I) as B.
  rewrite bucket_at_fold in B. cbn [bucket_at find] in B.
  cbn [history_point h_timestamp].
  destruct (existsb (in_hour k) logs); [ | discriminate ].
  injection B as <-. split; reflexivity.
Qed.

Lemma get_monitor_history_cases :
  forall monitor_id hours now st,
    (representable_window hours now ->
     get_monitor_history monitor_id hours now st
     = Ok (hourly_history
             (history_logs monitor_id (now - timedelta_hours hours) st)))
    /\ (~ representable_window hours now ->
        get_monitor_history monitor_id hours now st
        = HTTPException 500 "Failed to get monitor history").
Proof.
  intros monitor_id hours now st.
  destruct (time_ago_cases hours now) as [Yes No].
  unfold get_monitor_history, get_monitor_history_try. split.
  - intros R. rewrite (Yes R). reflexivity.
  - intros U. destruct (No U) as (e & -> & _). reflexivity.
Qed.

(** X19: every point of GET /api/monitors/{monitor_id}/history stands for
    one clock hour in which at least one log was read: its timestamp is the
    start of the hour, total_checks is the number of logs read in that hour,
    and uptime_percentage is the number of those with status exactly up,
    divided by total_checks, times 100 - a warning counts against the uptime
    like a down. *)
Theorem get_monitor_history_points :
  forall (monitor_id : string) (hours : Z) (now : datetime) (st : State)
         (history : list HistoryPoint) (p : HistoryPoint),
  let logs := history_logs monitor_id (now - timedelta_hours hours) st in
  let in_this_hour l := hour_key (UptimeLog.timestamp l) =? h_timestamp p in
  get_monitor_history monitor_id hours now st = Ok history ->
  In p history ->
  h_timestamp p mod 3600000000 = 0
  /\ 1 <= h_total_checks p
  /\ h_total_checks p = Z.of_nat (length (filter in_this_hour logs))
  /\ h_uptime_percentage p
     = (inject_Z
          (Z.of_nat
             (length (filter (fun l => in_this_hour l
                                       && status_eqb (UptimeLog.status l) UP)
                        logs)))
        / inject_Z (h_total_checks p) * 100)%Q.
Proof.
  intros monitor_id hours now st history p logs in_this_hour Answer I.
  assert (I' : In p (hourly_history logs)).
  { unfold get_monitor_history, get_monitor_history_try in Answer.
    destruct (time_ago hours now) as [since | e] eqn:T; [ | discriminate ].
    apply time_ago_value in T. destruct T as [_ ->].
    cbn [bind] in Answer. injection Answer as <-. exact I. }
  destruct (history_point_origin _ _ I') as [Ex Shape].
  set (k := h_timestamp p) in *.
  destruct (tally_counts k logs empty_bucket) as [U D].
  pose proof (filter_in_hour_split k logs) as Split.
  pose proof (existsb_filter_positive _ _ _ Ex) as Positive.
  assert (Total : h_total_checks p = Z.of_nat (length (filter (in_hour k) logs))).
  { rewrite Shape. cbn [history_point h_total_checks]. rewrite U, D.
    cbn [empty_bucket up_count down_count]. lia. }
  split.
  { apply existsb_exists in Ex. destruct Ex as (l & _ & E).
    unfold in_hour in E. apply Z.eqb_eq in E. rewrite <- E.
    apply hour_key_aligned. }
  split; [ lia | ].
  split; [ exact Total | ].
  rewrite Total. rewrite Shape at 1. cbn [history_point h_uptime_percentage].
  rewrite U, D. cbn [empty_bucket up_count down_count].
  replace (0 <? _) with true by (symmetry; apply Z.ltb_lt; lia).
  rewrite !Z.add_0_l. rewrite <- Nat2Z.inj_add, Split. reflexivity.
Qed.

(** X20: when the window can be computed, the history accounts for every
    log it reads exactly once: the total_checks of its points add up to the
    number of logs read, which are the monitor's logs of the window, at most
    1000 of them, oldest first; the points come in strictly increasing
    order of their hour; and an identifier without any log - an unknown one
    included - gets an empty history. When the window cannot be computed -
    the number of hours is beyond what a timedelta holds, or the window
    would start outside the years 1 to 9999 - the route answers 500
    "Failed to get monitor history". *)
Theorem get_monitor_history_accounts_for_logs :
  forall (monitor_id : string) (hours : Z) (now : datetime) (st : State),
  let logs := history_logs monitor_id (now - timedelta_hours hours) st in
  (representable_window hours now ->
   exists history,
     get_monitor_history monitor_id hours now st = Ok history
     /\ sum_checks history = Z.of_nat (length logs)
     /\ (length logs <= 1000)%nat
     /\ nondecreasing (map UptimeLog.timestamp logs)
     /\ (forall l, In l logs ->
           In l (uptime_logs st)
           /\ UptimeLog.monitor_id l = monitor_id
           /\ now - hours * 3600 * 1000000 <= UptimeLog.timestamp l)
     /\ increasing (map h_timestamp history)
     /\ ((forall l, In l (uptime_logs st) ->
                    UptimeLog.monitor_id l <> monitor_id) ->
         history = []))
  /\ (~ representable_window hours now ->
      get_monitor_history monitor_id hours now st
      = HTTPException 500 "Failed to get monitor history").
Proof.
  intros monitor_id hours now st logs.
  destruct (get_monitor_history_cases monitor_id hours now st) as [Yes No].
  split; [ | exact No ].
  intros R. exists (hourly_history logs). split; [ exact (Yes R) | ].
  set (window := filter (in_window monitor_id (now - timedelta_hours hours))
                   (uptime_logs st)).
  assert (EL : logs = firstn 1000 (sort_by UptimeLog.timestamp 1 window))
    by reflexivity.
  assert (EH : hourly_history logs
               = map history_point (sort_by fst 1 (fold_left add_log logs [])))
    by reflexivity.
  pose proof (sort_by_permutation fst 1 (fold_left add_log logs [])) as P.
  split.
  { rewrite EH, sum_checks_history, (sum_buckets_permutation _ _ P),
      sum_buckets_fold. reflexivity. }
  split; [ rewrite EL; apply firstn_le_length | ].
  split.
  { rewrite EL, <- firstn_map. apply nondecreasing_firstn.
    pose proof (sort_by_nondecreasing UptimeLog.timestamp 1 window) as S.
    erewrite map_ext in S; [ exact S | ].
    intros l. simpl. destruct (UptimeLog.timestamp l); reflexivity. }
  split.
  { intros l I. rewrite EL in I. apply in_firstn in I.
    apply (Permutation_in _ (sort_by_permutation _ _ _)) in I.
    unfold window in I. apply filter_In in I. destruct I as [I W].
    apply in_window_iff in W. unfold timedelta_hours in W. tauto. }
  split.
  { rewrite EH, map_map.
    assert (Same : forall data,
               map (fun e => h_timestamp (history_point e)) data = map fst data).
    { intros data. apply map_ext. intros [k b]. reflexivity. }
    rewrite Same. apply nondecreasing_nodup_increasing.
    - pose proof (sort_by_nondecreasing fst 1 (fold_left add_log logs [])) as S.
      erewrite map_ext in S; [ exact S | ].
      intros [k b]. simpl. destruct k; reflexivity.
    - apply (Permutation_NoDup (Permutation_sym (Permutation_map fst P))).
      apply add_logs_nodup. constructor. }
  intros Nobody.
  assert (E : window = []).
  { unfold window. apply filter_none. intros l I.
    destruct (in_window _ _ l) eqn:W; auto.
    apply in_window_iff in W. destruct W as [Id _].
    exfalso. exact (Nobody l I Id). }
  rewrite EH, EL, E. reflexivity.
Qed.

Lemma get_monitor_history_points_witness :
  exists history,
    get_monitor_history "m1" 24 (timedelta_seconds 5000) two_hours = Ok history
    /\ map h_timestamp history = [0; 3600000000]
    /\ map h_total_checks history = [3; 1]
    /\ forall p, In p history -> 1 <= h_total_checks p.
Proof.
  eexists. split; [ reflexivity | ].
  split; [ reflexivity | split; [ reflexivity | ] ].
  intros p I.
  destruct (get_monitor_history_points "m1" 24 (timedelta_seconds 5000)
              two_hours _ p eq_refl I) as (_ & Positive & _).
  exact Positive.
Defined.

Lemma get_monitor_history_accounts_for_logs_witness :
  (exists history,
      get_monitor_history "m1" 24 (timedelta_seconds 5000) two_hours = Ok history
      /\ sum_checks history = 4)
  /\ get_monitor_history "nobody" 24 (timedelta_seconds 5000) two_hours = Ok []
  /\ get_monitor_history "m1" 1000000000 (timedelta_seconds 5000) two_hours
     = HTTPException 500 "Failed to get monitor history".
Proof.
  assert (R : representable_window 24 (timedelta_seconds 5000))
    by (vm_compute; repeat split; discriminate).
  destruct (get_monitor_history_accounts_for_logs "m1" 24
              (timedelta_seconds 5000) two_hours) as [Known _].
  destruct (get_monitor_history_accounts_for_logs "nobody" 24
              (timedelta_seconds 5000) two_hours) as [Unknown _].
  destruct (get_monitor_history_accounts_for_logs "m1" 1000000000
              (timedelta_seconds 5000) two_hours) as [_ Far].
  split; [ | split ].
  - destruct (Known R) as (history & E & Sum & _).
    exists history. split; [ exact E | rewrite Sum; reflexivity ].
  - destruct (Unknown R) as (history & E & _ & _ & _ & _ & _ & Empty).
    rewrite E. f_equal. apply Empty. intros l I.
    repeat (destruct I as [<- | I]; [ discriminate | ]). destruct I.
  - apply Far. vm_compute. intros [_ [Low _]]. apply Low. reflexivity.
Defined.

(** ** Mail for a monitor that goes down or comes back *)

Lemma flat_map_filter_map :
  forall (A B : Type) (p : A -> bool) (f : A -> B) (g : A -> list B) (l : list A),
    (forall a, g a = if p a then [f a] else []) ->
    flat_map g l = map f (filter p l).
Proof.
  intros A B p f g l Hg. induction l as [| a rest IH]; simpl; auto.
  rewrite Hg, IH. destruct (p a); reflexivity.
Qed.

(** X21: when a monitor that had a known status changes to down, every one
    of its (first 100) alert settings with alert_on_down and e-mail enabled
    gets one message with the DOWN template, in store order, and nobody else
    gets anything; when it changes to up, the same holds with alert_on_up
    and the recovery template. *)
Theorem status_change_alerts_down_and_up :
  forall (m : Monitor.t) (previous : MonitorStatus) (st : State),
  let subscribers :=
    firstn 100 (filter (alert_of (Monitor.id m)) (alert_settings st)) in
  let message template a :=
    mkEmail template (AlertSettings.email_address a) (Monitor.name m)
      (representative_url m) in
  (previous = UP \/ previous = WARNING ->
   status_change_alerts m previous DOWN st
   = map (message DownAlert)
       (filter (fun a => AlertSettings.alert_on_down a
                         && AlertSettings.email_enabled a) subscribers))
  /\ (previous = DOWN \/ previous = WARNING ->
      status_change_alerts m previous UP st
      = map (message Recovery)
          (filter (fun a => AlertSettings.alert_on_up a
                            && AlertSettings.email_enabled a) subscribers)).
Proof.
  intros m previous st subscribers message.
  split; intros [-> | ->]; unfold status_change_alerts; simpl;
    fold subscribers; apply flat_map_filter_map; intros a;
    unfold alert_one, should_alert, send_alert_email; simpl;
    destruct (AlertSettings.alert_on_down a), (AlertSettings.alert_on_up a),
      (AlertSettings.email_enabled a); reflexivity.
Qed.

Lemma status_change_alerts_down_and_up_witness :
  status_change_alerts (Monitor.of_create cert_monitor "m1" 0) UP DOWN cert_up
  = [mkEmail DownAlert "a@b" "Cert" "example.com"]
  /\ status_change_alerts (Monitor.of_create cert_monitor "m1" 0) DOWN UP cert_up
     = [].
Proof.
  destruct (status_change_alerts_down_and_up
              (Monitor.of_create cert_monitor "m1" 0) UP cert_up) as [Down _].
  destruct (status_change_alerts_down_and_up
              (Monitor.of_create cert_monitor "m1" 0) DOWN cert_up) as [_ Up].
  split.
  - rewrite Down by (left; reflexivity). reflexivity.
  - rewrite Up by (left; reflexivity). reflexivity.
Defined.

(** ** Stopping the service *)

(** X22: once the service is stopped, background cycles change nothing, any
    number of them; starting is idempotent; and the next accepted
    POST /api/monitors switches monitoring on again. *)
Theorem stopped_service_is_idle `{Runtime} :
  forall (st : State),
    (forall envs,
        serve_all (stop_monitoring_service st) (map BackgroundCycle envs)
        = stop_monitoring_service st)
    /\ start_monitoring_service (start_monitoring_service st)
       = start_monitoring_service st
    /\ (forall d new_id now,
          required_fields_present d ->
          monitoring_active
            (fst (create_monitor d new_id now (stop_monitoring_service st)))
          = true).
Proof.
  intros st. split; [ | split ].
  - unfold serve_all. induction envs as [| env rest IH]; simpl; auto.
  - reflexivity.
  - intros d new_id now R. apply missing_field_none_iff in R.
    unfold create_monitor. rewrite R. reflexivity.
Qed.

Lemma stopped_service_is_idle_witness :
  monitoring_active
    (fst (create_monitor (port_monitor 443) "p1" 7
            (stop_monitoring_service cert_up)))
  = true.
Proof.
  destruct (@stopped_service_is_idle sample_runtime cert_up) as (_ & _ & Restart).
  apply Restart. split.
  - exists "example.com". split; [ reflexivity | discriminate ].
  - exists 443. split; [ reflexivity | discriminate ].
Defined.
